(** * AGStreamer: session quota, connection state machine, expiry
      coordinator and audio-relay supervisor

    A shallow embedding of the parts of the repository that its
    specification makes testable claims about:

    - [Server]: [server/storage.ts] ([MemStorage]) and the session routes of
      [server/routes.ts];
    - [Agora]: the [useAgora] hook (join / leave / file playback and the
      provider event handlers);
    - [Page]: the countdown and expiry effects of the [VoiceBot] page;
    - [Bot]: [AudioBotManager] (worker handshake and command/response path).

    Wall-clock readings, random identifiers and the replies of the external
    audio provider are inputs of the embedded functions: every [Date.now()],
    [new Date()] and [crypto.randomUUID()] of the source is a separate
    argument, in the order in which the source performs them. *)

From Stdlib Require Import ZArith String Ascii List Lia Bool.
From stdpp Require Import gmap strings list fin_maps pretty.

Local Open Scope Z_scope.
Local Open Scope string_scope.

(* ===================================================================== *)
(** * JavaScript strings                                                 *)
(* ===================================================================== *)

Module Js.

(** [strip_prefix p s]: [Some rest] when [s = p ++ rest]. *)
Fixpoint strip_prefix (p s : string) : option string :=
  match p, s with
  | EmptyString, _ => Some s
  | String a p', String b s' =>
      if Ascii.eqb a b then strip_prefix p' s' else None
  | String _ _, EmptyString => None
  end.

(** [String.prototype.replace(pat, rep)] with a string pattern: the first
    occurrence of [pat] (anywhere in the subject) is replaced, the rest is
    kept as it is. *)
Fixpoint replace_first (pat rep s : string) : string :=
  match strip_prefix pat s with
  | Some rest => rep ++ rest
  | None =>
      match s with
      | EmptyString => EmptyString
      | String c s' => String c (replace_first pat rep s')
      end
  end.

(** JavaScript truthiness of a string: every string but the empty one. *)
Definition truthy (s : string) : bool :=
  match s with EmptyString => false | _ => true end.

(** [s.split("\n")]: the pieces between the newlines, in order; a string
    without a newline is its own only piece. *)
Fixpoint split_newline (s : string) : list string :=
  match s with
  | EmptyString => [EmptyString]
  | String c rest =>
      if Ascii.eqb c "010" then EmptyString :: split_newline rest
      else
        match split_newline rest with
        | piece :: pieces => String c piece :: pieces
        | [] => [String c EmptyString]
        end
  end.

(** [arr.slice(start)] for an integer [start]: a negative one counts from
    the end. *)
Definition slice_from {A : Type} (start : Z) (l : list A) : list A :=
  let len := Z.of_nat (length l) in
  let k := if Z.ltb start 0 then Z.max (len + start) 0 else Z.min start len in
  drop (Z.to_nat k) l.

End Js.

(* ===================================================================== *)
(** * Session Quota Manager ([server/storage.ts], [server/routes.ts])    *)
(* ===================================================================== *)

Module Server.

(** ** Time *)

(** Instants are milliseconds since the epoch, as [Date.now()] returns
    them. *)
Definition MS_PER_DAY : Z := 86400000.

(** [getTodayDateKey]: [new Date().toISOString().slice(0, 10)], the UTC
    calendar date of the reading.  The date is represented by the number of
    the UTC day; two readings have the same ten-character key exactly when
    they fall on the same UTC day. *)
Definition getTodayDateKey (t : Z) : Z := t / MS_PER_DAY.

(** [getResetTime]: the next UTC midnight after the reading. *)
Definition getResetTime (t : Z) : Z := (t / MS_PER_DAY + 1) * MS_PER_DAY.

(** ** Shared schema *)

(** [MAX_CONNECTIONS_PER_DAY] and [MAX_SESSION_DURATION_MS] are imported from
    [@shared/schema]; the constants are configuration of the embedded
    code. *)
Record Limits := {
  MAX_CONNECTIONS_PER_DAY : Z;
  MAX_SESSION_DURATION_MS : Z
}.

Record DailyUsage := { dateKey : Z; count : Z }.

Record SessionLimitStatus := {
  remainingConnections : Z;
  maxConnectionsPerDay : Z;
  usedToday : Z;
  resetAt : Z;
  sessionExpiresAt : option Z;
  sessionRemainingMs : option Z
}.

(** ** [MemStorage] *)

Definition getDailyUsage (t : Z) (userId : string)
    (dailyUsage : gmap string DailyUsage) : DailyUsage :=
  let todayKey := getTodayDateKey t in
  match dailyUsage !! userId with
  | Some usage =>
      if decide (dateKey usage = todayKey) then usage
      else {| dateKey := todayKey; count := 0 |}
  | None => {| dateKey := todayKey; count := 0 |}
  end.

(** [incrementDailyUsage] reads the clock twice: once for its own
    [todayKey] ([t]) and once inside [getDailyUsage] ([t']). *)
Definition incrementDailyUsage (t t' : Z) (userId : string)
    (dailyUsage : gmap string DailyUsage)
    : DailyUsage * gmap string DailyUsage :=
  let todayKey := getTodayDateKey t in
  let current := getDailyUsage t' userId dailyUsage in
  let updated := {| dateKey := todayKey; count := count current + 1 |} in
  (updated, <[userId := updated]> dailyUsage).

Definition resetDailyUsage (userId : string)
    (dailyUsage : gmap string DailyUsage) : gmap string DailyUsage :=
  delete userId dailyUsage.

(** ** Route state *)

Record VoiceSession := {
  id : string;
  channelId : string;
  userId : string;
  joinedAt : Z;
  lastActivity : Z;
  expiresAt : Z;
  expiryTimeout : option nat
}.

Record AuthSession := { token : string; createdAt : Z }.

Definition AUTH_SESSION_TTL : Z := 24 * 60 * 60 * 1000.

(** An armed [setTimeout]: the delay it was armed with and the session its
    callback deletes. *)
Record ExpiryTimer := { delay : Z; target : string }.

Record State := {
  sessions : gmap string VoiceSession;
  dailyUsage : gmap string DailyUsage;
  authSessions : gmap string AuthSession;
  timers : gmap nat ExpiryTimer;
  nextTimer : nat
}.

Definition set_sessions (f : gmap string VoiceSession -> gmap string VoiceSession)
    (st : State) : State :=
  {| sessions := f (sessions st); dailyUsage := dailyUsage st;
     authSessions := authSessions st; timers := timers st;
     nextTimer := nextTimer st |}.

Definition set_dailyUsage (m : gmap string DailyUsage) (st : State) : State :=
  {| sessions := sessions st; dailyUsage := m;
     authSessions := authSessions st; timers := timers st;
     nextTimer := nextTimer st |}.

Definition set_authSessions (m : gmap string AuthSession) (st : State) : State :=
  {| sessions := sessions st; dailyUsage := dailyUsage st;
     authSessions := m; timers := timers st; nextTimer := nextTimer st |}.

Definition setTimeout (d : Z) (sid : string) (st : State) : nat * State :=
  (nextTimer st,
   {| sessions := sessions st; dailyUsage := dailyUsage st;
      authSessions := authSessions st;
      timers := <[nextTimer st := {| delay := d; target := sid |}]> (timers st);
      nextTimer := S (nextTimer st) |}).

Definition clearTimeout (h : option nat) (st : State) : State :=
  match h with
  | Some n =>
      {| sessions := sessions st; dailyUsage := dailyUsage st;
         authSessions := authSessions st; timers := delete n (timers st);
         nextTimer := nextTimer st |}
  | None => st
  end.

(** ** Requests and responses *)

(** The body of a request after [express.json()]: a field is [None] when it
    is missing or not a string. *)
Record Body := { body_channelId : option string; body_userId : option string }.

Record Request := {
  authorization : option string;
  body : Body
}.

Record JoinData := { data_channelId : string; data_userId : string }.

(** [joinSessionSchema.parse]: both fields are strings of length at least
    one; [None] stands for the [ZodError] it throws otherwise. *)
Definition joinSessionSchema_parse (b : Body) : option JoinData :=
  match body_channelId b, body_userId b with
  | Some c, Some u =>
      if Js.truthy c && Js.truthy u
      then Some {| data_channelId := c; data_userId := u |}
      else None
  | _, _ => None
  end.

Inductive Response :=
| Created (sessionId channel user : string) (joined : Z)
          (limits : SessionLimitStatus)                       (* 201 *)
| TooManyRequests (error : string) (limits : SessionLimitStatus) (* 429 *)
| BadRequest (error : string)                                (* 400 *)
| Unauthorized (error : string)                              (* 401 *)
| NotFound (error : string)                                  (* 404 *)
| HeartbeatOk (last : Z)                                     (* 200 *)
| Ended (sessionId : string).                                (* 200 *)

(** [req.headers.authorization?.replace("Bearer ", "")] *)
Definition bearer (req : Request) : option string :=
  Js.replace_first "Bearer " "" <$> authorization req.

(** [requireAuth]: [inl] is the response it sends itself, [inr] is
    [next()]. *)
Definition requireAuth (now : Z) (req : Request) (st : State)
    : (Response + unit) * State :=
  match bearer req with
  | None => (inl (Unauthorized "Authentication required"), st)
  | Some tok =>
      if negb (Js.truthy tok)
      then (inl (Unauthorized "Authentication required"), st)
      else
        match authSessions st !! tok with
        | None => (inl (Unauthorized "Invalid or expired session"), st)
        | Some session =>
            if decide (now - createdAt session > AUTH_SESSION_TTL)
            then (inl (Unauthorized "Session expired"),
                  set_authSessions (delete tok (authSessions st)) st)
            else (inr tt, st)
        end
  end.

(** [req.headers.authorization?.replace("Bearer ", "") || "default"]: the
    key under which the session routes read and write [DailyUsage]. *)
Definition usageKey (req : Request) : string :=
  match bearer req with
  | Some tok => if Js.truthy tok then tok else "default"
  | None => "default"
  end.

(** The clock readings of one [POST /api/sessions] request, in the order the
    handler takes them. *)
Record Clock := {
  c_auth : Z;      (* requireAuth: Date.now() *)
  c_usage : Z;     (* getDailyUsage: getTodayDateKey() *)
  c_reset : Z;     (* 429 branch: getResetTime() *)
  c_now : Z;       (* const now = Date.now() *)
  c_joined : Z;    (* joinedAt: new Date() *)
  c_last : Z;      (* lastActivity: new Date() *)
  c_incKey : Z;    (* incrementDailyUsage: getTodayDateKey() *)
  c_incGet : Z;    (* getDailyUsage called by incrementDailyUsage *)
  c_reset' : Z     (* 201 branch: getResetTime() *)
}.

Section Routes.
Variable L : Limits.

(** [GET /api/sessions/limits] (handler, after [requireAuth]) *)
Definition getLimits (t tReset : Z) (req : Request) (st : State)
    : SessionLimitStatus :=
  let usage := getDailyUsage t (usageKey req) (dailyUsage st) in
  {| remainingConnections := Z.max 0 (MAX_CONNECTIONS_PER_DAY L - count usage);
     maxConnectionsPerDay := MAX_CONNECTIONS_PER_DAY L;
     usedToday := count usage;
     resetAt := getResetTime tReset;
     sessionExpiresAt := None;
     sessionRemainingMs := None |}.

(** [POST /api/sessions] (handler, after [requireAuth]); [uuid] is the
    value of [crypto.randomUUID()]. *)
Definition createSession (clk : Clock) (uuid : string) (req : Request)
    (st : State) : Response * State :=
  match joinSessionSchema_parse (body req) with
  | None => (BadRequest "Validation failed", st)
  | Some data =>
      let tok := usageKey req in
      let usage := getDailyUsage (c_usage clk) tok (dailyUsage st) in
      if decide (count usage >= MAX_CONNECTIONS_PER_DAY L) then
        let limitStatus :=
          {| remainingConnections := 0;
             maxConnectionsPerDay := MAX_CONNECTIONS_PER_DAY L;
             usedToday := count usage;
             resetAt := getResetTime (c_reset clk);
             sessionExpiresAt := None;
             sessionRemainingMs := None |} in
        (TooManyRequests "Daily connection limit reached" limitStatus, st)
      else
        let sessionId := uuid in
        let now := c_now clk in
        let expires := now + MAX_SESSION_DURATION_MS L in
        let '(h, st1) := setTimeout (MAX_SESSION_DURATION_MS L) sessionId st in
        let session :=
          {| id := sessionId;
             channelId := data_channelId data;
             userId := data_userId data;
             joinedAt := c_joined clk;
             lastActivity := c_last clk;
             expiresAt := expires;
             expiryTimeout := Some h |} in
        let st2 := set_sessions (insert sessionId session) st1 in
        let '(updatedUsage, usage') :=
          incrementDailyUsage (c_incKey clk) (c_incGet clk) tok
            (dailyUsage st2) in
        let st3 := set_dailyUsage usage' st2 in
        let limitStatus :=
          {| remainingConnections :=
               Z.max 0 (MAX_CONNECTIONS_PER_DAY L - count updatedUsage);
             maxConnectionsPerDay := MAX_CONNECTIONS_PER_DAY L;
             usedToday := count updatedUsage;
             resetAt := getResetTime (c_reset' clk);
             sessionExpiresAt := Some expires;
             sessionRemainingMs := Some (MAX_SESSION_DURATION_MS L) |} in
        (Created sessionId (channelId session) (userId session)
           (joinedAt session) limitStatus, st3)
  end.

(** The route as express runs it: [requireAuth], then the handler. *)
Definition postSessions (clk : Clock) (uuid : string) (req : Request)
    (st : State) : Response * State :=
  match requireAuth (c_auth clk) req st with
  | (inl r, st') => (r, st')
  | (inr _, st') => createSession clk uuid req st'
  end.

(** The callback armed by [createSession]. *)
Definition expiryFire (h : nat) (st : State) : State :=
  match timers st !! h with
  | Some tm =>
      clearTimeout (Some h) (set_sessions (delete (target tm)) st)
  | None => st
  end.
End Routes.

(** [POST /api/sessions/:sessionId/heartbeat] (handler); [t] is the reading
    of [new Date()]. *)
Definition heartbeat (t : Z) (sessionId : string) (st : State)
    : Response * State :=
  match sessions st !! sessionId with
  | None => (NotFound "Session not found", st)
  | Some session =>
      let session' :=
        {| id := id session;
           channelId := channelId session;
           userId := userId session;
           joinedAt := joinedAt session;
           lastActivity := t;
           expiresAt := expiresAt session;
           expiryTimeout := expiryTimeout session |} in
      (HeartbeatOk t, set_sessions (insert sessionId session') st)
  end.

(** [DELETE /api/sessions/:sessionId] (handler) *)
Definition endSession (sessionId : string) (st : State) : Response * State :=
  match sessions st !! sessionId with
  | None => (NotFound "Session not found", st)
  | Some session =>
      (Ended sessionId,
       set_sessions (delete sessionId) (clearTimeout (expiryTimeout session) st))
  end.

(** The state a successful creation leaves behind. *)
Definition created (L : Limits) (clk : Clock) (uuid : string) (data : JoinData)
    (tok : string) (st : State) : State :=
  let session :=
    {| id := uuid; channelId := data_channelId data;
       userId := data_userId data; joinedAt := c_joined clk;
       lastActivity := c_last clk;
       expiresAt := c_now clk + MAX_SESSION_DURATION_MS L;
       expiryTimeout := Some (nextTimer st) |} in
  {| sessions := <[uuid := session]> (sessions st);
     dailyUsage :=
       <[tok := {| dateKey := getTodayDateKey (c_incKey clk);
                   count := count (getDailyUsage (c_incGet clk) tok
                                     (dailyUsage st)) + 1 |}]> (dailyUsage st);
     authSessions := authSessions st;
     timers := <[nextTimer st := {| delay := MAX_SESSION_DURATION_MS L;
                                    target := uuid |}]> (timers st);
     nextTimer := S (nextTimer st) |}.

(** ** Sample inputs

    The limits the project documents (three connections a day, five minutes
    a session), a logged-in token and a well-formed request. *)
Definition documented : Limits :=
  {| MAX_CONNECTIONS_PER_DAY := 3; MAX_SESSION_DURATION_MS := 300000 |}.

Definition logged_in : State :=
  {| sessions := ∅; dailyUsage := ∅;
     authSessions := {[ "tok-1" := {| token := "tok-1"; createdAt := 0 |} ]};
     timers := ∅; nextTimer := 0 |}.

Definition request (u : string) : Request :=
  {| authorization := Some "Bearer tok-1";
     body := {| body_channelId := Some "ch1"; body_userId := Some u |} |}.

(** Every reading of the request at the same instant [t]. *)
Definition at_instant (t : Z) : Clock :=
  {| c_auth := t; c_usage := t; c_reset := t; c_now := t; c_joined := t;
     c_last := t; c_incKey := t; c_incGet := t; c_reset' := t |}.

(** The clock ticks over between [Date.now()] and the [new Date()] that
    follows it. *)
Definition ticking (t : Z) : Clock :=
  {| c_auth := t; c_usage := t; c_reset := t; c_now := t; c_joined := t + 1;
     c_last := t + 1; c_incKey := t + 1; c_incGet := t + 1;
     c_reset' := t + 1 |}.

(** ** Authentication routes *)

(** [LOGIN_EMAIL] and [LOGIN_PASSWORD] of the environment; [None] where the
    variable is not set. *)
Record LoginEnv := { LOGIN_EMAIL : option string; LOGIN_PASSWORD : option string }.

Inductive AuthResponse :=
| LoggedIn (tok : string)            (* 200 {success, token} *)
| NotConfigured                      (* 500 *)
| InvalidCredentials                 (* 401 *)
| Authenticated                      (* 200 {authenticated: true} *)
| NotAuthenticated                   (* 401 {authenticated: false} *)
| LoggedOut.                         (* 200 {success} *)

Definition configured (v : option string) : bool :=
  match v with Some s => Js.truthy s | None => false end.

(** [POST /api/auth/login]; [email] and [password] are the body's fields
    ([None] when missing or not a string), [uuid] the value of
    [crypto.randomUUID()], [now] the reading of [Date.now()]. *)
Definition login (env : LoginEnv) (now : Z) (uuid : string)
    (email password : option string) (st : State) : AuthResponse * State :=
  if negb (configured (LOGIN_EMAIL env)) || negb (configured (LOGIN_PASSWORD env))
  then (NotConfigured, st)
  else if bool_decide (email = LOGIN_EMAIL env)
          && bool_decide (password = LOGIN_PASSWORD env)
  then (LoggedIn uuid,
        set_authSessions
          (<[uuid := {| token := uuid; createdAt := now |}]> (authSessions st)) st)
  else (InvalidCredentials, st).

(** [GET /api/auth/verify] *)
Definition verify (now : Z) (req : Request) (st : State)
    : AuthResponse * State :=
  match bearer req with
  | Some tok =>
      if Js.truthy tok then
        match authSessions st !! tok with
        | Some session =>
            if decide (now - createdAt session <= AUTH_SESSION_TTL)
            then (Authenticated, st)
            else (NotAuthenticated,
                  set_authSessions (delete tok (authSessions st)) st)
        | None => (NotAuthenticated, st)
        end
      else (NotAuthenticated, st)
  | None => (NotAuthenticated, st)
  end.

(** [POST /api/auth/logout] *)
Definition logout (req : Request) (st : State) : AuthResponse * State :=
  match bearer req with
  | Some tok =>
      if Js.truthy tok
      then (LoggedOut, set_authSessions (delete tok (authSessions st)) st)
      else (LoggedOut, st)
  | None => (LoggedOut, st)
  end.

(** The hourly cleanup of [authSessions]: every entry of the snapshot whose
    age exceeds the TTL is deleted. *)
Definition authCleanup (now : Z) (st : State) : State :=
  fold_left
    (fun st (entry : string * AuthSession) =>
       if decide (now - createdAt (snd entry) > AUTH_SESSION_TTL)
       then set_authSessions (delete (fst entry) (authSessions st)) st
       else st)
    (map_to_list (authSessions st)) st.

(** ** Session sweep and listings *)

Definition STALE_MS : Z := 5 * 60 * 1000.

(** The stale-session sweep run every minute: every entry of the snapshot
    whose [lastActivity] is older than the threshold has its expiry timer
    cleared and is deleted. *)
Definition staleSweep (now : Z) (st : State) : State :=
  let staleThreshold := now - STALE_MS in
  fold_left
    (fun st (entry : string * VoiceSession) =>
       if decide (lastActivity (snd entry) < staleThreshold)
       then set_sessions (delete (fst entry))
              (clearTimeout (expiryTimeout (snd entry)) st)
       else st)
    (map_to_list (sessions st)) st.

Record SessionSummary := {
  sum_sessionId : string;
  sum_userId : string;
  sum_joinedAt : Z;
  sum_lastActivity : Z
}.

(** [GET /api/channels/:channelId/sessions] (handler): the sessions of the
    channel and their number.  The listing follows the store's own order;
    the insertion order of the JavaScript [Map] is not represented. *)
Definition channelSessions (channel : string) (st : State)
    : list SessionSummary * nat :=
  let found :=
    (fun s : VoiceSession =>
       {| sum_sessionId := id s; sum_userId := userId s;
          sum_joinedAt := joinedAt s; sum_lastActivity := lastActivity s |})
    <$> filter (fun s : VoiceSession => channelId s = channel)
          (snd <$> map_to_list (sessions st)) in
  (found, length found).

(** [GET /api/sessions/:sessionId] (handler): [None] is the 404; [now] is
    the reading of [Date.now()] for [duration]. *)
Definition sessionDetails (now : Z) (sessionId : string) (st : State)
    : option (SessionSummary * string * Z) :=
  match sessions st !! sessionId with
  | Some s =>
      Some ({| sum_sessionId := id s; sum_userId := userId s;
               sum_joinedAt := joinedAt s;
               sum_lastActivity := lastActivity s |},
            channelId s, now - joinedAt s)
  | None => None
  end.

(** [GET /api/health]: the number of active sessions. *)
Definition activeSessions (st : State) : nat := size (sessions st).

(** Requests to [POST /api/sessions] served one after the other, each with
    its own clock readings and session id. *)
Fixpoint serve (L : Limits) (reqs : list (Clock * string * Request))
    (st : State) : list Response * State :=
  match reqs with
  | [] => ([], st)
  | (clk, uuid, req) :: rest =>
      let '(r, st1) := postSessions L clk uuid req st in
      let '(rs, st2) := serve L rest st1 in
      (r :: rs, st2)
  end.

Definition is_created (r : Response) : bool :=
  match r with Created _ _ _ _ _ => true | _ => false end.

Definition is_refused (r : Response) : bool :=
  match r with TooManyRequests _ _ => true | _ => false end.

(** A request that passes [requireAuth] in [st], has a well-formed body,
    counts under [tok] and reads the date key [day] throughout. *)
Definition same_day_request (st : State) (day : Z) (tok : string)
    (x : Clock * string * Request) : Prop :=
  fst (requireAuth (c_auth (fst (fst x))) (snd x) st) = inr tt
  /\ is_Some (joinSessionSchema_parse (body (snd x)))
  /\ usageKey (snd x) = tok
  /\ getTodayDateKey (c_usage (fst (fst x))) = day
  /\ getTodayDateKey (c_incKey (fst (fst x))) = day
  /\ getTodayDateKey (c_incGet (fst (fst x))) = day.

(** Heartbeats on one session at the instants [ts], one after the other. *)
Definition heartbeats (ts : list Z) (sessionId : string) (st : State) : State :=
  fold_left (fun st t => snd (heartbeat t sessionId st)) ts st.

(** [lastActivity] is older than the sweep's threshold at [now]. *)
Definition stale (now : Z) (s : VoiceSession) : Prop :=
  lastActivity s < now - STALE_MS.

(** The request a client sends once it holds [tok]: the header is
    [`Bearer ${token}`]. *)
Definition bearing (tok : string) (b : Body) : Request :=
  {| authorization := Some ("Bearer " ++ tok); body := b |}.

End Server.

(* ===================================================================== *)
(** * Connection State Machine (the [useAgora] hook)                     *)
(* ===================================================================== *)

Module Agora.

(** ** Data *)

Inductive ConnectionStatus :=
| DISCONNECTED | CONNECTING | CONNECTED | RECONNECTING | ERROR.

Inductive LogType := info | warning | error | success.

(** A [LogEntry] without its [id] ([crypto.randomUUID()]) and [timestamp]. *)
Record LogEntry := { message : string; type : LogType }.

Inductive Uid := UidStr (s : string) | UidNum (n : Z).

(** Template-literal rendering of a participant id. *)
Definition show_uid (u : Uid) : string :=
  match u with UidStr s => s | UidNum n => pretty n end.

(** Provider objects are known by the handle the provider returned. *)
Definition Client := nat.
Definition Track := nat.

(** What a [catch] clause receives: an [Error] with its message, or a value
    that is not an [Error]. *)
Inductive Thrown := ErrorObj (msg : string) | NonError.

(** [error instanceof Error ? error.message : fallback] *)
Definition message_or (e : Thrown) (fallback : string) : string :=
  match e with ErrorObj m => m | NonError => fallback end.

(** The [TypeError] of a property access on a ref that holds [null]. *)
Definition nullDeref (prop : string) : Thrown :=
  ErrorObj ("Cannot read properties of null (reading '" ++ prop ++ "')").

(** ** The provider gateway

    The calls the hook makes on [window.AgoraRTC], on the client and on
    tracks, indexed by the type of what they return (or resolve to). *)
Inductive ProviderCall : Type -> Type :=
| createClient : ProviderCall Client
| client_join (c : Client) (appId channelId : string)
    (token : option string) (uid : option Uid) : ProviderCall Uid
| client_leave (c : Client) : ProviderCall unit
| client_publish (c : Client) (t : Track) : ProviderCall unit
| client_unpublish (c : Client) (t : Track) : ProviderCall unit
| createMicrophoneAudioTrack : ProviderCall Track
| createBufferSourceAudioTrack (file : string) : ProviderCall Track
| track_setEnabled (t : Track) (enabled : bool) : ProviderCall unit
| track_setVolume (t : Track) (v : Z) : ProviderCall unit
| track_play (t : Track) : ProviderCall unit
| track_stop (t : Track) : ProviderCall unit
| track_close (t : Track) : ProviderCall unit
| track_startProcessAudioBuffer (t : Track) : ProviderCall unit
| track_stopProcessAudioBuffer (t : Track) : ProviderCall unit.

(** The provider's answer: a value, or a throw / rejection. *)
Inductive Result (X : Type) := Resolved (x : X) | Rejected (e : Thrown).
Arguments Resolved {X} x.
Arguments Rejected {X} e.

Definition Issued : Type := { X : Type & ProviderCall X }.
Definition issue {X} (c : ProviderCall X) : Issued := existT X c.

(** The provider as the hook sees it: the answer to the [n]-th call the hook
    has issued. *)
Definition Env : Type := nat -> forall X, ProviderCall X -> Result X.

(** ** Hook state: React state and refs

    [listening] tells whether the handlers of [join] are registered on the
    client held by [clientRef] ([client.on] / [removeAllListeners]).  The
    remote-user map, the network quality and the playback position
    ([audioCurrentTime], [audioDuration], floats) are not carried: no
    handler that touches them writes [status] or a ref.  The refs
    [audioFileTrackRef], [audioTrackPublishedRef] and
    [audioTimeIntervalRef] start out as [null], [false] and [null]. *)
Record Hook := {
  status : ConnectionStatus;
  isMuted : bool;
  logs : list LogEntry;
  clientRef : option Client;
  listening : bool;
  localAudioTrackRef : option Track;
  volumeIntervalRef : bool;
  audioFileTrackRef : option Track;
  audioTrackPublishedRef : bool;
  audioTimeIntervalRef : bool;
  audioFileName : option string;
  isAudioPlaying : bool;
  isAudioPaused : bool;
  audioVolume : Z
}.

Definition initial : Hook :=
  {| status := DISCONNECTED; isMuted := true; logs := [];
     clientRef := None; listening := false; localAudioTrackRef := None;
     volumeIntervalRef := false; audioFileTrackRef := None;
     audioTrackPublishedRef := false; audioTimeIntervalRef := false;
     audioFileName := None; isAudioPlaying := false; isAudioPaused := false;
     audioVolume := 100 |}.

Definition set_status (v : ConnectionStatus) (h : Hook) : Hook :=
  {| status := v; isMuted := isMuted h; logs := logs h;
     clientRef := clientRef h; listening := listening h;
     localAudioTrackRef := localAudioTrackRef h;
     volumeIntervalRef := volumeIntervalRef h;
     audioFileTrackRef := audioFileTrackRef h;
     audioTrackPublishedRef := audioTrackPublishedRef h;
     audioTimeIntervalRef := audioTimeIntervalRef h;
     audioFileName := audioFileName h; isAudioPlaying := isAudioPlaying h;
     isAudioPaused := isAudioPaused h; audioVolume := audioVolume h |}.

Definition set_isMuted (v : bool) (h : Hook) : Hook :=
  {| status := status h; isMuted := v; logs := logs h;
     clientRef := clientRef h; listening := listening h;
     localAudioTrackRef := localAudioTrackRef h;
     volumeIntervalRef := volumeIntervalRef h;
     audioFileTrackRef := audioFileTrackRef h;
     audioTrackPublishedRef := audioTrackPublishedRef h;
     audioTimeIntervalRef := audioTimeIntervalRef h;
     audioFileName := audioFileName h; isAudioPlaying := isAudioPlaying h;
     isAudioPaused := isAudioPaused h; audioVolume := audioVolume h |}.

Definition set_logs (v : list LogEntry) (h : Hook) : Hook :=
  {| status := status h; isMuted := isMuted h; logs := v;
     clientRef := clientRef h; listening := listening h;
     localAudioTrackRef := localAudioTrackRef h;
     volumeIntervalRef := volumeIntervalRef h;
     audioFileTrackRef := audioFileTrackRef h;
     audioTrackPublishedRef := audioTrackPublishedRef h;
     audioTimeIntervalRef := audioTimeIntervalRef h;
     audioFileName := audioFileName h; isAudioPlaying := isAudioPlaying h;
     isAudioPaused := isAudioPaused h; audioVolume := audioVolume h |}.

Definition set_clientRef (v : option Client) (h : Hook) : Hook :=
  {| status := status h; isMuted := isMuted h; logs := logs h;
     clientRef := v; listening := listening h;
     localAudioTrackRef := localAudioTrackRef h;
     volumeIntervalRef := volumeIntervalRef h;
     audioFileTrackRef := audioFileTrackRef h;
     audioTrackPublishedRef := audioTrackPublishedRef h;
     audioTimeIntervalRef := audioTimeIntervalRef h;
     audioFileName := audioFileName h; isAudioPlaying := isAudioPlaying h;
     isAudioPaused := isAudioPaused h; audioVolume := audioVolume h |}.

Definition set_listening (v : bool) (h : Hook) : Hook :=
  {| status := status h; isMuted := isMuted h; logs := logs h;
     clientRef := clientRef h; listening := v;
     localAudioTrackRef := localAudioTrackRef h;
     volumeIntervalRef := volumeIntervalRef h;
     audioFileTrackRef := audioFileTrackRef h;
     audioTrackPublishedRef := audioTrackPublishedRef h;
     audioTimeIntervalRef := audioTimeIntervalRef h;
     audioFileName := audioFileName h; isAudioPlaying := isAudioPlaying h;
     isAudioPaused := isAudioPaused h; audioVolume := audioVolume h |}.

Definition set_localAudioTrackRef (v : option Track) (h : Hook) : Hook :=
  {| status := status h; isMuted := isMuted h; logs := logs h;
     clientRef := clientRef h; listening := listening h;
     localAudioTrackRef := v;
     volumeIntervalRef := volumeIntervalRef h;
     audioFileTrackRef := audioFileTrackRef h;
     audioTrackPublishedRef := audioTrackPublishedRef h;
     audioTimeIntervalRef := audioTimeIntervalRef h;
     audioFileName := audioFileName h; isAudioPlaying := isAudioPlaying h;
     isAudioPaused := isAudioPaused h; audioVolume := audioVolume h |}.

Definition set_volumeIntervalRef (v : bool) (h : Hook) : Hook :=
  {| status := status h; isMuted := isMuted h; logs := logs h;
     clientRef := clientRef h; listening := listening h;
     localAudioTrackRef := localAudioTrackRef h;
     volumeIntervalRef := v;
     audioFileTrackRef := audioFileTrackRef h;
     audioTrackPublishedRef := audioTrackPublishedRef h;
     audioTimeIntervalRef := audioTimeIntervalRef h;
     audioFileName := audioFileName h; isAudioPlaying := isAudioPlaying h;
     isAudioPaused := isAudioPaused h; audioVolume := audioVolume h |}.

Definition set_audioFileTrackRef (v : option Track) (h : Hook) : Hook :=
  {| status := status h; isMuted := isMuted h; logs := logs h;
     clientRef := clientRef h; listening := listening h;
     localAudioTrackRef := localAudioTrackRef h;
     volumeIntervalRef := volumeIntervalRef h;
     audioFileTrackRef := v;
     audioTrackPublishedRef := audioTrackPublishedRef h;
     audioTimeIntervalRef := audioTimeIntervalRef h;
     audioFileName := audioFileName h; isAudioPlaying := isAudioPlaying h;
     isAudioPaused := isAudioPaused h; audioVolume := audioVolume h |}.

Definition set_audioTrackPublishedRef (v : bool) (h : Hook) : Hook :=
  {| status := status h; isMuted := isMuted h; logs := logs h;
     clientRef := clientRef h; listening := listening h;
     localAudioTrackRef := localAudioTrackRef h;
     volumeIntervalRef := volumeIntervalRef h;
     audioFileTrackRef := audioFileTrackRef h;
     audioTrackPublishedRef := v;
     audioTimeIntervalRef := audioTimeIntervalRef h;
     audioFileName := audioFileName h; isAudioPlaying := isAudioPlaying h;
     isAudioPaused := isAudioPaused h; audioVolume := audioVolume h |}.

Definition set_audioTimeIntervalRef (v : bool) (h : Hook) : Hook :=
  {| status := status h; isMuted := isMuted h; logs := logs h;
     clientRef := clientRef h; listening := listening h;
     localAudioTrackRef := localAudioTrackRef h;
     volumeIntervalRef := volumeIntervalRef h;
     audioFileTrackRef := audioFileTrackRef h;
     audioTrackPublishedRef := audioTrackPublishedRef h;
     audioTimeIntervalRef := v;
     audioFileName := audioFileName h; isAudioPlaying := isAudioPlaying h;
     isAudioPaused := isAudioPaused h; audioVolume := audioVolume h |}.

Definition set_audioFileName (v : option string) (h : Hook) : Hook :=
  {| status := status h; isMuted := isMuted h; logs := logs h;
     clientRef := clientRef h; listening := listening h;
     localAudioTrackRef := localAudioTrackRef h;
     volumeIntervalRef := volumeIntervalRef h;
     audioFileTrackRef := audioFileTrackRef h;
     audioTrackPublishedRef := audioTrackPublishedRef h;
     audioTimeIntervalRef := audioTimeIntervalRef h;
     audioFileName := v; isAudioPlaying := isAudioPlaying h;
     isAudioPaused := isAudioPaused h; audioVolume := audioVolume h |}.

Definition set_isAudioPlaying (v : bool) (h : Hook) : Hook :=
  {| status := status h; isMuted := isMuted h; logs := logs h;
     clientRef := clientRef h; listening := listening h;
     localAudioTrackRef := localAudioTrackRef h;
     volumeIntervalRef := volumeIntervalRef h;
     audioFileTrackRef := audioFileTrackRef h;
     audioTrackPublishedRef := audioTrackPublishedRef h;
     audioTimeIntervalRef := audioTimeIntervalRef h;
     audioFileName := audioFileName h; isAudioPlaying := v;
     isAudioPaused := isAudioPaused h; audioVolume := audioVolume h |}.

Definition set_isAudioPaused (v : bool) (h : Hook) : Hook :=
  {| status := status h; isMuted := isMuted h; logs := logs h;
     clientRef := clientRef h; listening := listening h;
     localAudioTrackRef := localAudioTrackRef h;
     volumeIntervalRef := volumeIntervalRef h;
     audioFileTrackRef := audioFileTrackRef h;
     audioTrackPublishedRef := audioTrackPublishedRef h;
     audioTimeIntervalRef := audioTimeIntervalRef h;
     audioFileName := audioFileName h; isAudioPlaying := isAudioPlaying h;
     isAudioPaused := v; audioVolume := audioVolume h |}.

(** [setLogs((prev) => [...prev.slice(-99), entry])] *)
Definition push_log (m : string) (k : LogType) (h : Hook) : Hook :=
  set_logs (drop (length (logs h) - 99) (logs h)
            ++ [{| message := m; type := k |}]) h.

(** ** Asynchronous code

    The body of a hook function is a tree of its synchronous steps, its
    provider calls and its suspension points.  [Call] is a call whose result
    is used at once; [Await] is an awaited promise: the function is suspended
    there and other handlers may run before it is resumed with the
    provider's answer. *)
Inductive Prog (A : Type) : Type :=
| Ret (a : A)
| Throw (e : Thrown)
| Read (k : Hook -> Prog A)
| Write (f : Hook -> Hook) (k : Prog A)
| Call {X : Type} (c : ProviderCall X) (k : Result X -> Prog A)
| Await {X : Type} (c : ProviderCall X) (k : Result X -> Prog A).
Arguments Ret {A} a.
Arguments Throw {A} e.
Arguments Read {A} k.
Arguments Write {A} f k.
Arguments Call {A X} c k.
Arguments Await {A X} c k.

Fixpoint bind {A B : Type} (p : Prog A) (f : A -> Prog B) : Prog B :=
  match p with
  | Ret a => f a
  | Throw e => Throw e
  | Read k => Read (fun h => bind (k h) f)
  | Write g k => Write g (bind k f)
  | Call c k => Call c (fun r => bind (k r) f)
  | Await c k => Await c (fun r => bind (k r) f)
  end.

#[export] Instance prog_ret : MRet Prog := @Ret.
#[export] Instance prog_bind : MBind Prog := fun A B f p => bind p f.

(** [try { p } catch (e) { handler e }]: the handler also covers what [p]
    does after each of its suspension points. *)
Fixpoint try_catch {A : Type} (p : Prog A) (handler : Thrown -> Prog A)
    : Prog A :=
  match p with
  | Ret a => Ret a
  | Throw e => handler e
  | Read k => Read (fun h => try_catch (k h) handler)
  | Write g k => Write g (try_catch k handler)
  | Call c k => Call c (fun r => try_catch (k r) handler)
  | Await c k => Await c (fun r => try_catch (k r) handler)
  end.

Definition settle {X : Type} (r : Result X) : Prog X :=
  match r with Resolved x => Ret x | Rejected e => Throw e end.

Definition call {X : Type} (c : ProviderCall X) : Prog X := Call c settle.
Definition await {X : Type} (c : ProviderCall X) : Prog X := Await c settle.
Definition get {A : Type} (field : Hook -> A) : Prog A :=
  Read (fun h => Ret (field h)).
Definition put (f : Hook -> Hook) : Prog unit := Write f (Ret tt).

(** [ref.current.prop]: a [TypeError] when the ref holds [null]. *)
Definition deref {A : Type} (ref : Hook -> option A) (prop : string) : Prog A :=
  Read (fun h =>
    match ref h with Some x => Ret x | None => Throw (nullDeref prop) end).

Definition when (b : bool) (p : Prog unit) : Prog unit :=
  if b then p else Ret tt.

Definition setStatus (s : ConnectionStatus) : Prog unit := put (set_status s).
Definition addLog (m : string) (k : LogType) : Prog unit := put (push_log m k).

(** ** [join] *)

(** The [try] block of [join]. *)
Definition join_attempt (appId channelId : string)
    (token : option string) (uid : option Uid) : Prog Uid :=
  setStatus CONNECTING ;;
  addLog ("Joining channel: " ++ channelId) info ;;
  existing ← get clientRef ;
  when (bool_decide (existing = None))
    (c ← call createClient ;
     put (set_clientRef (Some c)) ;;
     put (set_listening true)) ;;
  c ← deref clientRef "join" ;
  assignedUid ← await (client_join c appId channelId token uid) ;
  addLog ("Joined as user: " ++ show_uid assignedUid) success ;;
  track ← await createMicrophoneAudioTrack ;
  put (set_localAudioTrackRef (Some track)) ;;
  t ← deref localAudioTrackRef "setEnabled" ;
  call (track_setEnabled t false) ;;
  c' ← deref clientRef "publish" ;
  await (client_publish c' t) ;;
  addLog "Published local audio track (muted)" success ;;
  put (set_volumeIntervalRef true) ;;
  mret assignedUid.

(** [sdk] tells whether [window.AgoraRTC] is defined when [join] is
    called. *)
Definition join (sdk : bool) (appId channelId : string)
    (token : option string) (uid : option Uid) : Prog Uid :=
  if negb sdk then Throw (ErrorObj "Agora SDK not loaded")
  else
    try_catch (join_attempt appId channelId token uid)
      (fun e =>
         addLog (message_or e "Failed to join channel") error ;;
         setStatus ERROR ;;
         Throw e).

(** ** [leave] *)

(** The [try] block of [leave] in two parts: the teardown of timers, tracks
    and client, and the reset of the React state that follows it. *)
Definition leave_teardown : Prog unit :=
  addLog "Leaving channel..." info ;;
  put (set_volumeIntervalRef false) ;;
  put (set_audioTimeIntervalRef false) ;;
  file ← get audioFileTrackRef ;
  match file with
  | Some t =>
      call (track_stopProcessAudioBuffer t) ;;
      c ← get clientRef ;
      published ← get audioTrackPublishedRef ;
      match c with
      | Some c =>
          when published
            (try_catch (await (client_unpublish c t)) (fun _ => Ret tt))
      | None => Ret tt
      end ;;
      put (set_audioTrackPublishedRef false) ;;
      t' ← deref audioFileTrackRef "close" ;
      call (track_close t') ;;
      put (set_audioFileTrackRef None)
  | None => Ret tt
  end ;;
  mic ← get localAudioTrackRef ;
  match mic with
  | Some t =>
      call (track_stop t) ;;
      call (track_close t) ;;
      put (set_localAudioTrackRef None)
  | None => Ret tt
  end ;;
  c ← get clientRef ;
  match c with
  | Some c =>
      await (client_leave c) ;;
      _ ← deref clientRef "removeAllListeners" ;
      put (set_listening false) ;;
      put (set_clientRef None)
  | None => Ret tt
  end.

Definition leave_reset : Prog unit :=
  setStatus DISCONNECTED ;;
  put (set_isMuted false) ;;
  put (set_audioFileName None) ;;
  put (set_isAudioPlaying false) ;;
  put (set_isAudioPaused false) ;;
  addLog "Left channel successfully" success.

Definition leave : Prog unit :=
  try_catch (leave_teardown ;; leave_reset)
    (fun e => addLog (message_or e "Failed to leave channel") error).

(** ** File-sourced playback *)

Definition loadAudioFile (sdk : bool) (file : string) : Prog unit :=
  if negb sdk then addLog "Agora SDK not loaded" error
  else
    try_catch
      (previous ← get audioFileTrackRef ;
       match previous with
       | Some t =>
           call (track_stopProcessAudioBuffer t) ;;
           call (track_close t) ;;
           put (set_audioFileTrackRef None) ;;
           put (set_audioTrackPublishedRef false)
       | None => Ret tt
       end ;;
       addLog ("Loading audio file: " ++ file) info ;;
       track ← await (createBufferSourceAudioTrack file) ;
       put (set_audioFileTrackRef (Some track)) ;;
       put (set_audioFileName (Some file)) ;;
       put (set_isAudioPlaying false) ;;
       put (set_isAudioPaused false) ;;
       v ← get audioVolume ;
       call (track_setVolume track v) ;;
       (* the logged text also carries the rounded duration, a float *)
       addLog ("Audio file loaded: " ++ file) success)
      (fun e => addLog (message_or e "Failed to load audio file") error).

(** [startAudioTimeTracking]: (re)arm the 100 ms polling interval. *)
Definition startAudioTimeTracking : Prog unit :=
  put (set_audioTimeIntervalRef true).

Definition playAudio : Prog unit :=
  file ← get audioFileTrackRef ;
  client ← get clientRef ;
  match file, client with
  | Some t, Some c =>
      try_catch
        (addLog "Starting audio playback..." info ;;
         published ← get audioTrackPublishedRef ;
         when (negb published)
           (await (client_publish c t) ;;
            put (set_audioTrackPublishedRef true)) ;;
         t' ← deref audioFileTrackRef "startProcessAudioBuffer" ;
         call (track_startProcessAudioBuffer t') ;;
         call (track_play t') ;;
         put (set_isAudioPlaying true) ;;
         put (set_isAudioPaused false) ;;
         startAudioTimeTracking ;;
         addLog "Audio playback started" success)
        (fun e => addLog (message_or e "Failed to play audio") error)
  | _, _ => addLog "No audio file loaded or not connected" error
  end.

Definition stopAudio : Prog unit :=
  file ← get audioFileTrackRef ;
  match file with
  | Some t =>
      try_catch
        (call (track_stopProcessAudioBuffer t) ;;
         client ← get clientRef ;
         published ← get audioTrackPublishedRef ;
         match client with
         | Some c =>
             when published
               (await (client_unpublish c t) ;;
                put (set_audioTrackPublishedRef false))
         | None => Ret tt
         end ;;
         put (set_audioTimeIntervalRef false) ;;
         put (set_isAudioPlaying false) ;;
         put (set_isAudioPaused false) ;;
         addLog "Audio stopped" info)
        (fun e => addLog (message_or e "Failed to stop audio") error)
  | None => Ret tt
  end.

(** One firing of the polling interval; [ended] is the outcome of
    [currentTime >= audioDuration && audioDuration > 0]. *)
Definition audioTimeTick (ended : bool) : Prog unit :=
  file ← get audioFileTrackRef ;
  match file with
  | Some t =>
      when ended
        (put (set_audioTimeIntervalRef false) ;;
         call (track_stopProcessAudioBuffer t) ;;
         client ← get clientRef ;
         published ← get audioTrackPublishedRef ;
         match client with
         | Some c =>
             when published
               (try_catch
                  (await (client_unpublish c t) ;;
                   put (set_audioTrackPublishedRef false))
                  (fun _ => Ret tt))
         | None => Ret tt
         end ;;
         put (set_isAudioPlaying false) ;;
         put (set_isAudioPaused false))
  | None => Ret tt
  end.

(** ** Provider events

    The handlers registered by [join] that write [status] or the log (the
    arrow of the logged transition is written [->]). *)
Inductive ProviderEvent :=
| connection_state_change (curState prevState : string) (reason : option string)
| token_privilege_will_expire
| token_privilege_did_expire
| user_joined (uid : Uid)
| exception (code : Z) (msg : string).

Definition handle (e : ProviderEvent) : Prog unit :=
  match e with
  | connection_state_change curState prevState reason =>
      addLog ("Connection state: " ++ prevState ++ " -> " ++ curState
              ++ match reason with
                 | Some r => if Js.truthy r then " (reason: " ++ r ++ ")" else ""
                 | None => ""
                 end) info ;;
      if String.eqb curState "CONNECTED" then setStatus CONNECTED
      else if String.eqb curState "CONNECTING" then setStatus CONNECTING
      else if String.eqb curState "RECONNECTING" then setStatus RECONNECTING
      else if String.eqb curState "DISCONNECTED" then
        setStatus DISCONNECTED ;;
        match reason with
        | Some r =>
            when (Js.truthy r && negb (String.eqb r "LEAVE"))
              (addLog ("Disconnected: " ++ r) error)
        | None => Ret tt
        end
      else Ret tt
  | token_privilege_will_expire => addLog "Token will expire soon" warning
  | token_privilege_did_expire =>
      addLog "Token expired - please reconnect with a new token" error ;;
      setStatus ERROR
  | user_joined uid =>
      addLog ("User " ++ show_uid uid ++ " joined the channel") info
  | exception code msg =>
      addLog ("Exception: " ++ msg ++ " (" ++ pretty code ++ ")") error
  end.

(** ** Running the code *)

(** The hook together with the record of the provider calls it has issued,
    most recent first. *)
Record World := { hook : Hook; issued : list Issued }.

Definition wrote (f : Hook -> Hook) (w : World) : World :=
  {| hook := f (hook w); issued := issued w |}.

Definition called {X : Type} (c : ProviderCall X) (w : World) : World :=
  {| hook := hook w; issued := issue c :: issued w |}.

(** A function run to its end with nothing else running at its suspension
    points; the provider answers the [n]-th call with [env n]. *)
Fixpoint exec {A : Type} (env : Env) (p : Prog A) (w : World)
    : World * (A + Thrown) :=
  match p with
  | Ret a => (w, inl a)
  | Throw e => (w, inr e)
  | Read k => exec env (k (hook w)) w
  | Write f k => exec env k (wrote f w)
  | Call c k => exec env (k (env (length (issued w)) _ c)) (called c w)
  | Await c k => exec env (k (env (length (issued w)) _ c)) (called c w)
  end.

(** ** Interleaved execution

    On the event loop a function runs up to its next [await]; what remains
    of it waits among the pending tasks until the awaited promise settles,
    and calls of other functions and provider events run in between. *)
Inductive Paused (A : Type) : Type :=
| Finished (r : A + Thrown)
| Suspended {X : Type} (c : ProviderCall X) (k : Result X -> Prog A).
Arguments Finished {A} r.
Arguments Suspended {A X} c k.

Fixpoint run_segment {A : Type} (env : Env) (p : Prog A) (w : World)
    : World * Paused A :=
  match p with
  | Ret a => (w, Finished (inl a))
  | Throw e => (w, Finished (inr e))
  | Read k => run_segment env (k (hook w)) w
  | Write f k => run_segment env k (wrote f w)
  | Call c k => run_segment env (k (env (length (issued w)) _ c)) (called c w)
  | Await c k => (called c w, Suspended c k)
  end.

Record Task := {
  awaited_type : Type;
  awaited : ProviderCall awaited_type;
  resume_with : Result awaited_type -> Prog unit
}.

(** [reported] lists the [curState] of every connection-state event the
    handler has received, most recent first. *)
Record Machine := {
  world : World;
  tasks : list Task;
  reported : list string
}.

Definition boot : Machine :=
  {| world := {| hook := initial; issued := [] |}; tasks := []; reported := [] |}.

(** What can happen in one turn of the event loop.  [toggleMute], the volume
    setters, [pauseAudio], [resumeAudio] and [seekAudio] are left out: they
    write neither [status] nor a ref and publish nothing. *)
Inductive Action :=
| do_join (sdk : bool) (appId channelId : string)
    (token : option string) (uid : option Uid)
| do_leave
| do_loadAudioFile (sdk : bool) (file : string)
| do_playAudio
| do_stopAudio
| do_audioTimeTick (ended : bool)
| resume (i : nat) (answer : forall X, ProviderCall X -> Result X)
| event (e : ProviderEvent).

Definition void {A : Type} (p : Prog A) : Prog unit := bind p (fun _ => Ret tt).

Definition start (env : Env) (p : Prog unit) (m : Machine) : Machine :=
  match run_segment env p (world m) with
  | (w, Finished _) =>
      {| world := w; tasks := tasks m; reported := reported m |}
  | (w, Suspended c k) =>
      {| world := w;
         tasks := tasks m ++ [{| awaited := c; resume_with := k |}];
         reported := reported m |}
  end.

Definition note_event (e : ProviderEvent) (m : Machine) : Machine :=
  match e with
  | connection_state_change curState _ _ =>
      {| world := world m; tasks := tasks m;
         reported := curState :: reported m |}
  | _ => m
  end.

Definition step (env : Env) (a : Action) (m : Machine) : Machine :=
  match a with
  | do_join sdk appId channelId token uid =>
      start env (void (join sdk appId channelId token uid)) m
  | do_leave => start env leave m
  | do_loadAudioFile sdk file => start env (loadAudioFile sdk file) m
  | do_playAudio => start env playAudio m
  | do_stopAudio => start env stopAudio m
  | do_audioTimeTick ended => start env (audioTimeTick ended) m
  | resume i answer =>
      match tasks m !! i with
      | Some t =>
          start env (resume_with t (answer _ (awaited t)))
            {| world := world m; tasks := delete i (tasks m);
               reported := reported m |}
      | None => m
      end
  | event e =>
      if listening (hook (world m))
      then start env (handle e) (note_event e m)
      else m
  end.

Definition run (trace : list (Env * Action)) (m : Machine) : Machine :=
  fold_left (fun m ea => step (fst ea) (snd ea) m) trace m.

(** The connection states the handler maps to a status; any other
    ([DISCONNECTING]) falls through its [switch]. *)
Definition mapped (curState : string) : bool :=
  String.eqb curState "CONNECTED" || String.eqb curState "CONNECTING"
  || String.eqb curState "RECONNECTING" || String.eqb curState "DISCONNECTED".

(** The most recent reported state among those the handler maps. *)
Fixpoint last_mapped (l : list string) : option string :=
  match l with
  | [] => None
  | s :: l' => if mapped s then Some s else last_mapped l'
  end.

(** ** What the provider has been asked to publish

    The tracks published and not unpublished since, according to the calls
    issued ([l] is most recent first); leaving the channel unpublishes
    everything. *)
Definition publish_effect (i : Issued) (acc : list (Client * Track))
    : list (Client * Track) :=
  match projT2 i with
  | client_publish c t => (c, t) :: acc
  | client_unpublish c t =>
      filter (fun p => p <> (c, t)) acc
  | client_leave c => filter (fun p => fst p <> c) acc
  | _ => acc
  end.

Definition published (l : list Issued) : list (Client * Track) :=
  foldr publish_effect [] l.

(** The tracks created from files, by the calls issued (the handles the
    provider [env] returned for them). *)
Fixpoint file_tracks (env : Env) (l : list Issued) : list Track :=
  match l with
  | [] => []
  | i :: l' =>
      match projT2 i in ProviderCall X return Result X -> list Track with
      | createBufferSourceAudioTrack _ =>
          fun r => match r with
                   | Resolved t => t :: file_tracks env l'
                   | Rejected _ => file_tracks env l'
                   end
      | _ => fun _ => file_tracks env l'
      end (env (length l') _ (projT2 i))
  end.

Definition is_unpublish (i : Issued) : bool :=
  match projT2 i with client_unpublish _ _ => true | _ => false end.

(** The file-sourced tracks among the published ones. *)
Definition published_file_tracks (env : Env) (l : list Issued)
    : list (Client * Track) :=
  filter (fun p => snd p ∈ file_tracks env l) (published l).

(** ** Properties of programs *)

(** [Every P Q p]: every state write of [p] satisfies [P] and every provider
    call of [p] satisfies [Q], whatever the provider answers. *)
Inductive Every (P : (Hook -> Hook) -> Prop) (Q : Issued -> Prop) {A : Type}
    : Prog A -> Prop :=
| every_ret (a : A) : Every P Q (Ret a)
| every_throw (e : Thrown) : Every P Q (Throw e)
| every_read (k : Hook -> Prog A) :
    (forall h, Every P Q (k h)) -> Every P Q (Read k)
| every_write (f : Hook -> Hook) (k : Prog A) :
    P f -> Every P Q k -> Every P Q (Write f k)
| every_call {X : Type} (c : ProviderCall X) (k : Result X -> Prog A) :
    Q (issue c) -> (forall r, Every P Q (k r)) -> Every P Q (Call c k)
| every_await {X : Type} (c : ProviderCall X) (k : Result X -> Prog A) :
    Q (issue c) -> (forall r, Every P Q (k r)) -> Every P Q (Await c k).

(** A write that does not make the status [connected]. *)
Definition no_connect (f : Hook -> Hook) : Prop :=
  forall h, status (f h) = CONNECTED -> status h = CONNECTED.

(** A write that leaves the status alone. *)
Definition keeps_status (f : Hook -> Hook) : Prop :=
  forall h, status (f h) = status h.

Definition any_call (i : Issued) : Prop := True.

Definition any_write (f : Hook -> Hook) : Prop := True.

Definition not_unpublish (i : Issued) : Prop := is_unpublish i = false.

(** What the provider answered to the calls [new], issued after [base]
    earlier ones ([new] is most recent first): [None] where the call
    succeeded, the thrown value where it did not. *)
Definition rejection (env : Env) (n : nat) (i : Issued) : option Thrown :=
  match env n _ (projT2 i) with
  | Resolved _ => None
  | Rejected e => Some e
  end.

Fixpoint answers (env : Env) (base : nat) (new : list Issued)
    : list (option Thrown) :=
  match new with
  | [] => []
  | i :: new' => rejection env (length new' + base) i :: answers env base new'
  end.

(** A provider whose calls all succeed, except perhaps [unpublish]. *)
Definition tolerable (env : Env) : Prop :=
  forall n X (c : ProviderCall X),
    (exists x, env n X c = Resolved x) \/ is_unpublish (issue c) = true.

(** The trace never finds [window.AgoraRTC] defined. *)
Definition sdk_absent (a : Action) : Prop :=
  match a with
  | do_join sdk _ _ _ _ => sdk = false
  | do_loadAudioFile sdk _ => sdk = false
  | _ => True
  end.

(** The invariant of the event loop: the status is [connected] only if the
    most recent mapped state the handler received is [CONNECTED], and no
    pending task will set it. *)
Definition settled (m : Machine) : Prop :=
  (status (hook (world m)) = CONNECTED ->
   last_mapped (reported m) = Some "CONNECTED")
  /\ Forall (fun t => forall r, Every no_connect any_call (resume_with t r))
       (tasks m).

(** The hook before anything was ever created: no client, no tracks, no
    pending task, status [disconnected]. *)
Definition idle (m : Machine) : Prop :=
  status (hook (world m)) = DISCONNECTED
  /\ clientRef (hook (world m)) = None
  /\ listening (hook (world m)) = false
  /\ localAudioTrackRef (hook (world m)) = None
  /\ audioFileTrackRef (hook (world m)) = None
  /\ tasks m = [].

(** ** Sample inputs *)

(** A provider that answers every call: the [n]-th call gets handle [n],
    and [join] the requested id (or 7). *)
Definition cooperative : Env :=
  fun n X c =>
    match c in ProviderCall X return Result X with
    | createClient => Resolved n
    | client_join _ _ _ _ uid => Resolved (default (UidNum 7) uid)
    | client_leave _ => Resolved tt
    | client_publish _ _ => Resolved tt
    | client_unpublish _ _ => Resolved tt
    | createMicrophoneAudioTrack => Resolved n
    | createBufferSourceAudioTrack _ => Resolved n
    | track_setEnabled _ _ => Resolved tt
    | track_setVolume _ _ => Resolved tt
    | track_play _ => Resolved tt
    | track_stop _ => Resolved tt
    | track_close _ => Resolved tt
    | track_startProcessAudioBuffer _ => Resolved tt
    | track_stopProcessAudioBuffer _ => Resolved tt
    end.

(** The same answers for a resumed task (the handle is then 0). *)
Definition cooperative_answer : forall X, ProviderCall X -> Result X :=
  cooperative 0%nat.

(** A provider all of whose calls fail. *)
Definition failing : Env :=
  fun n X c => Rejected (ErrorObj "network error").

(** The hook connected to a channel: [join] run to its end, then the
    provider's [CONNECTED] event. *)
Definition connected_world : World :=
  let w := fst (exec cooperative (join true "app" "ch1" None None)
                  {| hook := initial; issued := [] |}) in
  fst (exec cooperative
         (handle (connection_state_change "CONNECTED" "CONNECTING" None)) w).

(** [join] is called and the provider connects while [client.join] is
    awaited; [join] runs to its end; [leave] is called and, while it awaits
    [client.leave], the provider reports that it is disconnecting. *)
Definition disconnecting_trace : list (Env * Action) :=
  [ (cooperative, do_join true "app" "ch1" None None);
    (cooperative, event (connection_state_change "CONNECTING" "DISCONNECTED" None));
    (cooperative, event (connection_state_change "CONNECTED" "CONNECTING" None));
    (cooperative, resume 0 cooperative_answer);
    (cooperative, resume 0 cooperative_answer);
    (cooperative, resume 0 cooperative_answer);
    (cooperative, do_leave);
    (cooperative, event (connection_state_change "DISCONNECTING" "CONNECTED"
                           (Some "LEAVE"))) ].

(** A file loaded and played on a joined client. *)
Definition first_file_world : World :=
  let w1 := fst (exec cooperative (loadAudioFile true "a.mp3") connected_world) in
  fst (exec cooperative playAudio w1).

(** A second file loaded and played while the first is published. *)
Definition two_files_world : World :=
  let w3 := fst (exec cooperative (loadAudioFile true "b.mp3") first_file_world) in
  fst (exec cooperative playAudio w3).

End Agora.

(* ===================================================================== *)
(** * Heartbeat and Expiry Coordinator (the [VoiceBot] page)             *)
(* ===================================================================== *)

Module Page.

(** A call of [handleLeave] suspended at one of its two [await]s. *)
Inductive Pending :=
| AwaitDelete (sid : string)      (* await apiRequest("DELETE", ...) *)
| AwaitLeave.                     (* await leave() *)

(** React state and refs of the page, the dependencies with which its two
    timing effects last ran, and a record of what the page has done:
    [notices] counts the "Session Expired" toasts, [leaveCalls] the calls of
    the hook's [leave()], [deleteRequests] the session-end requests sent.
    [handleLeave] is memoised on [leave, toast, sessionId, addLog], of which
    only [sessionId] ever changes: the identity of [handleLeave] in a render
    is given by the [sessionId] of that render. *)
Record Page := {
  sessionId : option string;
  timeRemaining : option Z;
  isConnected : bool;
  heartbeatRef : bool;
  countdownRef : bool;
  countdownDeps : option (bool * bool);
  expiryDeps : option (option Z * bool * option string);
  pending : list Pending;
  notices : nat;
  leaveCalls : nat;
  deleteRequests : list string
}.

Definition mounted : Page :=
  {| sessionId := None; timeRemaining := None; isConnected := false;
     heartbeatRef := false; countdownRef := false;
     countdownDeps := None; expiryDeps := None; pending := [];
     notices := 0; leaveCalls := 0; deleteRequests := [] |}.

(** [handleLeave], up to its first [await]; [captured] is the [sessionId] of
    the render that created the callback. *)
Definition handleLeave (captured : option string) (p : Page) : Page :=
  match captured with
  | Some s =>
      if Js.truthy s then
        {| sessionId := None; timeRemaining := timeRemaining p;
           isConnected := isConnected p;
           heartbeatRef := false; countdownRef := false;
           countdownDeps := countdownDeps p; expiryDeps := expiryDeps p;
           pending := pending p ++ [AwaitDelete s];
           notices := notices p; leaveCalls := leaveCalls p;
           deleteRequests := s :: deleteRequests p |}
      else
        {| sessionId := sessionId p; timeRemaining := timeRemaining p;
           isConnected := isConnected p;
           heartbeatRef := false; countdownRef := false;
           countdownDeps := countdownDeps p; expiryDeps := expiryDeps p;
           pending := pending p ++ [AwaitLeave];
           notices := notices p; leaveCalls := S (leaveCalls p);
           deleteRequests := deleteRequests p |}
  | None =>
      {| sessionId := sessionId p; timeRemaining := timeRemaining p;
         isConnected := isConnected p;
         heartbeatRef := false; countdownRef := false;
         countdownDeps := countdownDeps p; expiryDeps := expiryDeps p;
         pending := pending p ++ [AwaitLeave];
         notices := notices p; leaveCalls := S (leaveCalls p);
         deleteRequests := deleteRequests p |}
  end.

(** The rest of a suspended [handleLeave] once the awaited promise has
    settled (the [DELETE] request is inside a [try]: the function goes on
    whether it resolved or not). *)
Definition resumeLeave (k : Pending) (p : Page) : Page :=
  match k with
  | AwaitDelete _ =>
      {| sessionId := sessionId p; timeRemaining := timeRemaining p;
         isConnected := isConnected p;
         heartbeatRef := heartbeatRef p; countdownRef := countdownRef p;
         countdownDeps := countdownDeps p; expiryDeps := expiryDeps p;
         pending := pending p ++ [AwaitLeave];
         notices := notices p; leaveCalls := S (leaveCalls p);
         deleteRequests := deleteRequests p |}
  | AwaitLeave =>
      {| sessionId := sessionId p; timeRemaining := None;
         isConnected := isConnected p;
         heartbeatRef := heartbeatRef p; countdownRef := countdownRef p;
         countdownDeps := countdownDeps p; expiryDeps := expiryDeps p;
         pending := pending p;
         notices := notices p; leaveCalls := leaveCalls p;
         deleteRequests := deleteRequests p |}
  end.

(** The countdown effect, dependencies [isConnected, timeRemaining !== null]:
    when they changed, the cleanup of the previous run clears the interval
    and the body arms a new one if the page is connected with time left. *)
Definition countdownEffect (p : Page) : Page :=
  let deps := (isConnected p, bool_decide (timeRemaining p <> None)) in
  if decide (countdownDeps p = Some deps) then p
  else
    {| sessionId := sessionId p; timeRemaining := timeRemaining p;
       isConnected := isConnected p;
       heartbeatRef := heartbeatRef p;
       countdownRef :=
         isConnected p
         && match timeRemaining p with Some t => bool_decide (t > 0) | None => false end;
       countdownDeps := Some deps; expiryDeps := expiryDeps p;
       pending := pending p;
       notices := notices p; leaveCalls := leaveCalls p;
       deleteRequests := deleteRequests p |}.

(** The expiry effect, dependencies
    [timeRemaining, isConnected, handleLeave, addLog, toast]. *)
Definition expiryEffect (p : Page) : Page :=
  let deps := (timeRemaining p, isConnected p, sessionId p) in
  if decide (expiryDeps p = Some deps) then p
  else
    let p1 :=
      {| sessionId := sessionId p; timeRemaining := timeRemaining p;
         isConnected := isConnected p;
         heartbeatRef := heartbeatRef p; countdownRef := countdownRef p;
         countdownDeps := countdownDeps p; expiryDeps := Some deps;
         pending := pending p;
         notices := notices p; leaveCalls := leaveCalls p;
         deleteRequests := deleteRequests p |} in
    if bool_decide (timeRemaining p = Some 0) && isConnected p then
      handleLeave (sessionId p)
        {| sessionId := sessionId p1; timeRemaining := timeRemaining p1;
           isConnected := isConnected p1;
           heartbeatRef := heartbeatRef p1; countdownRef := countdownRef p1;
           countdownDeps := countdownDeps p1; expiryDeps := expiryDeps p1;
           pending := pending p1;
           notices := S (notices p1); leaveCalls := leaveCalls p1;
           deleteRequests := deleteRequests p1 |}
    else p1.

(** One render: the effects whose dependencies changed run, in the order of
    their declaration. *)
Definition commit (p : Page) : Page := expiryEffect (countdownEffect p).

(** A state update made by an effect schedules another render; the second
    one already finds every dependency unchanged ([PageFacts.render_settles]). *)
Definition render (p : Page) : Page := commit (commit p).

(** Every effect of [p] finds the dependencies it last ran with. *)
Definition at_rest (p : Page) : Prop :=
  countdownDeps p = Some (isConnected p, bool_decide (timeRemaining p <> None))
  /\ expiryDeps p = Some (timeRemaining p, isConnected p, sessionId p).

Inductive Action :=
| joined (sid : string) (remainingMs : Z)
    (* handleJoin: session created; [remainingMs] is the value given to
       [setTimeRemaining], [sessionRemainingMs || MAX_SESSION_DURATION_MS] *)
| connection (connected : bool)             (* the hook's status changed *)
| tick                                      (* the 1 s interval fires *)
| settle (i : nat).                         (* an awaited promise settles *)

Definition apply (a : Action) (p : Page) : Page :=
  match a with
  | joined sid remainingMs =>
      {| sessionId := Some sid; timeRemaining := Some remainingMs;
         isConnected := isConnected p;
         heartbeatRef := heartbeatRef p; countdownRef := countdownRef p;
         countdownDeps := countdownDeps p; expiryDeps := expiryDeps p;
         pending := pending p;
         notices := notices p; leaveCalls := leaveCalls p;
         deleteRequests := deleteRequests p |}
  | connection b =>
      {| sessionId := sessionId p; timeRemaining := timeRemaining p;
         isConnected := b;
         heartbeatRef := heartbeatRef p; countdownRef := countdownRef p;
         countdownDeps := countdownDeps p; expiryDeps := expiryDeps p;
         pending := pending p;
         notices := notices p; leaveCalls := leaveCalls p;
         deleteRequests := deleteRequests p |}
  | tick =>
      if countdownRef p then
        {| sessionId := sessionId p;
           timeRemaining :=
             Some match timeRemaining p with
                  | None => 0
                  | Some prev => if decide (prev <= 1000) then 0 else prev - 1000
                  end;
           isConnected := isConnected p;
           heartbeatRef := heartbeatRef p; countdownRef := countdownRef p;
           countdownDeps := countdownDeps p; expiryDeps := expiryDeps p;
           pending := pending p;
           notices := notices p; leaveCalls := leaveCalls p;
           deleteRequests := deleteRequests p |}
      else p
  | settle i =>
      match pending p !! i with
      | Some k =>
          resumeLeave k
            {| sessionId := sessionId p; timeRemaining := timeRemaining p;
               isConnected := isConnected p;
               heartbeatRef := heartbeatRef p; countdownRef := countdownRef p;
               countdownDeps := countdownDeps p; expiryDeps := expiryDeps p;
               pending := delete i (pending p);
               notices := notices p; leaveCalls := leaveCalls p;
               deleteRequests := deleteRequests p |}
      | None => p
      end
  end.

Definition step (a : Action) (p : Page) : Page := render (apply a p).

Definition run (trace : list Action) (p : Page) : Page :=
  fold_left (fun p a => step a p) trace p.

End Page.

(* ===================================================================== *)
(** * Background audio relay supervisor ([AudioBotManager])              *)
(* ===================================================================== *)

Module Bot.

(** ** Messages *)

(** The values [JSON.parse] yields for the fields of a message.  Numbers are
    the integers; an array or object is kept as the text its conversion to a
    string gives. *)
Inductive JVal :=
| JNull | JBool (b : bool) | JNum (n : Z) | JStr (s : string)
| JObject (text : string).

#[export] Instance JVal_eq_dec : EqDecision JVal.
Proof. solve_decision. Defined.

(** A parsed line with a string [type]; [fields !! k] is [None] where the
    property is [undefined]. *)
Record BotMessage := { type : string; fields : gmap string JVal }.

#[export] Instance BotMessage_eq_dec : EqDecision BotMessage.
Proof. solve_decision. Defined.

Definition truthy (v : option JVal) : bool :=
  match v with
  | None | Some JNull => false
  | Some (JBool b) => b
  | Some (JNum n) => negb (Z.eqb n 0)
  | Some (JStr s) => Js.truthy s
  | Some (JObject _) => true
  end.

(** The text a template literal gives for a value.  Numbers are the
    integers in decimal notation; the exponent form JavaScript uses from
    1e21 on is not represented. *)
Definition to_string (v : JVal) : string :=
  match v with
  | JNull => "null"
  | JBool true => "true"
  | JBool false => "false"
  | JNum n => pretty n
  | JStr s => s
  | JObject text => text
  end.

(** [s.endsWith(suffix)] *)
Definition endsWith (s suffix : string) : bool :=
  bool_decide (String.length suffix <= String.length s)%nat
  && String.eqb
       (substring (String.length s - String.length suffix)
                  (String.length suffix) s)
       suffix.

(** ** Manager state *)

Record Proc := { pid : nat }.

(** The closure of one [start()] call that spawned a worker: its [resolved]
    flag, whether its 10 s timeout is still armed, and what its promise
    resolved to. *)
Record StartCall := {
  resolved : bool;
  timeoutArmed : bool;
  outcome : option bool
}.

(** The closure of one [sendCommandWithResponse] call: the response type it
    waits for, the delay of its timer, whether the timer is still armed, and
    what its promise resolved to ([Some None] is [null]). *)
Record Command := {
  responseType : string;
  timeoutMs : Z;
  timerArmed : bool;
  answer : option (option BotMessage)
}.

(** A line written to the worker's standard input. *)
Record Line := { command : string; args : list (string * JVal) }.

(** The mirror of the worker's status; every field holds whatever the
    message carried. *)
Record BotStatus := {
  isConnected : option JVal;
  isPlaying : option JVal;
  channel : option JVal;
  uid : option JVal;
  currentFile : option JVal;
  playbackProgress : option JVal;
  playbackDuration : option JVal
}.

Record LogLine := {
  log_timestamp : option JVal; log_level : option JVal;
  log_message : option JVal
}.

(** [eventHandlers] holds the [readyHandler]s of the [start()] calls still
    waiting, each known by the index of its call in [starts];
    [pendingCallbacks] maps a response type to the command whose callback is
    registered for it.  [killedPids] and [written] record the signals and
    the lines sent to worker processes, most recent first. *)
Record Manager := {
  process : option Proc;
  pendingCallbacks : gmap string nat;
  status : BotStatus;
  logs : list LogLine;
  eventHandlers : list nat;
  sdkAvailable : bool;
  agoraAvailable : bool;
  pydubAvailable : bool;
  lastError : option string;
  starts : list StartCall;
  commands : list Command;
  killedPids : list nat;
  written : list Line
}.

Definition fresh : Manager :=
  {| process := None; pendingCallbacks := ∅;
     status := {| isConnected := Some (JBool false);
                  isPlaying := Some (JBool false);
                  channel := Some JNull; uid := Some JNull;
                  currentFile := Some JNull;
                  playbackProgress := Some (JNum 0);
                  playbackDuration := Some (JNum 0) |};
     logs := []; eventHandlers := [];
     sdkAvailable := false; agoraAvailable := false; pydubAvailable := false;
     lastError := None; starts := []; commands := [];
     killedPids := []; written := [] |}.

Definition set_process (v : option Proc) (m : Manager) : Manager :=
  {| process := v; pendingCallbacks := pendingCallbacks m; status := status m;
     logs := logs m; eventHandlers := eventHandlers m;
     sdkAvailable := sdkAvailable m; agoraAvailable := agoraAvailable m;
     pydubAvailable := pydubAvailable m; lastError := lastError m;
     starts := starts m; commands := commands m;
     killedPids := killedPids m; written := written m |}.

Definition set_pendingCallbacks (v : gmap string nat) (m : Manager) : Manager :=
  {| process := process m; pendingCallbacks := v; status := status m;
     logs := logs m; eventHandlers := eventHandlers m;
     sdkAvailable := sdkAvailable m; agoraAvailable := agoraAvailable m;
     pydubAvailable := pydubAvailable m; lastError := lastError m;
     starts := starts m; commands := commands m;
     killedPids := killedPids m; written := written m |}.

Definition set_status (v : BotStatus) (m : Manager) : Manager :=
  {| process := process m; pendingCallbacks := pendingCallbacks m; status := v;
     logs := logs m; eventHandlers := eventHandlers m;
     sdkAvailable := sdkAvailable m; agoraAvailable := agoraAvailable m;
     pydubAvailable := pydubAvailable m; lastError := lastError m;
     starts := starts m; commands := commands m;
     killedPids := killedPids m; written := written m |}.

Definition set_logs (v : list LogLine) (m : Manager) : Manager :=
  {| process := process m; pendingCallbacks := pendingCallbacks m;
     status := status m;
     logs := v; eventHandlers := eventHandlers m;
     sdkAvailable := sdkAvailable m; agoraAvailable := agoraAvailable m;
     pydubAvailable := pydubAvailable m; lastError := lastError m;
     starts := starts m; commands := commands m;
     killedPids := killedPids m; written := written m |}.

Definition set_eventHandlers (v : list nat) (m : Manager) : Manager :=
  {| process := process m; pendingCallbacks := pendingCallbacks m;
     status := status m;
     logs := logs m; eventHandlers := v;
     sdkAvailable := sdkAvailable m; agoraAvailable := agoraAvailable m;
     pydubAvailable := pydubAvailable m; lastError := lastError m;
     starts := starts m; commands := commands m;
     killedPids := killedPids m; written := written m |}.

Definition set_capabilities (sdk agora pydub : bool) (m : Manager) : Manager :=
  {| process := process m; pendingCallbacks := pendingCallbacks m;
     status := status m;
     logs := logs m; eventHandlers := eventHandlers m;
     sdkAvailable := sdk; agoraAvailable := agora;
     pydubAvailable := pydub; lastError := lastError m;
     starts := starts m; commands := commands m;
     killedPids := killedPids m; written := written m |}.

Definition set_sdkAvailable (v : bool) (m : Manager) : Manager :=
  set_capabilities v (agoraAvailable m) (pydubAvailable m) m.

Definition set_lastError (v : option string) (m : Manager) : Manager :=
  {| process := process m; pendingCallbacks := pendingCallbacks m;
     status := status m;
     logs := logs m; eventHandlers := eventHandlers m;
     sdkAvailable := sdkAvailable m; agoraAvailable := agoraAvailable m;
     pydubAvailable := pydubAvailable m; lastError := v;
     starts := starts m; commands := commands m;
     killedPids := killedPids m; written := written m |}.

Definition set_starts (v : list StartCall) (m : Manager) : Manager :=
  {| process := process m; pendingCallbacks := pendingCallbacks m;
     status := status m;
     logs := logs m; eventHandlers := eventHandlers m;
     sdkAvailable := sdkAvailable m; agoraAvailable := agoraAvailable m;
     pydubAvailable := pydubAvailable m; lastError := lastError m;
     starts := v; commands := commands m;
     killedPids := killedPids m; written := written m |}.

Definition set_commands (v : list Command) (m : Manager) : Manager :=
  {| process := process m; pendingCallbacks := pendingCallbacks m;
     status := status m;
     logs := logs m; eventHandlers := eventHandlers m;
     sdkAvailable := sdkAvailable m; agoraAvailable := agoraAvailable m;
     pydubAvailable := pydubAvailable m; lastError := lastError m;
     starts := starts m; commands := v;
     killedPids := killedPids m; written := written m |}.

Definition set_killedPids (v : list nat) (m : Manager) : Manager :=
  {| process := process m; pendingCallbacks := pendingCallbacks m;
     status := status m;
     logs := logs m; eventHandlers := eventHandlers m;
     sdkAvailable := sdkAvailable m; agoraAvailable := agoraAvailable m;
     pydubAvailable := pydubAvailable m; lastError := lastError m;
     starts := starts m; commands := commands m;
     killedPids := v; written := written m |}.

Definition set_written (v : list Line) (m : Manager) : Manager :=
  {| process := process m; pendingCallbacks := pendingCallbacks m;
     status := status m;
     logs := logs m; eventHandlers := eventHandlers m;
     sdkAvailable := sdkAvailable m; agoraAvailable := agoraAvailable m;
     pydubAvailable := pydubAvailable m; lastError := lastError m;
     starts := starts m; commands := commands m;
     killedPids := killedPids m; written := v |}.

(** [isRunning]: [this.process !== null && !this.process.killed].  Every
    [kill()] of the class is followed at once by [this.process = null], so a
    killed process is never the one held. *)
Definition isRunning (m : Manager) : bool :=
  match process m with Some _ => true | None => false end.

(** [this.process.kill(); this.process = null] when a process is held. *)
Definition killProcess (m : Manager) : Manager :=
  match process m with
  | Some p => set_process None (set_killedPids (pid p :: killedPids m) m)
  | None => m
  end.

(** ** [start] *)

(** [resolveOnce(value)] of the [start()] call [call]. *)
Definition resolveOnce (call : nat) (value : bool) (m : Manager) : Manager :=
  match starts m !! call with
  | Some s =>
      if resolved s then m
      else
        set_eventHandlers (filter (fun h => h <> call) (eventHandlers m))
          (set_starts
             (<[call := {| resolved := true; timeoutArmed := false;
                           outcome := Some value |}]> (starts m)) m)
  | None => m
  end.

Definition genericSdkError : string :=
  "Agora Python SDK not available - audio bot features require the agora-python-server-sdk and pydub packages".

(** [readyHandler] of the [start()] call [call]. *)
Definition readyHandler (call : nat) (msg : BotMessage) (m : Manager) : Manager :=
  if String.eqb (type msg) "ready" then
    let m1 :=
      set_capabilities
        (bool_decide (fields msg !! "sdk_available" = Some (JBool true)))
        (bool_decide (fields msg !! "agora_available" = Some (JBool true)))
        (bool_decide (fields msg !! "pydub_available" = Some (JBool true))) m in
    if negb (sdkAvailable m1) then
      let botError := fields msg !! "error" in
      let m2 :=
        set_lastError
          (Some match botError with
                | Some v =>
                    if truthy botError
                    then "SDK not available: " ++ to_string v
                    else genericSdkError
                | None => genericSdkError
                end) m1 in
      resolveOnce call false (killProcess m2)
    else resolveOnce call true (set_lastError None m1)
  else m.

(** What [start()] found when it was called: a worker already running, the
    script missing, or a worker to spawn (with the pid it gets). *)
Inductive StartResult :=
| AlreadyRunning            (* returns true *)
| ScriptMissing             (* resolves false *)
| Spawned (call : nat).     (* pending: resolved through [outcome] *)

Definition start (scriptExists : bool) (newPid : nat) (m : Manager)
    : StartResult * Manager :=
  if isRunning m then (AlreadyRunning, m)
  else if negb scriptExists then
    (ScriptMissing, set_lastError (Some "Python bot script not found") m)
  else
    let call := length (starts m) in
    (Spawned call,
     set_eventHandlers (eventHandlers m ++ [call])
       (set_starts
          (starts m ++ [{| resolved := false; timeoutArmed := true;
                           outcome := None |}])
          (set_process (Some {| pid := newPid |}) m))).

Definition is_resolved (call : nat) (m : Manager) : bool :=
  match starts m !! call with Some s => resolved s | None => true end.

(** The text of the synthesized diagnostic; [code] is [null] when the worker
    was ended by a signal. *)
Definition exitText (code : option Z) : string :=
  "Bot process exited with code "
  ++ match code with Some n => pretty n | None => "null" end
  ++ " - Agora Python SDK may not be properly installed".

(** The worker's [close] event, as handled by the [start()] call [call]. *)
Definition onClose (call : nat) (code : option Z) (m : Manager) : Manager :=
  let m1 :=
    set_status
      {| isConnected := Some (JBool false); isPlaying := Some (JBool false);
         channel := channel (status m); uid := uid (status m);
         currentFile := currentFile (status m);
         playbackProgress := playbackProgress (status m);
         playbackDuration := playbackDuration (status m) |}
      (set_process None m) in
  if is_resolved call m1 then m1
  else
    let m2 := set_sdkAvailable false m1 in
    let m3 :=
      match lastError m2 with
      | Some e =>
          if Js.truthy e then m2
          else set_lastError (Some (exitText code)) m2
      | None => set_lastError (Some (exitText code)) m2
      end in
    resolveOnce call false m3.

(** The worker's [error] event. *)
Definition onError (call : nat) (message : string) (m : Manager) : Manager :=
  resolveOnce call false
    (set_lastError (Some ("Bot process error: " ++ message))
       (set_process None m)).

(** The 10 s startup timer of the [start()] call [call] fires. *)
Definition onStartTimeout (call : nat) (m : Manager) : Manager :=
  match starts m !! call with
  | Some s =>
      if timeoutArmed s then
        resolveOnce call false
          (killProcess
             (set_lastError
                (Some "Bot process failed to start within timeout") m))
      else m
  | None => m
  end.

(** ** Commands *)

(** [sendCommand]: [writable] tells whether [stdin.write] went through. *)
Definition sendCommand (writable : bool) (line : Line) (m : Manager)
    : bool * Manager :=
  match process m with
  | Some _ =>
      if writable then (true, set_written (line :: written m) m)
      else (false, m)
  | None => (false, m)
  end.

(** [resolve(value)] of the promise of command [c]: the first settlement
    stands. *)
Definition resolveCommand (c : nat) (value : option BotMessage)
    (m : Manager) : Manager :=
  match commands m !! c with
  | Some cmd =>
      set_commands
        (<[c := {| responseType := responseType cmd;
                   timeoutMs := timeoutMs cmd;
                   timerArmed := timerArmed cmd;
                   answer := match answer cmd with
                             | Some a => Some a
                             | None => Some value
                             end |}]> (commands m)) m
  | None => m
  end.

(** [clearTimeout(timeout)] of command [c]. *)
Definition clearCommandTimer (c : nat) (m : Manager) : Manager :=
  match commands m !! c with
  | Some cmd =>
      set_commands
        (<[c := {| responseType := responseType cmd;
                   timeoutMs := timeoutMs cmd;
                   timerArmed := false;
                   answer := answer cmd |}]> (commands m)) m
  | None => m
  end.

Definition DEFAULT_TIMEOUT_MS : Z := 30000.

(** [sendCommandWithResponse(command, responseType, timeoutMs = 30000)]; the
    call is known afterwards by its index in [commands]. *)
Definition sendCommandWithResponse (writable : bool) (line : Line)
    (rt : string) (timeout : option Z) (m : Manager) : nat * Manager :=
  let c := length (commands m) in
  let m1 :=
    set_commands
      (commands m ++ [{| responseType := rt;
                         timeoutMs := default DEFAULT_TIMEOUT_MS timeout;
                         timerArmed := true; answer := None |}]) m in
  let m2 := set_pendingCallbacks (<[rt := c]> (pendingCallbacks m1)) m1 in
  match sendCommand writable line m2 with
  | (true, m3) => (c, m3)
  | (false, m3) =>
      (c, resolveCommand c None
            (set_pendingCallbacks (delete rt (pendingCallbacks m3))
               (clearCommandTimer c m3)))
  end.

(** The timer of command [c] fires. *)
Definition onCommandTimeout (c : nat) (m : Manager) : Manager :=
  match commands m !! c with
  | Some cmd =>
      if timerArmed cmd then
        resolveCommand c None
          (set_pendingCallbacks
             (delete (responseType cmd) (pendingCallbacks m))
             (clearCommandTimer c m))
      else m
  | None => m
  end.

(** The callback registered by command [c]. *)
Definition commandCallback (c : nat) (msg : BotMessage) (m : Manager) : Manager :=
  resolveCommand c (Some msg) (clearCommandTimer c m).

(** ** Incoming messages *)

(** The [switch] of [handleMessage]: the status and log mirror. *)
Definition mirror (msg : BotMessage) (m : Manager) : Manager :=
  let f := fields msg in
  let st := status m in
  if String.eqb (type msg) "status" then
    if bool_decide (f !! "status" = Some (JStr "connected")) then
      set_status
        {| isConnected := Some (JBool true); isPlaying := isPlaying st;
           channel := f !! "channel"; uid := f !! "uid";
           currentFile := currentFile st;
           playbackProgress := playbackProgress st;
           playbackDuration := playbackDuration st |} m
    else if bool_decide (f !! "status" = Some (JStr "disconnected")) then
      set_status
        {| isConnected := Some (JBool false); isPlaying := isPlaying st;
           channel := Some JNull; uid := Some JNull;
           currentFile := currentFile st;
           playbackProgress := playbackProgress st;
           playbackDuration := playbackDuration st |} m
    else m
  else if String.eqb (type msg) "playback_started" then
    set_status
      {| isConnected := isConnected st; isPlaying := Some (JBool true);
         channel := channel st; uid := uid st;
         currentFile := f !! "file";
         playbackProgress := Some (JNum 0);
         playbackDuration := f !! "duration" |} m
  else if String.eqb (type msg) "progress" then
    set_status
      {| isConnected := isConnected st; isPlaying := isPlaying st;
         channel := channel st; uid := uid st;
         currentFile := currentFile st;
         playbackProgress := f !! "current";
         playbackDuration := playbackDuration st |} m
  else if String.eqb (type msg) "playback_complete"
          || String.eqb (type msg) "playback_stopped" then
    set_status
      {| isConnected := isConnected st; isPlaying := Some (JBool false);
         channel := channel st; uid := uid st;
         currentFile := Some JNull;
         playbackProgress := Some (JNum 0);
         playbackDuration := playbackDuration st |} m
  else if String.eqb (type msg) "log" then
    let logs' :=
      (logs m ++ [{| log_timestamp := f !! "timestamp";
                     log_level := f !! "level";
                     log_message := f !! "message" |}])%list in
    set_logs
      (if bool_decide (200 < length logs')%nat
       then drop (length logs' - 100) logs' else logs') m
  else if String.eqb (type msg) "status_response" then
    set_status
      {| isConnected := f !! "is_connected"; isPlaying := f !! "is_playing";
         channel := f !! "channel"; uid := f !! "uid";
         currentFile := f !! "current_file";
         playbackProgress := f !! "playback_progress";
         playbackDuration := f !! "playback_duration" |} m
  else m.

(** The response path of [handleMessage]. *)
Definition dispatch (msg : BotMessage) (m : Manager) : Manager :=
  if endsWith (type msg) "_response" then
    match pendingCallbacks m !! type msg with
    | Some c =>
        commandCallback c msg
          (set_pendingCallbacks (delete (type msg) (pendingCallbacks m)) m)
    | None => m
    end
  else m.

(** [handleMessage]: the mirror, the pending callback, then every handler
    that was registered when the loop began. *)
Definition handleMessage (msg : BotMessage) (m : Manager) : Manager :=
  let m1 := dispatch msg (mirror msg m) in
  fold_left (fun m h => readyHandler h msg m) (eventHandlers m1) m1.

(** ** The command wrappers *)

(** [response?.success === true] *)
Definition succeeded (a : option BotMessage) : bool :=
  match a with
  | Some msg => bool_decide (fields msg !! "success" = Some (JBool true))
  | None => false
  end.

Definition initialize (writable : bool) (appId : string) (m : Manager)
    : nat * Manager :=
  sendCommandWithResponse writable
    {| command := "init"; args := [("appId", JStr appId)] |}
    "init_response" None m.

Definition joinChannel (writable : bool) (ch : string) (u : Z) (token : string)
    (m : Manager) : nat * Manager :=
  sendCommandWithResponse writable
    {| command := "join";
       args := [("channel", JStr ch); ("uid", JNum u); ("token", JStr token)] |}
    "join_response" None m.

Definition leaveChannel (writable : bool) (m : Manager) : nat * Manager :=
  sendCommandWithResponse writable {| command := "leave"; args := [] |}
    "leave_response" None m.

Definition playAudio (writable : bool) (filePath : string) (m : Manager)
    : nat * Manager :=
  sendCommandWithResponse writable
    {| command := "play"; args := [("file", JStr filePath)] |}
    "play_response" None m.

Definition stopPlayback (writable : bool) (m : Manager) : nat * Manager :=
  sendCommandWithResponse writable {| command := "stop"; args := [] |}
    "stop_response" None m.

(** [shutdown] up to its [await]: the quit command, when a process is
    held. *)
Definition shutdown (writable : bool) (m : Manager) : option nat * Manager :=
  match process m with
  | Some _ =>
      let '(c, m') :=
        sendCommandWithResponse writable {| command := "quit"; args := [] |}
          "quit_response" (Some 5000) m in
      (Some c, m')
  | None => (None, m)
  end.

(** What the manager can be asked to do or told, one event-loop turn at a
    time. *)
Inductive Action :=
| do_start (scriptExists : bool) (newPid : nat)
| do_command (writable : bool) (line : Line) (rt : string) (timeout : option Z)
| message (msg : BotMessage)
| closed (call : nat) (code : option Z)
| failed (call : nat) (message : string)
| start_timeout (call : nat)
| command_timeout (c : nat).

Definition step (a : Action) (m : Manager) : Manager :=
  match a with
  | do_start scriptExists newPid => snd (start scriptExists newPid m)
  | do_command writable line rt timeout =>
      snd (sendCommandWithResponse writable line rt timeout m)
  | message msg => handleMessage msg m
  | closed call code => onClose call code m
  | failed call e => onError call e m
  | start_timeout call => onStartTimeout call m
  | command_timeout c => onCommandTimeout c m
  end.

Definition run (trace : list Action) (m : Manager) : Manager :=
  fold_left (fun m a => step a m) trace m.

(** ** Properties of manager states *)



(** No command is left waiting without its timer: a command whose promise
    is unresolved has its timer armed. *)
Definition armed (m : Manager) : Prop :=
  forall c cmd, commands m !! c = Some cmd ->
    answer cmd = None -> timerArmed cmd = true.

(** A registered command stays registered, with the response type and the
    delay it was given. *)
Definition kept (c : nat) (cmd : Command) (m : Manager) : Prop :=
  exists cmd', commands m !! c = Some cmd'
               /\ responseType cmd' = responseType cmd
               /\ timeoutMs cmd' = timeoutMs cmd.

(** Command [c] of [m] waits for responses of type [rt] with a timer of
    [t] milliseconds. *)
Definition registered (m : Manager) (c : nat) (rt : string) (t : Z) : Prop :=
  exists cmd, commands m !! c = Some cmd
              /\ responseType cmd = rt /\ timeoutMs cmd = t.

(** ** Sample inputs *)

(** The manager right after [start()] spawned worker 4242. *)
Definition spawned : Manager := snd (start true 4242 fresh).

(** The [ready] line of a worker that could not import its SDK. *)
Definition ready_no_sdk : BotMessage :=
  {| type := "ready";
     fields := {[ "sdk_available" := JBool false;
                  "agora_available" := JBool false;
                  "pydub_available" := JBool true;
                  "error" := JStr "No module named agora" ]} |}.

(** ** Worker output *)

(** What has been read from the worker's standard output: the text of the
    last, unfinished line and the manager. *)
Record Reader := { messageBuffer : string; manager : Manager }.

Section Output.
(** [JSON.parse(line)] as [handleMessage] can use it: [None] where
    [JSON.parse] throws or the value has no string [type], in which case
    [handleMessage] throws at [responseType.endsWith] before it has changed
    anything; either way the [catch] logs the line and goes on. *)
Variable parse : string -> option BotMessage.
(** [!line.trim()] *)
Variable blank : string -> bool.

(** The body of the loop of [handleOutput]. *)
Definition handleLine (line : string) (m : Manager) : Manager :=
  if blank line then m
  else
    match parse line with
    | Some msg => handleMessage msg m
    | None => m
    end.

Definition handleOutput (data : string) (r : Reader) : Reader :=
  let lines := Js.split_newline (messageBuffer r ++ data) in
  {| messageBuffer := default "" (last lines);
     manager :=
       fold_left (fun m line => handleLine line m) (removelast lines)
         (manager r) |}.
End Output.

(** ** Logs *)

(** [getLogs(limit)]: [this.logs.slice(-limit)] *)
Definition getLogs (limit : Z) (m : Manager) : list LogLine :=
  Js.slice_from (- limit) (logs m).

(** [GET /api/bot/logs]: [parseInt(req.query.limit) || 50], then [getLogs];
    [None] is the [NaN] that [parseInt] gives for a missing or non-numeric
    parameter. *)
Definition logsRoute (limit : option Z) (m : Manager) : list LogLine :=
  getLogs (match limit with
           | Some n => if Z.eqb n 0 then 50 else n
           | None => 50
           end) m.

(** ** Properties of [start()] calls *)

(** The closure of a [start()] call is either waiting (timer armed, promise
    unresolved) or done (timer cleared, promise resolved). *)
Definition well_shaped (s : StartCall) : Prop :=
  if resolved s then timeoutArmed s = false /\ is_Some (outcome s)
  else timeoutArmed s = true /\ outcome s = None.

(** What the [readyHandler]s leave in place when the worker reports its SDK:
    the process of [m0] kept, no error, the SDK available. *)
Record accepted (m0 m : Manager) : Prop := {
  accepted_process : process m = process m0;
  accepted_killed : killedPids m = killedPids m0;
  accepted_error : lastError m = None;
  accepted_sdk : sdkAvailable m = true
}.

End Bot.

(* ===================================================================== *)
(** * Properties of the Session Quota Manager                            *)
(* ===================================================================== *)

Module ServerFacts.
Import Server.

(** ** [MemStorage] *)

Lemma getDailyUsage_same_day (t : Z) (k : string) (m : gmap string DailyUsage) :
  dateKey (getDailyUsage t k m) = getTodayDateKey t.
Proof.
  unfold getDailyUsage.
  destruct (m !! k) as [u|]; [|reflexivity].
  destruct (decide _); [assumption|reflexivity].
Qed.

Lemma getDailyUsage_rollover (t : Z) (k : string) (m : gmap string DailyUsage)
    (u : DailyUsage) :
  m !! k = Some u -> getTodayDateKey t <> dateKey u ->
  getDailyUsage t k m = {| dateKey := getTodayDateKey t; count := 0 |}.
Proof.
  intros Hk Hne. unfold getDailyUsage. rewrite Hk.
  destruct (decide _) as [E|_]; [congruence|reflexivity].
Qed.

Lemma getDailyUsage_stored (t : Z) (k : string) (m : gmap string DailyUsage)
    (u : DailyUsage) :
  m !! k = Some u -> dateKey u = getTodayDateKey t -> getDailyUsage t k m = u.
Proof.
  intros Hk E. unfold getDailyUsage. rewrite Hk.
  destruct (decide _); [reflexivity|contradiction].
Qed.

Lemma getDailyUsage_other (t : Z) (k k' : string) (u : DailyUsage)
    (m : gmap string DailyUsage) :
  k' <> k -> getDailyUsage t k (<[k' := u]> m) = getDailyUsage t k m.
Proof.
  intros Hne. unfold getDailyUsage. by rewrite lookup_insert_ne.
Qed.

Lemma incrementDailyUsage_count (t t' : Z) (k : string)
    (m : gmap string DailyUsage) :
  incrementDailyUsage t t' k m
  = ({| dateKey := getTodayDateKey t;
        count := count (getDailyUsage t' k m) + 1 |},
     <[k := {| dateKey := getTodayDateKey t;
               count := count (getDailyUsage t' k m) + 1 |}]> m).
Proof. reflexivity. Qed.

(** ** The routes *)

Lemma requireAuth_next (now : Z) (req : Request) (st : State) :
  fst (requireAuth now req st) = inr tt ->
  requireAuth now req st = (inr tt, st)
  /\ bearer req = Some (usageKey req)
  /\ Js.truthy (usageKey req) = true
  /\ is_Some (authSessions st !! usageKey req).
Proof.
  unfold requireAuth, usageKey.
  destruct (bearer req) as [tok|]; [|discriminate].
  destruct (Js.truthy tok) eqn:Ht; [|discriminate]. simpl.
  destruct (authSessions st !! tok) as [a|] eqn:Ha; [|discriminate].
  destruct (decide _); [discriminate|]. eauto.
Qed.

Lemma requireAuth_refuses (now : Z) (req : Request) (st st' : State)
    (r : Response) :
  requireAuth now req st = (inl r, st') -> exists e, r = Unauthorized e.
Proof.
  unfold requireAuth.
  destruct (bearer req) as [tok|]; [|intros [= <- _]; eauto].
  destruct (Js.truthy tok); simpl; [|intros [= <- _]; eauto].
  destruct (authSessions st !! tok); [|intros [= <- _]; eauto].
  destruct (decide _); [intros [= <- _]; eauto|discriminate].
Qed.

Lemma createSession_below (L : Limits) (clk : Clock) (uuid : string)
    (req : Request) (st : State) (data : JoinData) :
  joinSessionSchema_parse (body req) = Some data ->
  count (getDailyUsage (c_usage clk) (usageKey req) (dailyUsage st))
    < MAX_CONNECTIONS_PER_DAY L ->
  createSession L clk uuid req st
  = (Created uuid (data_channelId data) (data_userId data) (c_joined clk)
       {| remainingConnections :=
            Z.max 0 (MAX_CONNECTIONS_PER_DAY L
                     - (count (getDailyUsage (c_incGet clk) (usageKey req)
                                 (dailyUsage st)) + 1));
          maxConnectionsPerDay := MAX_CONNECTIONS_PER_DAY L;
          usedToday :=
            count (getDailyUsage (c_incGet clk) (usageKey req)
                     (dailyUsage st)) + 1;
          resetAt := getResetTime (c_reset' clk);
          sessionExpiresAt := Some (c_now clk + MAX_SESSION_DURATION_MS L);
          sessionRemainingMs := Some (MAX_SESSION_DURATION_MS L) |},
     created L clk uuid data (usageKey req) st).
Proof.
  intros Hp Hlt. unfold createSession. rewrite Hp.
  destruct (decide _) as [Hge|_]; [lia|]. reflexivity.
Qed.

Lemma createSession_at_limit (L : Limits) (clk : Clock) (uuid : string)
    (req : Request) (st : State) (data : JoinData) :
  joinSessionSchema_parse (body req) = Some data ->
  MAX_CONNECTIONS_PER_DAY L
    <= count (getDailyUsage (c_usage clk) (usageKey req) (dailyUsage st)) ->
  createSession L clk uuid req st
  = (TooManyRequests "Daily connection limit reached"
       {| remainingConnections := 0;
          maxConnectionsPerDay := MAX_CONNECTIONS_PER_DAY L;
          usedToday :=
            count (getDailyUsage (c_usage clk) (usageKey req) (dailyUsage st));
          resetAt := getResetTime (c_reset clk);
          sessionExpiresAt := None;
          sessionRemainingMs := None |},
     st).
Proof.
  intros Hp Hge. unfold createSession. rewrite Hp.
  destruct (decide _) as [_|Hlt]; [reflexivity|lia].
Qed.

Lemma getDailyUsage_same_key (t t' : Z) (k : string)
    (m : gmap string DailyUsage) :
  getTodayDateKey t = getTodayDateKey t' ->
  getDailyUsage t k m = getDailyUsage t' k m.
Proof. intros E. unfold getDailyUsage. by rewrite E. Qed.

(** The daily usage after a request depends on the request only through its
    token and on whether the body validates. *)
Lemma createSession_usage_other (L : Limits) (clk : Clock) (uuid : string)
    (req : Request) (st : State) (k : string) :
  k <> usageKey req ->
  dailyUsage (snd (createSession L clk uuid req st)) !! k = dailyUsage st !! k.
Proof.
  intros Hne. unfold createSession.
  destruct (joinSessionSchema_parse (body req)); [|reflexivity].
  destruct (decide _); [reflexivity|].
  simpl. by rewrite lookup_insert_ne.
Qed.

Lemma postSessions_authorised (L : Limits) (clk : Clock) (uuid : string)
    (req : Request) (st : State) :
  fst (requireAuth (c_auth clk) req st) = inr tt ->
  postSessions L clk uuid req st = createSession L clk uuid req st.
Proof.
  intros Ha. apply requireAuth_next in Ha as (E & _).
  unfold postSessions. by rewrite E.
Qed.

(** The token of a request is what is left of its [Authorization] header
    once the first ["Bearer "] has been removed. *)
Example bearer_token :
  bearer (request "u1") = Some "tok-1"
  /\ Js.replace_first "Bearer " "" "tok-1" = "tok-1"
  /\ Js.replace_first "Bearer " "" "Bearer Bearer x" = "Bearer x".
Proof. repeat split. Qed.

(** The scenario of the specification: three sessions for one token on one
    UTC day are granted with [usedToday] 1, 2, 3 and [remainingConnections]
    2, 1, 0; the fourth is refused with [usedToday] 3. *)
Example four_requests_in_a_day :
  let r1 := postSessions documented (at_instant 1000) "s1" (request "u1") logged_in in
  let r2 := postSessions documented (at_instant 2000) "s2" (request "u1") (snd r1) in
  let r3 := postSessions documented (at_instant 3000) "s3" (request "u1") (snd r2) in
  let r4 := postSessions documented (at_instant 4000) "s4" (request "u1") (snd r3) in
  (exists l, fst r1 = Created "s1" "ch1" "u1" 1000 l
             /\ usedToday l = 1 /\ remainingConnections l = 2)
  /\ (exists l, fst r2 = Created "s2" "ch1" "u1" 2000 l
                /\ usedToday l = 2 /\ remainingConnections l = 1)
  /\ (exists l, fst r3 = Created "s3" "ch1" "u1" 3000 l
                /\ usedToday l = 3 /\ remainingConnections l = 0)
  /\ (exists l, fst r4 = TooManyRequests "Daily connection limit reached" l
                /\ usedToday l = 3)
  /\ snd r4 = snd r3.
Proof.
  vm_compute. repeat split; eexists; repeat split.
Qed.

(** A request below the limit, all of whose date-key readings fall on one
    day. *)
Lemma postSessions_below (L : Limits) (clk : Clock) (uuid : string)
    (req : Request) (st : State) (day : Z) :
  fst (requireAuth (c_auth clk) req st) = inr tt ->
  is_Some (joinSessionSchema_parse (body req)) ->
  getTodayDateKey (c_usage clk) = day ->
  getTodayDateKey (c_incKey clk) = day ->
  getTodayDateKey (c_incGet clk) = day ->
  let tok := usageKey req in
  let used := count (getDailyUsage (c_usage clk) tok (dailyUsage st)) in
  let res := postSessions L clk uuid req st in
  used < MAX_CONNECTIONS_PER_DAY L ->
  (exists ch u j lim,
     fst res = Created uuid ch u j lim
     /\ usedToday lim = used + 1
     /\ maxConnectionsPerDay lim = MAX_CONNECTIONS_PER_DAY L)
  /\ (exists s, sessions (snd res) !! uuid = Some s /\ id s = uuid)
  /\ dailyUsage (snd res) !! tok = Some {| dateKey := day; count := used + 1 |}
  /\ (forall t, getTodayDateKey t <> day ->
        count (getDailyUsage t tok (dailyUsage (snd res))) = 0).
Proof.
  intros Hauth [data Hp] Hu Hk Hg tok used res Hlt.
  assert (Hres : res = createSession L clk uuid req st)
    by (apply postSessions_authorised; exact Hauth).
  assert (Hsame : getDailyUsage (c_incGet clk) tok (dailyUsage st)
                  = getDailyUsage (c_usage clk) tok (dailyUsage st))
    by (apply getDailyUsage_same_key; congruence).
  rewrite Hres.
  rewrite (createSession_below L clk uuid req st data Hp Hlt).
  fold tok. rewrite Hsame. fold used. simpl.
  split; [|split; [|split]].
  - do 4 eexists. split; [reflexivity|]. simpl. split; reflexivity.
  - eexists. rewrite lookup_insert_eq. split; reflexivity.
  - rewrite lookup_insert_eq. rewrite Hsame. fold used. by rewrite Hk.
  - intros t Hne.
    erewrite getDailyUsage_rollover; [reflexivity|apply lookup_insert_eq|].
    simpl. congruence.
Qed.





(** ** Session expiry and heartbeat *)

(** C4, as stated, fails: when the clock ticks over between the handler's
    [Date.now()] and the [new Date()] it stores as [joinedAt], the session
    created has [expiresAt - joinedAt] one millisecond short of
    [MAX_SESSION_DURATION_MS]. *)
Lemma expiry_minus_joined_counterexample :
  exists s,
    sessions (snd (postSessions documented (ticking 1000) "s1" (request "u1")
                     logged_in)) !! "s1" = Some s
    /\ expiresAt s - joinedAt s <> MAX_SESSION_DURATION_MS documented.
Proof.
  eexists. split; [vm_compute; reflexivity|]. vm_compute. discriminate.
Qed.

(** C4, amended.  A session created by [POST /api/sessions] has [expiresAt]
    equal to the handler's [Date.now()] reading plus
    [MAX_SESSION_DURATION_MS] and [joinedAt] equal to a separate, later
    reading, so [expiresAt - joinedAt] is [MAX_SESSION_DURATION_MS] exactly
    when the two readings agree; and a heartbeat on a stored session
    replaces [lastActivity] only: the other fields of the session, every
    other session, the usage counters, the auth sessions and the timers are
    as before. *)
Theorem expiry_fixed_heartbeat_frame (L : Limits) (clk : Clock)
    (uuid : string) (req : Request) (st : State)
    (sid ch u : string) (j : Z) (lim : SessionLimitStatus) :
  fst (postSessions L clk uuid req st) = Created sid ch u j lim ->
  (exists s,
     sessions (snd (postSessions L clk uuid req st)) !! uuid = Some s
     /\ expiresAt s = c_now clk + MAX_SESSION_DURATION_MS L
     /\ joinedAt s = c_joined clk
     /\ (expiresAt s - joinedAt s = MAX_SESSION_DURATION_MS L
         <-> c_joined clk = c_now clk))
  /\ (forall (t : Z) (k : string) (st0 : State) (s0 : VoiceSession),
        sessions st0 !! k = Some s0 ->
        exists s1,
          fst (heartbeat t k st0) = HeartbeatOk t
          /\ sessions (snd (heartbeat t k st0)) !! k = Some s1
          /\ lastActivity s1 = t
          /\ id s1 = id s0 /\ channelId s1 = channelId s0
          /\ userId s1 = userId s0 /\ joinedAt s1 = joinedAt s0
          /\ expiresAt s1 = expiresAt s0
          /\ expiryTimeout s1 = expiryTimeout s0
          /\ (forall k', k' <> k ->
                sessions (snd (heartbeat t k st0)) !! k' = sessions st0 !! k')
          /\ dailyUsage (snd (heartbeat t k st0)) = dailyUsage st0
          /\ authSessions (snd (heartbeat t k st0)) = authSessions st0
          /\ timers (snd (heartbeat t k st0)) = timers st0
          /\ nextTimer (snd (heartbeat t k st0)) = nextTimer st0).
Proof.
  intros Hres. split.
  - revert Hres. unfold postSessions.
    destruct (requireAuth (c_auth clk) req st) as [[r|[]] st'] eqn:Ha.
    + apply requireAuth_refuses in Ha as [e ->]. discriminate.
    + unfold createSession.
      destruct (joinSessionSchema_parse (body req)) as [data|]; [|discriminate].
      destruct (decide _); [discriminate|]. simpl. intros _.
      eexists. rewrite lookup_insert_eq. split; [reflexivity|]. simpl.
      repeat split; lia.
  - intros t k st0 s0 Hk. unfold heartbeat. rewrite Hk. simpl.
    eexists. split; [reflexivity|].
    rewrite lookup_insert_eq. split; [reflexivity|]. simpl.
    repeat split; try reflexivity.
    intros k' Hne. by rewrite lookup_insert_ne.
Qed.

(** A session created with every reading at instant 1000. *)
Lemma expiry_fixed_heartbeat_frame_witness :
  exists s,
    sessions (snd (postSessions documented (at_instant 1000) "s1"
                     (request "u1") logged_in)) !! "s1" = Some s
    /\ expiresAt s = 1000 + 300000
    /\ joinedAt s = 1000.
Proof.
  assert (H : exists lim,
             fst (postSessions documented (at_instant 1000) "s1"
                    (request "u1") logged_in)
             = Created "s1" "ch1" "u1" 1000 lim)
    by (eexists; vm_compute; reflexivity).
  destruct H as [lim H].
  destruct (expiry_fixed_heartbeat_frame _ _ _ _ _ _ _ _ _ _ H)
    as [(s & Hs & He & Hj & _) _].
  exists s. split; [exact Hs|]. split; [exact He|exact Hj].
Defined.

(** ** The usage key *)

Lemma requireAuth_same_auth (now : Z) (req : Request) (st st' : State) :
  authSessions st' = authSessions st ->
  fst (requireAuth now req st) = inr tt ->
  fst (requireAuth now req st') = inr tt.
Proof.
  unfold requireAuth. intros ->.
  destruct (bearer req) as [tok|]; [|discriminate].
  destruct (Js.truthy tok); simpl; [|discriminate].
  destruct (authSessions st !! tok); [|discriminate].
  destruct (decide _); [discriminate|reflexivity].
Qed.

Lemma createSession_authSessions (L : Limits) (clk : Clock) (uuid : string)
    (req : Request) (st : State) :
  authSessions (snd (createSession L clk uuid req st)) = authSessions st.
Proof.
  unfold createSession.
  destruct (joinSessionSchema_parse (body req)); [|reflexivity].
  destruct (decide _); reflexivity.
Qed.

Lemma usageKey_authorization (req req' : Request) :
  authorization req = authorization req' -> usageKey req = usageKey req'.
Proof. unfold usageKey, bearer. by intros ->. Qed.

Lemma postSessions_usage_other (L : Limits) (clk : Clock) (uuid : string)
    (req : Request) (st : State) (k : string) :
  k <> usageKey req ->
  dailyUsage (snd (postSessions L clk uuid req st)) !! k = dailyUsage st !! k.
Proof.
  intros Hne. unfold postSessions.
  destruct (requireAuth (c_auth clk) req st) as [[r|[]] st'] eqn:Ha.
  - simpl. revert Ha. unfold requireAuth.
    destruct (bearer req) as [tok|]; [|by intros [= _ <-]].
    destruct (Js.truthy tok); simpl; [|by intros [= _ <-]].
    destruct (authSessions st !! tok); [|by intros [= _ <-]].
    destruct (decide _); [by intros [= _ <-]|discriminate].
  - assert (E : requireAuth (c_auth clk) req st = (inr tt, st)).
    { apply requireAuth_next. by rewrite Ha. }
    rewrite Ha in E. injection E as ->.
    by apply createSession_usage_other.
Qed.

Lemma createSession_reads_own_key (L : Limits) (clk : Clock) (uuid : string)
    (req : Request) (st : State) (k : string) (v : DailyUsage) :
  k <> usageKey req ->
  fst (createSession L clk uuid req
         (set_dailyUsage (<[k := v]> (dailyUsage st)) st))
  = fst (createSession L clk uuid req st).
Proof.
  intros Hne. unfold createSession.
  destruct (joinSessionSchema_parse (body req)); [|reflexivity].
  simpl. rewrite !getDailyUsage_other by done.
  destruct (decide _); reflexivity.
Qed.

Lemma postSessions_reads_own_key (L : Limits) (clk : Clock) (uuid : string)
    (req : Request) (st : State) (k : string) (v : DailyUsage) :
  k <> usageKey req ->
  fst (postSessions L clk uuid req
         (set_dailyUsage (<[k := v]> (dailyUsage st)) st))
  = fst (postSessions L clk uuid req st).
Proof.
  intros Hne. unfold postSessions, requireAuth. simpl.
  destruct (bearer req) as [tok|]; [|reflexivity].
  destruct (Js.truthy tok); simpl; [|reflexivity].
  destruct (authSessions st !! tok); [|reflexivity].
  destruct (decide _); [reflexivity|].
  by apply createSession_reads_own_key.
Qed.

Lemma getDailyUsage_lookup (t : Z) (k : string) (m m' : gmap string DailyUsage) :
  m' !! k = m !! k -> getDailyUsage t k m' = getDailyUsage t k m.
Proof. intros E. unfold getDailyUsage. by rewrite E. Qed.

(** The answer to a request depends on the state only through the auth
    sessions and the usage stored under the request's own key. *)
Lemma createSession_response_depends (L : Limits) (clk : Clock) (uuid : string)
    (req : Request) (st st' : State) :
  dailyUsage st' !! usageKey req = dailyUsage st !! usageKey req ->
  fst (createSession L clk uuid req st') = fst (createSession L clk uuid req st).
Proof.
  intros E.
  destruct (joinSessionSchema_parse (body req)) as [data|] eqn:Hp;
    [|unfold createSession; by rewrite Hp].
  pose proof (getDailyUsage_lookup (c_usage clk) _ _ _ E) as Eu.
  pose proof (getDailyUsage_lookup (c_incGet clk) _ _ _ E) as Eg.
  destruct (decide (count (getDailyUsage (c_usage clk) (usageKey req)
                             (dailyUsage st)) < MAX_CONNECTIONS_PER_DAY L))
    as [Hlt|Hge].
  - rewrite (createSession_below L clk uuid req st data Hp Hlt).
    rewrite (createSession_below L clk uuid req st' data Hp)
      by (rewrite Eu; exact Hlt).
    cbn [fst]. by rewrite Eg.
  - rewrite (createSession_at_limit L clk uuid req st data Hp) by lia.
    rewrite (createSession_at_limit L clk uuid req st' data Hp)
      by (rewrite Eu; lia).
    cbn [fst]. by rewrite Eu.
Qed.

Lemma postSessions_response_depends (L : Limits) (clk : Clock) (uuid : string)
    (req : Request) (st st' : State) :
  authSessions st' = authSessions st ->
  dailyUsage st' !! usageKey req = dailyUsage st !! usageKey req ->
  fst (postSessions L clk uuid req st') = fst (postSessions L clk uuid req st).
Proof.
  intros Ea Eu. unfold postSessions, requireAuth. rewrite Ea.
  destruct (bearer req) as [tok|]; [|reflexivity].
  destruct (Js.truthy tok); cbn [negb]; [|reflexivity].
  destruct (authSessions st !! tok); [|reflexivity].
  destruct (decide _); [reflexivity|].
  by apply createSession_response_depends.
Qed.

Lemma usageKey_bearing (t : string) (b : Body) :
  t <> "" -> usageKey (bearing t b) = t.
Proof.
  intros Hne. unfold usageKey.
  change (bearer (bearing t b)) with (Some t). by destruct t.
Qed.

(** C10.  The usage counter of a session request is the one stored under its
    bearer token, that is, under what is left of its [Authorization] header
    once the first ["Bearer "] is removed (for the header [`Bearer ${t}`] of
    a client, [t] itself); the [userId] of the body takes no part.  Two
    authorised, well-formed requests with the same [Authorization] header
    (whatever their bodies), made on the same day with room for both, are
    counted on one counter: the second reads what the first wrote and the
    stored count ends two above the count first read.  The counter of every
    other key is neither written by the requests nor read by them.  And
    requests with different tokens never share a counter: an authorised
    request with another token counts under another key, finds its counter
    as it was before the two requests, is answered as if they had not been
    made, and does not write their counter. *)
Theorem usage_keyed_by_token (L : Limits) (clk1 clk2 : Clock)
    (uuid1 uuid2 : string) (req1 req2 : Request) (st : State) (day : Z) :
  authorization req1 = authorization req2 ->
  fst (requireAuth (c_auth clk1) req1 st) = inr tt ->
  fst (requireAuth (c_auth clk2) req2 st) = inr tt ->
  is_Some (joinSessionSchema_parse (body req1)) ->
  is_Some (joinSessionSchema_parse (body req2)) ->
  getTodayDateKey (c_usage clk1) = day ->
  getTodayDateKey (c_incKey clk1) = day ->
  getTodayDateKey (c_incGet clk1) = day ->
  getTodayDateKey (c_usage clk2) = day ->
  getTodayDateKey (c_incKey clk2) = day ->
  getTodayDateKey (c_incGet clk2) = day ->
  let tok := usageKey req1 in
  let used := count (getDailyUsage (c_usage clk1) tok (dailyUsage st)) in
  used + 1 < MAX_CONNECTIONS_PER_DAY L ->
  let r1 := postSessions L clk1 uuid1 req1 st in
  let r2 := postSessions L clk2 uuid2 req2 (snd r1) in
  usageKey req2 = tok
  /\ count (getDailyUsage (c_usage clk2) (usageKey req2) (dailyUsage (snd r1)))
     = used + 1
  /\ (exists ch u j lim,
        fst r2 = Created uuid2 ch u j lim /\ usedToday lim = used + 2)
  /\ dailyUsage (snd r2) !! tok = Some {| dateKey := day; count := used + 2 |}
  /\ (forall k, k <> tok -> dailyUsage (snd r2) !! k = dailyUsage st !! k)
  /\ (forall k v, k <> tok ->
        fst (postSessions L clk1 uuid1 req1
               (set_dailyUsage (<[k := v]> (dailyUsage st)) st))
        = fst r1)
  /\ (exists header,
        authorization req1 = Some header
        /\ tok = Js.replace_first "Bearer " "" header)
  /\ (forall (t : string) (b : Body), t <> "" -> usageKey (bearing t b) = t)
  /\ (forall (clk3 : Clock) (uuid3 : string) (req3 : Request),
        fst (requireAuth (c_auth clk3) req3 st) = inr tt ->
        bearer req3 <> bearer req1 ->
        usageKey req3 <> tok
        /\ dailyUsage (snd r2) !! usageKey req3
           = dailyUsage st !! usageKey req3
        /\ fst (postSessions L clk3 uuid3 req3 (snd r2))
           = fst (postSessions L clk3 uuid3 req3 st)
        /\ dailyUsage (snd (postSessions L clk3 uuid3 req3 st)) !! tok
           = dailyUsage st !! tok).
Proof.
  intros Hhdr Ha1 Ha2 Hp1 Hp2 Hu1 Hk1 Hg1 Hu2 Hk2 Hg2 tok used Hroom r1 r2.
  assert (Htok : usageKey req2 = tok)
    by (symmetry; by apply usageKey_authorization).
  destruct (postSessions_below L clk1 uuid1 req1 st day Ha1 Hp1 Hu1 Hk1 Hg1
              ltac:(fold tok used; lia)) as (_ & _ & Hst1 & _).
  fold tok used r1 in Hst1.
  assert (Hread : count (getDailyUsage (c_usage clk2) (usageKey req2)
                           (dailyUsage (snd r1))) = used + 1).
  { rewrite Htok. erewrite getDailyUsage_stored; [|exact Hst1|simpl; congruence].
    reflexivity. }
  assert (Hauth1 : authSessions (snd r1) = authSessions st).
  { unfold r1. rewrite (postSessions_authorised _ _ _ _ _ Ha1).
    apply createSession_authSessions. }
  assert (Ha2' : fst (requireAuth (c_auth clk2) req2 (snd r1)) = inr tt)
    by (by apply (requireAuth_same_auth _ _ st)).
  assert (Hauth2 : authSessions (snd r2) = authSessions st).
  { unfold r2. rewrite (postSessions_authorised _ _ _ _ _ Ha2').
    by rewrite createSession_authSessions. }
  destruct (postSessions_below L clk2 uuid2 req2 (snd r1) day Ha2' Hp2 Hu2 Hk2
              Hg2 ltac:(rewrite Hread; lia))
    as ((ch & u & j & lim & Hres2 & Hused2 & _) & _ & Hst2 & _).
  fold r2 in Hres2, Hst2. rewrite Hread in Hused2, Hst2. rewrite Htok in Hst2.
  assert (Hothers : forall k, k <> tok ->
            dailyUsage (snd r2) !! k = dailyUsage st !! k).
  { intros k Hne. unfold r2.
    rewrite postSessions_usage_other by (by rewrite Htok).
    unfold r1. by rewrite postSessions_usage_other. }
  destruct (requireAuth_next _ _ _ Ha1) as (_ & Hb1 & _). fold tok in Hb1.
  split; [exact Htok|]. split; [exact Hread|].
  split; [|split; [|split; [|split; [|split; [|split]]]]].
  - exists ch, u, j, lim. split; [exact Hres2|]. rewrite Hused2. lia.
  - rewrite Hst2. do 2 f_equal. lia.
  - exact Hothers.
  - intros k v Hne. by apply postSessions_reads_own_key.
  - unfold bearer in Hb1. destruct (authorization req1) as [header|];
      [|discriminate].
    exists header. split; [reflexivity|]. cbn in Hb1. congruence.
  - intros t b. apply usageKey_bearing.
  - intros clk3 uuid3 req3 Ha3 Hdiff.
    destruct (requireAuth_next _ _ _ Ha3) as (_ & Hb3 & _).
    assert (Hne : usageKey req3 <> tok) by congruence.
    split; [exact Hne|]. split; [by apply Hothers|]. split.
    + apply postSessions_response_depends; [exact Hauth2|by apply Hothers].
    + apply postSessions_usage_other. congruence.
Qed.

(** Users "u1" and "u2" behind one token share the counter. *)
Lemma usage_keyed_by_token_witness :
  dailyUsage
    (snd (postSessions documented (at_instant 2000) "s2" (request "u2")
            (snd (postSessions documented (at_instant 1000) "s1"
                    (request "u1") logged_in)))) !! "tok-1"
  = Some {| dateKey := 0; count := 2 |}.
Proof.
  destruct (usage_keyed_by_token documented (at_instant 1000) (at_instant 2000)
              "s1" "s2" (request "u1") (request "u2") logged_in 0
              eq_refl eq_refl eq_refl
              (ex_intro _ _ eq_refl) (ex_intro _ _ eq_refl)
              eq_refl eq_refl eq_refl eq_refl eq_refl eq_refl
              ltac:(vm_compute; reflexivity))
    as (_ & _ & _ & H & _).
  exact H.
Defined.

End ServerFacts.

(* ===================================================================== *)
(** * Properties of the Connection State Machine                         *)
(* ===================================================================== *)

Module AgoraFacts.
Import Agora.

(** ** Running composed programs *)

Lemma exec_bind {A B : Type} (env : Env) (p : Prog A) (f : A -> Prog B)
    (w : World) :
  exec env (bind p f) w
  = match exec env p w with
    | (w', inl a) => exec env (f a) w'
    | (w', inr e) => (w', inr e)
    end.
Proof.
  revert w. induction p as [a|e|k IH|g k IH|X c k IH|X c k IH];
    intros w; simpl; auto.
Qed.

Lemma exec_try_catch {A : Type} (env : Env) (p : Prog A)
    (handler : Thrown -> Prog A) (w : World) :
  exec env (try_catch p handler) w
  = match exec env p w with
    | (w', inl a) => (w', inl a)
    | (w', inr e) => exec env (handler e) w'
    end.
Proof.
  revert w. induction p as [a|e|k IH|g k IH|X c k IH|X c k IH];
    intros w; simpl; auto.
Qed.

Section Every.
Context (P : (Hook -> Hook) -> Prop) (Q : Issued -> Prop).

Lemma Every_bind {A B : Type} (p : Prog A) (f : A -> Prog B) :
  Every P Q p -> (forall a, Every P Q (f a)) -> Every P Q (bind p f).
Proof.
  intros Hp Hf. induction Hp; simpl; try (constructor; auto); auto.
Qed.

Lemma Every_try_catch {A : Type} (p : Prog A) (handler : Thrown -> Prog A) :
  Every P Q p -> (forall e, Every P Q (handler e)) ->
  Every P Q (try_catch p handler).
Proof.
  intros Hp Hh. induction Hp; simpl; try (constructor; auto); auto.
Qed.

Lemma Every_settle {X : Type} (r : Result X) : Every P Q (settle r).
Proof. destruct r; constructor. Qed.

(** A segment of a program all of whose writes satisfy a property of the
    form "the observation [obs] is kept" keeps it, and so does what is left
    of the program. *)
Lemma run_segment_Every {A : Type} (I : Hook -> Prop) (env : Env)
    (p : Prog A) (w : World) :
  (forall f, P f -> forall h, I h -> I (f h)) ->
  Every P Q p -> I (hook w) ->
  I (hook (fst (run_segment env p w)))
  /\ match snd (run_segment env p w) with
     | Finished _ => True
     | Suspended _ k => forall r, Every P Q (k r)
     end.
Proof.
  intros HP Hp. revert w.
  induction Hp as [a|e|k Hk IH|f k Hf Hk IH|X c k Hc Hk IH|X c k Hc Hk IH];
    intros w Hw; simpl; auto.
  apply IH. simpl. by apply HP.
Qed.

Lemma exec_Every {A : Type} (I : Hook -> Prop) (env : Env)
    (p : Prog A) (w : World) :
  (forall f, P f -> forall h, I h -> I (f h)) ->
  Every P Q p -> I (hook w) -> I (hook (fst (exec env p w))).
Proof.
  intros HP Hp. revert w.
  induction Hp as [a|e|k Hk IH|f k Hf Hk IH|X c k Hc Hk IH|X c k Hc Hk IH];
    intros w Hw; simpl; auto.
  apply IH. simpl. by apply HP.
Qed.

End Every.

(** Programs are analysed one constructor at a time. *)
Ltac write_ok :=
  let h := fresh "h" in
  intros h; cbn; first [discriminate | congruence | tauto | reflexivity].

Ltac every_step :=
  match goal with
  | |- Every _ _ (mbind _ _) => apply Every_bind
  | |- Every _ _ (bind _ _) => apply Every_bind
  | |- Every _ _ (try_catch _ _) => apply Every_try_catch
  | |- Every _ _ (settle _) => apply Every_settle
  | |- Every _ _ (when ?b _) => destruct b; cbn
  | |- Every _ _ (match ?x with _ => _ end) => destruct x; cbn
  | |- Every _ _ _ => constructor
  | |- forall _, _ => intro
  | |- any_call _ => exact I
  | |- any_write _ => exact I
  | |- not_unpublish _ => reflexivity
  | |- no_connect _ => write_ok
  | |- keeps_status _ => write_ok
  end.

Ltac every := unfold mret, prog_ret; cbn; repeat every_step.

(** ** No function of the hook sets [connected] *)

Lemma join_no_connect (sdk : bool) (appId channelId : string)
    (token : option string) (uid : option Uid) :
  Every no_connect any_call (join sdk appId channelId token uid).
Proof. unfold join, join_attempt. destruct sdk; every. Qed.

Lemma leave_no_connect : Every no_connect any_call leave.
Proof. unfold leave, leave_teardown, leave_reset. every. Qed.

Lemma loadAudioFile_no_connect (sdk : bool) (file : string) :
  Every no_connect any_call (loadAudioFile sdk file).
Proof. unfold loadAudioFile. destruct sdk; every. Qed.

Lemma playAudio_no_connect : Every no_connect any_call playAudio.
Proof. unfold playAudio, startAudioTimeTracking. every. Qed.

Lemma stopAudio_no_connect : Every no_connect any_call stopAudio.
Proof. unfold stopAudio. every. Qed.

Lemma audioTimeTick_no_connect (ended : bool) :
  Every no_connect any_call (audioTimeTick ended).
Proof. unfold audioTimeTick. every. Qed.

(** ** The status under interleaving *)

Lemma settled_boot : settled boot.
Proof. split; [discriminate|constructor]. Qed.

Lemma start_settled (env : Env) (p : Prog unit) (m : Machine) :
  Every no_connect any_call p -> settled m -> settled (start env p m).
Proof.
  intros Hp [Hs Ht]. unfold start.
  assert (HP : forall f, no_connect f -> forall h,
             (status h = CONNECTED ->
              last_mapped (reported m) = Some "CONNECTED") ->
             status (f h) = CONNECTED ->
             last_mapped (reported m) = Some "CONNECTED").
  { intros f Hf h Hh Hc. apply Hh, Hf, Hc. }
  destruct (run_segment_Every no_connect any_call _ env p (world m) HP Hp Hs)
    as [H1 H2].
  destruct (run_segment env p (world m)) as [w [r|X c k]]; simpl in *.
  - split; [exact H1|exact Ht].
  - split; [exact H1|]. simpl.
    apply Forall_app. split; [exact Ht|]. constructor; [exact H2|constructor].
Qed.

Lemma mapped_CONNECTED (s : string) :
  String.eqb s "CONNECTED" = true -> mapped s = true.
Proof. unfold mapped. by intros ->. Qed.

(** What the connection-state handler does to the status. *)
Lemma handle_connection_state (env : Env) (cur prev : string)
    (reason : option string) (w : World) :
  status (hook (fst (run_segment env
                       (handle (connection_state_change cur prev reason)) w)))
  = (if String.eqb cur "CONNECTED" then CONNECTED
     else if String.eqb cur "CONNECTING" then CONNECTING
     else if String.eqb cur "RECONNECTING" then RECONNECTING
     else if String.eqb cur "DISCONNECTED" then DISCONNECTED
     else status (hook w))
  /\ exists r, snd (run_segment env
                      (handle (connection_state_change cur prev reason)) w)
               = Finished r.
Proof.
  cbn.
  destruct (String.eqb cur "CONNECTED"); [cbn; eauto|].
  destruct (String.eqb cur "CONNECTING"); [cbn; eauto|].
  destruct (String.eqb cur "RECONNECTING"); [cbn; eauto|].
  destruct (String.eqb cur "DISCONNECTED"); [|cbn; eauto].
  destruct reason as [r|]; [|cbn; eauto].
  cbn. destruct (Js.truthy r && negb (String.eqb r "LEAVE")); cbn; eauto.
Qed.

Lemma event_settled (env : Env) (e : ProviderEvent) (m : Machine) :
  settled m -> settled (step env (event e) m).
Proof.
  intros [Hs Ht]. unfold step.
  destruct (listening (hook (world m))); [|by split].
  destruct e as [cur prev reason| | |u|code msg].
  - unfold start, note_event. simpl world. simpl tasks. simpl reported.
    destruct (handle_connection_state env cur prev reason (world m))
      as [Hst [r Hr]].
    destruct (run_segment env _ (world m)) as [w q]. simpl in *. subst q.
    split; [|exact Ht]. simpl. rewrite Hst. unfold mapped.
    destruct (String.eqb cur "CONNECTED") eqn:E1.
    { apply String.eqb_eq in E1. by subst. }
    destruct (String.eqb cur "CONNECTING"); [discriminate|].
    destruct (String.eqb cur "RECONNECTING"); [discriminate|].
    destruct (String.eqb cur "DISCONNECTED"); [discriminate|].
    exact Hs.
  - split; [exact Hs|exact Ht].
  - split; [discriminate|exact Ht].
  - split; [exact Hs|exact Ht].
  - split; [exact Hs|exact Ht].
Qed.

Lemma step_settled (env : Env) (a : Action) (m : Machine) :
  settled m -> settled (step env a m).
Proof.
  intros Hm. destruct a as [sdk appId ch tok uid| |sdk file| | |ended|i answer|e].
  - apply start_settled; [|exact Hm].
    apply Every_bind; [apply join_no_connect|intros; constructor].
  - apply start_settled; [apply leave_no_connect|exact Hm].
  - apply start_settled; [apply loadAudioFile_no_connect|exact Hm].
  - apply start_settled; [apply playAudio_no_connect|exact Hm].
  - apply start_settled; [apply stopAudio_no_connect|exact Hm].
  - apply start_settled; [apply audioTimeTick_no_connect|exact Hm].
  - simpl. destruct (tasks m !! i) as [t|] eqn:Hi; [|exact Hm].
    destruct Hm as [Hs Ht].
    apply start_settled.
    + rewrite Forall_forall in Ht. apply Ht.
      eapply list_elem_of_lookup_2. exact Hi.
    + split; [exact Hs|]. simpl. by apply Forall_delete.
  - by apply event_settled.
Qed.

Lemma run_settled (trace : list (Env * Action)) (m : Machine) :
  settled m -> settled (run trace m).
Proof.
  revert m. induction trace as [|[env a] trace IH]; intros m Hm; [exact Hm|].
  simpl. apply IH. by apply step_settled.
Qed.

(** C1, as stated, fails: after [join] and the provider's [CONNECTED] event
    the provider reports [DISCONNECTING], which the handler's [switch] does
    not map; the status still holds [connected] although the most recent
    connection-state event did not report a connected state. *)
Lemma connected_after_disconnecting_counterexample :
  status (hook (world (run disconnecting_trace boot))) = CONNECTED
  /\ head (reported (run disconnecting_trace boot)) = Some "DISCONNECTING".
Proof. vm_compute. split; reflexivity. Qed.

(** C1, amended.  For every interleaving of calls of the hook's functions,
    resumptions of their suspended parts and provider events, the status
    holds [connected] only if the most recent connection-state event the
    handler maps to a status ([CONNECTED], [CONNECTING], [RECONNECTING],
    [DISCONNECTED]) reported [CONNECTED]; and no write of [join] makes the
    status [connected]. *)
Theorem connected_only_as_reported (trace : list (Env * Action)) :
  (status (hook (world (run trace boot))) = CONNECTED ->
   last_mapped (reported (run trace boot)) = Some "CONNECTED")
  /\ (forall sdk appId channelId token uid,
        Every no_connect any_call (join sdk appId channelId token uid)).
Proof.
  split.
  - apply (run_settled trace boot settled_boot).
  - apply join_no_connect.
Qed.

(** On the disconnecting trace the last mapped state is [CONNECTED]. *)
Lemma connected_only_as_reported_witness :
  last_mapped (reported (run disconnecting_trace boot)) = Some "CONNECTED".
Proof.
  apply (connected_only_as_reported disconnecting_trace).
  vm_compute. reflexivity.
Defined.

(** ** [join] *)

Lemma join_not_ready (env : Env) (appId channelId : string)
    (token : option string) (uid : option Uid) (w : World) :
  exec env (join false appId channelId token uid) w
  = (w, inr (ErrorObj "Agora SDK not loaded")).
Proof. reflexivity. Qed.

Lemma last_push_log (m : string) (k : LogType) (h : Hook) :
  last (logs (push_log m k h)) = Some {| message := m; type := k |}.
Proof. unfold push_log. simpl. apply last_snoc. Qed.

(** One provider answer at a time. *)
Ltac answer :=
  match goal with
  | |- context [settle ?r] =>
      lazymatch r with
      | Resolved _ => fail
      | Rejected _ => fail
      | _ => let E := fresh "E" in destruct r eqn:E; cbn
      end
  end.

(** The fields of a hook state, named. *)
Ltac open_hook h :=
  destruct h as [st mu lg cr li la vi af ap ati an ipl ipa av].

Ltac rejected E :=
  split; [reflexivity|]; cbn; unfold rejection; cbn; rewrite E;
  split; [reflexivity|]; split; [reflexivity|]; apply last_snoc.

Lemma join_outcome (env : Env) (appId channelId : string)
    (token : option string) (uid : option Uid) (w : World) :
  exists new,
    issued (fst (exec env (join true appId channelId token uid) w))
    = (new ++ issued w)%list
    /\ match snd (exec env (join true appId channelId token uid) w) with
       | inl _ => Forall (eq None) (answers env (length (issued w)) new)
       | inr e =>
           head (answers env (length (issued w)) new) = Some (Some e)
           /\ status (hook (fst (exec env (join true appId channelId token uid) w)))
              = ERROR
           /\ last (logs (hook (fst (exec env (join true appId channelId
                                                 token uid) w))))
              = Some {| message := message_or e "Failed to join channel";
                        type := error |}
       end.
Proof.
  destruct w as [h l]. open_hook h. unfold join, join_attempt. cbn.
  destruct cr as [c0|]; cbn.
  - answer; [|eexists [_]; rejected E].
    answer; [|eexists [_; _]; rejected E0].
    answer; [|eexists [_; _; _]; rejected E1].
    answer; [|eexists [_; _; _; _]; rejected E2].
    eexists [_; _; _; _]. split; [reflexivity|]. cbn. unfold rejection. cbn.
    rewrite E, E0, E1, E2. repeat constructor.
  - answer; [|eexists [_]; rejected E].
    answer; [|eexists [_; _]; rejected E0].
    answer; [|eexists [_; _; _]; rejected E1].
    answer; [|eexists [_; _; _; _]; rejected E2].
    answer; [|eexists [_; _; _; _; _]; rejected E3].
    eexists [_; _; _; _; _]. split; [reflexivity|]. cbn. unfold rejection. cbn.
    rewrite E, E0, E1, E2, E3. repeat constructor.
Qed.

(** ** Before the SDK has loaded *)

Lemma idle_boot : idle boot.
Proof. repeat split. Qed.

Lemma step_idle (env : Env) (a : Action) (m : Machine) :
  sdk_absent a -> idle m -> idle (step env a m).
Proof.
  intros Ha (Hs & Hc & Hl & Hm & Hf & Ht).
  destruct m as [[h l] ts rep]. open_hook h. simpl in *. subst.
  destruct a as [sdk appId ch tok uid| |sdk file| | |ended|i answer|e];
    simpl in Ha; subst; cbn; repeat split.
Qed.

Lemma run_idle (trace : list (Env * Action)) (m : Machine) :
  Forall (fun ea => sdk_absent (snd ea)) trace -> idle m -> idle (run trace m).
Proof.
  revert m. induction trace as [|[env a] trace IH]; intros m Hall Hm;
    [exact Hm|].
  inversion Hall as [|? ? Ha Hrest]; subst. simpl.
  apply IH; [exact Hrest|]. by apply step_idle.
Qed.

(** C7.  Called while [window.AgoraRTC] is undefined, [join] rejects with
    the error "Agora SDK not loaded" and changes nothing; as long as no call
    has ever found the SDK loaded the status is [disconnected], whatever was
    called and whatever the provider reported.  Called with the SDK loaded,
    [join] resolves only if every provider call it made succeeded; otherwise
    it rejects with the very value [e] the failing call threw, the status is
    [error], and the last log entry is [e]'s message (or "Failed to join
    channel" when [e] is not an [Error]). *)
Theorem join_not_ready_or_failed (env : Env) (appId channelId : string)
    (token : option string) (uid : option Uid) (w : World)
    (trace : list (Env * Action)) :
  exec env (join false appId channelId token uid) w
  = (w, inr (ErrorObj "Agora SDK not loaded"))
  /\ (Forall (fun ea => sdk_absent (snd ea)) trace ->
      status (hook (world (run trace boot))) = DISCONNECTED)
  /\ exists new,
       issued (fst (exec env (join true appId channelId token uid) w))
       = (new ++ issued w)%list
       /\ match snd (exec env (join true appId channelId token uid) w) with
          | inl _ => Forall (eq None) (answers env (length (issued w)) new)
          | inr e =>
              head (answers env (length (issued w)) new) = Some (Some e)
              /\ status (hook (fst (exec env (join true appId channelId
                                              token uid) w))) = ERROR
              /\ last (logs (hook (fst (exec env (join true appId channelId
                                                   token uid) w))))
                 = Some {| message := message_or e "Failed to join channel";
                           type := error |}
          end.
Proof.
  split; [reflexivity|]. split.
  - intros Hall. apply (run_idle trace boot Hall idle_boot).
  - apply join_outcome.
Qed.

(** Two calls of [join] and one of [leave] before the SDK has loaded. *)
Lemma join_not_ready_or_failed_witness :
  status (hook (world (run [(failing, do_join false "app" "ch1" None None);
                            (failing, do_leave);
                            (failing, do_join false "app" "ch1" None None)]
                         boot)))
  = DISCONNECTED.
Proof.
  apply (join_not_ready_or_failed failing "app" "ch1" None None
           {| hook := initial; issued := [] |}).
  repeat constructor.
Defined.

(** ** [leave] *)

Lemma leave_teardown_keeps_status : Every keeps_status any_call leave_teardown.
Proof. unfold leave_teardown. every. Qed.

Lemma leave_never_throws (env : Env) (w : World) :
  snd (exec env leave w) = inl tt.
Proof.
  unfold leave. rewrite exec_try_catch.
  destruct (exec env _ w) as [w' [[]|e]]; reflexivity.
Qed.

Lemma leave_resets_or_keeps (env : Env) (w : World) :
  status (hook (fst (exec env leave w))) = DISCONNECTED
  \/ status (hook (fst (exec env leave w))) = status (hook w).
Proof.
  unfold leave. rewrite exec_try_catch.
  change (leave_teardown ;; leave_reset)
    with (bind leave_teardown (fun _ => leave_reset)).
  rewrite exec_bind.
  pose proof (exec_Every keeps_status any_call
                (fun h => status h = status (hook w)) env leave_teardown w)
    as Hkeep.
  destruct (exec env leave_teardown w) as [w1 [[]|e]]; simpl in Hkeep.
  - left. reflexivity.
  - right. cbn. apply Hkeep; [|apply leave_teardown_keeps_status|reflexivity].
    intros f Hf h Hh. by rewrite Hf.
Qed.

(** One answer of a provider known to be tolerable. *)
Ltac calm H :=
  match goal with
  | |- context [settle (?env ?n ?X ?c)] =>
      let x := fresh "x" in
      let E := fresh "E" in
      let U := fresh "U" in
      destruct (H n X c) as [[x E]|U];
      [rewrite E; cbn
      |first [discriminate U | destruct (env n X c); cbn]]
  end.

Lemma leave_tolerated (env : Env) (w : World) :
  tolerable env ->
  status (hook (fst (exec env leave w))) = DISCONNECTED
  /\ clientRef (hook (fst (exec env leave w))) = None
  /\ audioFileTrackRef (hook (fst (exec env leave w))) = None
  /\ localAudioTrackRef (hook (fst (exec env leave w))) = None.
Proof.
  intros H. destruct w as [h l]. open_hook h.
  unfold leave, leave_teardown, leave_reset. cbn.
  destruct af as [t|]; cbn; [calm H|].
  - destruct cr as [c|]; cbn.
    + destruct ap; cbn; [calm H|]; calm H;
        (destruct la as [t'|]; cbn; [do 2 calm H|]); calm H;
        repeat split.
    + calm H. destruct la as [t'|]; cbn; [do 2 calm H|]; repeat split.
  - destruct la as [t'|]; cbn; [do 2 calm H|];
      (destruct cr as [c|]; cbn; [calm H|]); repeat split.
Qed.

Lemma leave_at_rest (env : Env) (w : World) :
  clientRef (hook w) = None ->
  audioFileTrackRef (hook w) = None ->
  localAudioTrackRef (hook w) = None ->
  status (hook (fst (exec env leave w))) = DISCONNECTED
  /\ issued (fst (exec env leave w)) = issued w.
Proof.
  destruct w as [h l]. open_hook h. simpl. intros -> -> ->.
  split; reflexivity.
Qed.

(** C3, as stated, fails: on a connected hook, with a provider whose calls
    fail, [leave()] called twice in a row returns without error both times
    and the status is [connected] after each call. *)
Lemma leave_keeps_connected_counterexample :
  snd (exec failing leave connected_world) = inl tt
  /\ status (hook (fst (exec failing leave connected_world))) = CONNECTED
  /\ snd (exec failing leave (fst (exec failing leave connected_world)))
     = inl tt
  /\ status (hook (fst (exec failing leave
                          (fst (exec failing leave connected_world)))))
     = CONNECTED.
Proof. vm_compute. repeat split. Qed.

(** C3, amended.  [leave()] never throws, whatever the state and whatever
    the provider answers, and it either resets the status to [disconnected]
    or, when a teardown call other than [unpublish] threw, leaves the status
    as it was.  When the provider's teardown calls succeed (a failing
    [unpublish] apart) the status is [disconnected] after the call, and a
    second call right after it makes no provider call and leaves the status
    [disconnected] again. *)
Theorem leave_twice (env1 env2 : Env) (w : World) :
  snd (exec env1 leave w) = inl tt
  /\ snd (exec env2 leave (fst (exec env1 leave w))) = inl tt
  /\ (status (hook (fst (exec env1 leave w))) = DISCONNECTED
      \/ status (hook (fst (exec env1 leave w))) = status (hook w))
  /\ (tolerable env1 ->
      status (hook (fst (exec env1 leave w))) = DISCONNECTED
      /\ status (hook (fst (exec env2 leave (fst (exec env1 leave w)))))
         = DISCONNECTED
      /\ issued (fst (exec env2 leave (fst (exec env1 leave w))))
         = issued (fst (exec env1 leave w))).
Proof.
  split; [apply leave_never_throws|].
  split; [apply leave_never_throws|].
  split; [apply leave_resets_or_keeps|].
  intros H. destruct (leave_tolerated env1 w H) as (Hs & Hc & Hf & Hm).
  split; [exact Hs|]. by apply leave_at_rest.
Qed.

(** [leave] twice in a row on the connected hook, all calls succeeding. *)
Lemma leave_twice_witness :
  status (hook (fst (exec cooperative leave connected_world))) = DISCONNECTED
  /\ status (hook (fst (exec cooperative leave
                          (fst (exec cooperative leave connected_world)))))
     = DISCONNECTED.
Proof.
  destruct (leave_twice cooperative cooperative connected_world)
    as (_ & _ & _ & H).
  destruct (H ltac:(intros n X c; left; destruct c; eexists; reflexivity))
    as (H1 & H2 & _).
  split; [exact H1|exact H2].
Defined.

(** ** File-sourced playback *)

(** Whatever the state and the provider's answers, [loadAudioFile] issues no
    [unpublish]. *)
Lemma loadAudioFile_never_unpublishes (sdk : bool) (file : string) :
  Every any_write not_unpublish (loadAudioFile sdk file).
Proof. unfold loadAudioFile. destruct sdk; every. Qed.

(** [leave] and [stopAudio], from the same state, do unpublish the file
    track (track 5 of client 0) before anything else is done with it. *)
Example leave_unpublishes_the_file_track :
  published_file_tracks cooperative (issued first_file_world) = [(0, 5)]%nat
  /\ published_file_tracks cooperative
       (issued (fst (exec cooperative leave first_file_world))) = []
  /\ published_file_tracks cooperative
       (issued (fst (exec cooperative stopAudio first_file_world))) = [].
Proof. vm_compute. repeat split. Qed.

(** C5 fails on the code.  On a joined client, file [a.mp3] is loaded and
    played (its track, 5, is published); [b.mp3] is then loaded and played.
    [loadAudioFile] stops and closes track 5 and clears the published flag
    without ever calling [unpublish], so [playAudio] publishes the new
    track, 12, beside it: two file-sourced tracks are published at once and
    no [unpublish] was ever issued. *)
Theorem two_file_tracks_published :
  file_tracks cooperative (issued two_files_world) = [12; 5]%nat
  /\ published_file_tracks cooperative (issued two_files_world)
     = [(0, 12); (0, 5)]%nat
  /\ existsb is_unpublish (issued two_files_world) = false
  /\ (forall sdk file, Every any_write not_unpublish (loadAudioFile sdk file)).
Proof.
  split; [vm_compute; reflexivity|].
  split; [vm_compute; reflexivity|].
  split; [vm_compute; reflexivity|].
  apply loadAudioFile_never_unpublishes.
Qed.

End AgoraFacts.

(* ===================================================================== *)
(** * Properties of the Expiry Coordinator                               *)
(* ===================================================================== *)

Module PageFacts.
Import Page.

(** ** Renders *)

Lemma handleLeave_frame (captured : option string) (p : Page) :
  timeRemaining (handleLeave captured p) = timeRemaining p
  /\ isConnected (handleLeave captured p) = isConnected p
  /\ countdownDeps (handleLeave captured p) = countdownDeps p
  /\ expiryDeps (handleLeave captured p) = expiryDeps p
  /\ (sessionId (handleLeave captured p) = sessionId p
      \/ sessionId (handleLeave captured p) = None).
Proof.
  unfold handleLeave. destruct captured as [s|]; [destruct (Js.truthy s)|];
    simpl; repeat split; auto.
Qed.

Lemma countdownEffect_frame (p : Page) :
  timeRemaining (countdownEffect p) = timeRemaining p
  /\ isConnected (countdownEffect p) = isConnected p
  /\ sessionId (countdownEffect p) = sessionId p
  /\ expiryDeps (countdownEffect p) = expiryDeps p
  /\ countdownDeps (countdownEffect p)
     = Some (isConnected p, bool_decide (timeRemaining p <> None)).
Proof.
  unfold countdownEffect. destruct (decide _) as [E|_]; simpl; by repeat split.
Qed.

Lemma expiryEffect_frame (p : Page) :
  timeRemaining (expiryEffect p) = timeRemaining p
  /\ isConnected (expiryEffect p) = isConnected p
  /\ countdownDeps (expiryEffect p) = countdownDeps p
  /\ expiryDeps (expiryEffect p)
     = Some (timeRemaining p, isConnected p, sessionId p)
  /\ (sessionId (expiryEffect p) = sessionId p
      \/ sessionId (expiryEffect p) = None).
Proof.
  unfold expiryEffect. destruct (decide _) as [E|_]; [by repeat split; auto|].
  destruct (_ && _); [|simpl; by repeat split; auto].
  match goal with
  | |- context [handleLeave ?c ?q] =>
      destruct (handleLeave_frame c q) as (-> & -> & -> & -> & Hs)
  end.
  simpl in *. by repeat split.
Qed.

Lemma commit_at_rest (p : Page) : at_rest p -> commit p = p.
Proof.
  intros [Hc He]. unfold commit.
  assert (E : countdownEffect p = p).
  { unfold countdownEffect. by destruct (decide _). }
  rewrite E. unfold expiryEffect. by destruct (decide _).
Qed.

Lemma commit_frame (p : Page) :
  timeRemaining (commit p) = timeRemaining p
  /\ isConnected (commit p) = isConnected p
  /\ countdownDeps (commit p)
     = Some (isConnected p, bool_decide (timeRemaining p <> None))
  /\ expiryDeps (commit p) = Some (timeRemaining p, isConnected p, sessionId p)
  /\ (sessionId (commit p) = sessionId p \/ sessionId (commit p) = None).
Proof.
  unfold commit.
  destruct (countdownEffect_frame p) as (Ht & Hi & Hs & He & Hc).
  destruct (expiryEffect_frame (countdownEffect p)) as (Ht' & Hi' & Hc' & He' & Hs').
  rewrite Ht', Hi', Hc', He', Hc, Ht, Hi, Hs. repeat split.
  destruct Hs' as [->| ->]; auto.
Qed.

(** After the two renders of [render] every effect finds its dependencies
    unchanged: a third render would do nothing. *)
Lemma render_settles (p : Page) : commit (render p) = render p.
Proof.
  apply commit_at_rest. unfold render, at_rest.
  destruct (commit_frame p) as (Ht & Hi & Hc & He & Hs).
  destruct (commit_frame (commit p)) as (Ht' & Hi' & Hc' & He' & Hs').
  rewrite Ht', Hi', Hc', He'. split; [reflexivity|].
  destruct Hs as [Hs|Hs].
  - (* the first render did not clear the session id: the second found its
       dependencies unchanged and did nothing *)
    assert (E : commit (commit p) = commit p).
    { apply commit_at_rest. split; [by rewrite Hc, Ht, Hi|].
      by rewrite He, Ht, Hi, Hs. }
    rewrite E. by rewrite Hs.
  - destruct Hs' as [Hs'|Hs']; by rewrite Hs', ?Hs.
Qed.

(** When the countdown of a connected page with no session id reaches zero,
    the expiry effect runs once: one notice, one call of [leave()]. *)
Example expiry_without_session :
  let before :=
    run [connection true]
      {| sessionId := None; timeRemaining := Some 1000; isConnected := false;
         heartbeatRef := false; countdownRef := false;
         countdownDeps := None; expiryDeps := None; pending := [];
         notices := 0; leaveCalls := 0; deleteRequests := [] |} in
  let after := step tick before in
  countdownRef before = true
  /\ notices after = 1%nat /\ leaveCalls after = 1%nat
  /\ pending after = [AwaitLeave].
Proof. vm_compute. repeat split. Qed.

Lemma countdownEffect_at_rest (p : Page) :
  countdownDeps p = Some (isConnected p, bool_decide (timeRemaining p <> None)) ->
  countdownEffect p = p.
Proof. intros H. unfold countdownEffect. by destruct (decide _). Qed.

(** The expiry effect when its dependencies changed, the countdown is at
    zero and the page is connected. *)
Lemma expiryEffect_fires (p : Page) :
  expiryDeps p <> Some (timeRemaining p, isConnected p, sessionId p) ->
  timeRemaining p = Some 0 -> isConnected p = true ->
  expiryEffect p
  = handleLeave (sessionId p)
      {| sessionId := sessionId p; timeRemaining := timeRemaining p;
         isConnected := isConnected p;
         heartbeatRef := heartbeatRef p; countdownRef := countdownRef p;
         countdownDeps := countdownDeps p;
         expiryDeps := Some (timeRemaining p, isConnected p, sessionId p);
         pending := pending p;
         notices := S (notices p); leaveCalls := leaveCalls p;
         deleteRequests := deleteRequests p |}.
Proof.
  intros Hd Ht Hc. unfold expiryEffect.
  destruct (decide _) as [E|_]; [contradiction|].
  rewrite Ht, Hc. rewrite bool_decide_eq_true_2 by reflexivity. reflexivity.
Qed.

(** The same holds from every state: whenever a connected page at rest holds
    a session id and its armed countdown has at most one second left, the
    tick that brings it to zero runs the expiry effect twice. *)
Lemma expiry_with_session (p : Page) (s : string) (t : Z) :
  at_rest p ->
  isConnected p = true -> countdownRef p = true ->
  timeRemaining p = Some t -> 0 < t <= 1000 ->
  sessionId p = Some s -> Js.truthy s = true ->
  notices (step tick p) = S (S (notices p))
  /\ leaveCalls (step tick p) = S (leaveCalls p)
  /\ pending (step tick p) = (pending p ++ [AwaitDelete s; AwaitLeave])%list
  /\ deleteRequests (step tick p) = s :: deleteRequests p.
Proof.
  destruct p as [sid tr ic hb cd cdeps edeps pd n lc dr].
  intros [Hc He]. cbn [isConnected countdownRef timeRemaining sessionId
                        countdownDeps expiryDeps] in *.
  intros -> -> -> Ht -> Hs. subst cdeps edeps.
  assert (Hnn : forall z : Z, bool_decide (Some z <> None) = true)
    by (intros z; by apply bool_decide_eq_true_2).
  rewrite Hnn.
  unfold step, apply. cbn [countdownRef timeRemaining].
  rewrite decide_True by lia.
  unfold render.
  (* first render: the countdown is unchanged, the expiry effect runs *)
  set (p1 := Build_Page _ _ _ _ _ _ _ _ _ _ _).
  assert (E1 : commit p1
               = {| sessionId := None; timeRemaining := Some 0;
                    isConnected := true;
                    heartbeatRef := false; countdownRef := false;
                    countdownDeps := Some (true, true);
                    expiryDeps := Some (Some 0, true, Some s);
                    pending := pd ++ [AwaitDelete s];
                    notices := S n; leaveCalls := lc;
                    deleteRequests := s :: dr |}).
  { unfold commit. rewrite countdownEffect_at_rest
      by (unfold p1; cbn [countdownDeps isConnected timeRemaining];
          by rewrite Hnn).
    rewrite expiryEffect_fires; [|unfold p1; simpl; intros [= E]; lia|done..].
    unfold p1, handleLeave. cbn [sessionId]. by rewrite Hs. }
  rewrite E1. clear E1 p1.
  (* second render: the session id was cleared, the effect runs again *)
  set (p2 := Build_Page _ _ _ _ _ _ _ _ _ _ _).
  unfold commit. rewrite countdownEffect_at_rest
    by (unfold p2; cbn [countdownDeps isConnected timeRemaining];
        by rewrite Hnn).
  rewrite expiryEffect_fires; [|unfold p2; simpl; discriminate|done..].
  unfold p2, handleLeave.
  cbn [sessionId notices leaveCalls pending deleteRequests].
  rewrite <- app_assoc. by repeat split.
Qed.

(** C6 fails on the code.  A session ["s1"] is created with 1000 ms left
    and the hook connects; at the first tick the countdown reaches 0.  The
    expiry effect runs and calls [handleLeave], which clears [sessionId]
    before its first [await]; that state change gives [handleLeave] a new
    identity, the effect's dependencies have changed, and with the countdown
    still 0 and the status still connected the effect runs a second time:
    two session-expired notices and two calls of [handleLeave], of which the
    second calls [leave()] at once and the first calls it again when its
    [DELETE] request has settled. *)
Theorem expiry_runs_teardown_twice :
  let before := run [joined "s1" 1000; connection true] mounted in
  let after := step tick before in
  let later := step (settle 0) after in
  (timeRemaining before = Some 1000 /\ isConnected before = true
   /\ countdownRef before = true /\ notices before = 0%nat
   /\ leaveCalls before = 0%nat)
  /\ (timeRemaining after = Some 0 /\ isConnected after = true
      /\ notices after = 2%nat /\ leaveCalls after = 1%nat
      /\ pending after = [AwaitDelete "s1"; AwaitLeave]
      /\ deleteRequests after = ["s1"])
  /\ (notices later = 2%nat /\ leaveCalls later = 2%nat
      /\ pending later = [AwaitLeave; AwaitLeave]).
Proof. vm_compute. repeat split. Qed.

End PageFacts.

(* ===================================================================== *)
(** * Properties of the audio relay supervisor                           *)
(* ===================================================================== *)

Module BotFacts.
Import Bot.

(** ** The startup handshake *)


Lemma ready_passes_through (msg : BotMessage) (m : Manager) :
  type msg = "ready" -> dispatch msg (mirror msg m) = m.
Proof.
  intros Ht. unfold dispatch, mirror. rewrite Ht. reflexivity.
Qed.

Lemma resolveOnce_process (call : nat) (v : bool) (m : Manager) :
  process (resolveOnce call v m) = process m
  /\ lastError (resolveOnce call v m) = lastError m
  /\ killedPids (resolveOnce call v m) = killedPids m
  /\ commands (resolveOnce call v m) = commands m
  /\ pendingCallbacks (resolveOnce call v m) = pendingCallbacks m.
Proof.
  unfold resolveOnce. destruct (starts m !! call) as [s|]; [|by repeat split].
  destruct (resolved s); by repeat split.
Qed.

Lemma resolveOnce_other (call call' : nat) (v : bool) (m : Manager) :
  call' <> call ->
  starts (resolveOnce call' v m) !! call = starts m !! call.
Proof.
  intros Hne. unfold resolveOnce.
  destruct (starts m !! call') as [s|]; [|reflexivity].
  destruct (resolved s); [reflexivity|]. simpl.
  by apply list_lookup_insert_ne.
Qed.

Lemma resolveOnce_settled (call call' : nat) (v : bool) (m : Manager)
    (s : StartCall) :
  starts m !! call = Some s -> resolved s = true ->
  starts (resolveOnce call' v m) !! call = Some s.
Proof.
  intros Hs Hr. destruct (decide (call' = call)) as [->|Hne].
  - unfold resolveOnce. rewrite Hs, Hr. exact Hs.
  - by rewrite resolveOnce_other.
Qed.

Lemma resolveOnce_pending (call : nat) (v : bool) (m : Manager) (s : StartCall) :
  starts m !! call = Some s -> resolved s = false ->
  starts (resolveOnce call v m) !! call
  = Some {| resolved := true; timeoutArmed := false; outcome := Some v |}.
Proof.
  intros Hs Hr. unfold resolveOnce. rewrite Hs, Hr. simpl.
  apply list_lookup_insert_eq. by eapply lookup_lt_Some.
Qed.


Section Handshake.
Context (msg : BotMessage) (call : nat).
Hypothesis Hready : type msg = "ready".
Hypothesis Hsdk : fields msg !! "sdk_available" <> Some (JBool true).








End Handshake.



(** ** The command/response path *)

Lemma commands_killProcess (m : Manager) :
  commands (killProcess m) = commands m.
Proof. unfold killProcess. by destruct (process m). Qed.

Lemma commands_readyHandler (h : nat) (msg : BotMessage) (m : Manager) :
  commands (readyHandler h msg m) = commands m.
Proof.
  unfold readyHandler.
  destruct (String.eqb (type msg) "ready"); [|reflexivity].
  destruct (negb _);
    match goal with
    | |- commands (resolveOnce ?c ?v ?x) = _ =>
        destruct (resolveOnce_process c v x) as (_ & _ & _ & -> & _)
    end; [|reflexivity].
  by rewrite commands_killProcess.
Qed.

Lemma commands_handlers (msg : BotMessage) (hs : list nat) (m : Manager) :
  commands (fold_left (fun m h => readyHandler h msg m) hs m) = commands m.
Proof.
  revert m. induction hs as [|h hs IH]; intros m; [reflexivity|].
  simpl. by rewrite IH, commands_readyHandler.
Qed.

Lemma commands_mirror (msg : BotMessage) (m : Manager) :
  commands (mirror msg m) = commands m
  /\ pendingCallbacks (mirror msg m) = pendingCallbacks m.
Proof. unfold mirror. repeat case_match; by split. Qed.

(** Settling a command (its timer cleared, its promise resolved) keeps every
    command armed or resolved. *)
Lemma settle_armed (c : nat) (v : option BotMessage) (pc : gmap string nat)
    (m : Manager) :
  armed m ->
  armed (resolveCommand c v (set_pendingCallbacks pc (clearCommandTimer c m))).
Proof.
  intros Ha c' cmd' Hl Hn. revert Hl.
  unfold resolveCommand, clearCommandTimer.
  destruct (commands m !! c) as [cmd|] eqn:Hc; simpl.
  - assert (Hlt : (c < length (commands m))%nat) by (by eapply lookup_lt_Some).
    rewrite list_lookup_insert_eq by exact Hlt. simpl.
    rewrite list_insert_insert_eq.
    destruct (decide (c' = c)) as [->|Hne].
    + rewrite list_lookup_insert_eq by exact Hlt. intros [= <-].
      simpl in Hn. by destruct (answer cmd).
    + rewrite list_lookup_insert_ne by done. intros Hl. by eapply Ha.
  - rewrite Hc. intros Hl. by eapply Ha.
Qed.

Lemma settle_result (c : nat) (v : option BotMessage) (pc : gmap string nat)
    (m : Manager) (cmd : Command) :
  commands m !! c = Some cmd ->
  commands (resolveCommand c v (set_pendingCallbacks pc (clearCommandTimer c m)))
    !! c
  = Some {| responseType := responseType cmd; timeoutMs := timeoutMs cmd;
            timerArmed := false;
            answer := Some (default v (answer cmd)) |}
  /\ pendingCallbacks
       (resolveCommand c v (set_pendingCallbacks pc (clearCommandTimer c m)))
     = pc.
Proof.
  intros Hc. unfold resolveCommand, clearCommandTimer. rewrite Hc. simpl.
  assert (Hlt : (c < length (commands m))%nat) by (by eapply lookup_lt_Some).
  rewrite list_lookup_insert_eq by exact Hlt. simpl.
  rewrite list_insert_insert_eq, list_lookup_insert_eq by exact Hlt.
  split; [|reflexivity]. by destruct (answer cmd).
Qed.

Lemma sendCommandWithResponse_armed (writable : bool) (line : Line)
    (rt : string) (timeout : option Z) (m : Manager) :
  armed m -> armed (snd (sendCommandWithResponse writable line rt timeout m)).
Proof.
  intros Ha. unfold sendCommandWithResponse.
  set (new := {| responseType := rt;
                 timeoutMs := default DEFAULT_TIMEOUT_MS timeout;
                 timerArmed := true; answer := None |}).
  set (m2 := set_pendingCallbacks _ _).
  assert (H2 : armed m2).
  { intros i cmd Hl Hn.
    change (commands m2) with (commands m ++ [new])%list in Hl.
    apply lookup_app_Some in Hl as [Hl|[_ Hl]]; [by eapply Ha|].
    apply list_lookup_singleton_Some in Hl as [_ <-]. reflexivity. }
  unfold sendCommand. change (process m2) with (process m).
  destruct (process m); [destruct writable|]; cbn [snd].
  - exact H2.
  - by apply settle_armed.
  - by apply settle_armed.
Qed.

Lemma clearCommandTimer_callbacks (c : nat) (pc : gmap string nat)
    (m : Manager) :
  clearCommandTimer c (set_pendingCallbacks pc m)
  = set_pendingCallbacks pc (clearCommandTimer c m).
Proof.
  unfold clearCommandTimer.
  change (commands (set_pendingCallbacks pc m)) with (commands m).
  by destruct (commands m !! c).
Qed.

Lemma handleMessage_armed (msg : BotMessage) (m : Manager) :
  armed m -> armed (handleMessage msg m).
Proof.
  intros Ha. unfold handleMessage.
  intros c cmd. rewrite commands_handlers. revert c cmd.
  change (armed (dispatch msg (mirror msg m))).
  destruct (commands_mirror msg m) as [Hc Hp].
  assert (Hm : armed (mirror msg m)) by (intros c cmd; rewrite Hc; apply Ha).
  unfold dispatch. destruct (endsWith _ _); [|exact Hm].
  destruct (pendingCallbacks (mirror msg m) !! type msg); [|exact Hm].
  unfold commandCallback. rewrite clearCommandTimer_callbacks.
  by apply settle_armed.
Qed.

Lemma onCommandTimeout_armed (c : nat) (m : Manager) :
  armed m -> armed (onCommandTimeout c m).
Proof.
  intros Ha. unfold onCommandTimeout.
  destruct (commands m !! c) as [cmd|]; [|exact Ha].
  destruct (timerArmed cmd); [|exact Ha]. by apply settle_armed.
Qed.

Lemma commands_onClose (call : nat) (code : option Z) (m : Manager) :
  commands (onClose call code m) = commands m.
Proof.
  unfold onClose. destruct (is_resolved _ _); [reflexivity|].
  match goal with
  | |- commands (resolveOnce ?c ?v ?x) = _ =>
      destruct (resolveOnce_process c v x) as (_ & _ & _ & -> & _)
  end.
  change (lastError (set_sdkAvailable false ?x)) with (lastError m).
  destruct (lastError m) as [e|]; [destruct (Js.truthy e)|]; reflexivity.
Qed.

Lemma step_armed (a : Action) (m : Manager) : armed m -> armed (step a m).
Proof.
  intros Ha.
  destruct a as [scriptExists newPid|writable line rt timeout|msg|call code
                |call e|call|c]; simpl.
  - unfold start. destruct (isRunning m); [exact Ha|].
    destruct (negb scriptExists); exact Ha.
  - by apply sendCommandWithResponse_armed.
  - by apply handleMessage_armed.
  - intros i cmd. rewrite commands_onClose. apply Ha.
  - unfold onError. intros i cmd.
    match goal with
    | |- context [resolveOnce ?c ?v ?x] =>
        destruct (resolveOnce_process c v x) as (_ & _ & _ & -> & _)
    end. apply Ha.
  - unfold onStartTimeout.
    destruct (starts m !! call) as [s|]; [|exact Ha].
    destruct (timeoutArmed s); [|exact Ha]. intros i cmd.
    match goal with
    | |- context [resolveOnce ?c ?v ?x] =>
        destruct (resolveOnce_process c v x) as (_ & _ & _ & -> & _)
    end. rewrite commands_killProcess. apply Ha.
  - by apply onCommandTimeout_armed.
Qed.

Lemma run_armed (trace : list Action) (m : Manager) :
  armed m -> armed (run trace m).
Proof.
  revert m. induction trace as [|a trace IH]; intros m Ha; [exact Ha|].
  simpl. apply IH. by apply step_armed.
Qed.

Lemma armed_fresh : armed fresh.
Proof. intros c cmd Hl. by destruct c. Qed.

(** What a call of [sendCommandWithResponse] registers. *)
Lemma sendCommandWithResponse_registers (writable : bool) (line : Line)
    (rt : string) (timeout : option Z) (m : Manager) :
  fst (sendCommandWithResponse writable line rt timeout m)
  = length (commands m)
  /\ exists cmd,
       commands (snd (sendCommandWithResponse writable line rt timeout m))
         !! length (commands m) = Some cmd
       /\ responseType cmd = rt
       /\ timeoutMs cmd = default DEFAULT_TIMEOUT_MS timeout
       /\ ((answer cmd = None /\ timerArmed cmd = true
            /\ pendingCallbacks
                 (snd (sendCommandWithResponse writable line rt timeout m))
                 !! rt = Some (length (commands m)))
           \/ (answer cmd = Some None
               /\ pendingCallbacks
                    (snd (sendCommandWithResponse writable line rt timeout m))
                    !! rt = None)).
Proof.
  unfold sendCommandWithResponse.
  set (new := {| responseType := rt;
                 timeoutMs := default DEFAULT_TIMEOUT_MS timeout;
                 timerArmed := true; answer := None |}).
  set (c := length (commands m)).
  set (m2 := set_pendingCallbacks _ _).
  assert (Hnew : commands m2 !! c = Some new).
  { change (commands m2) with (commands m ++ [new])%list. unfold c.
    rewrite lookup_app_r by lia. by rewrite Nat.sub_diag. }
  assert (Hcb : pendingCallbacks m2 !! rt = Some c)
    by apply lookup_insert_eq.
  unfold sendCommand. change (process m2) with (process m).
  destruct (process m); [destruct writable|]; cbn [fst snd];
    (split; [reflexivity|]).
  - exists new. split; [exact Hnew|]. repeat split. left. by repeat split.
  - destruct (settle_result c None (delete rt (pendingCallbacks m2)) m2 new Hnew)
      as [H1 H2].
    eexists. split; [exact H1|]. repeat split. right.
    split; [reflexivity|]. rewrite H2. apply lookup_delete_eq.
  - destruct (settle_result c None (delete rt (pendingCallbacks m2)) m2 new Hnew)
      as [H1 H2].
    eexists. split; [exact H1|]. repeat split. right.
    split; [reflexivity|]. rewrite H2. apply lookup_delete_eq.
Qed.

Lemma kept_same_commands (c : nat) (cmd : Command) (m m' : Manager) :
  commands m' = commands m -> kept c cmd m -> kept c cmd m'.
Proof. unfold kept. by intros ->. Qed.

Lemma settle_kept (c c' : nat) (v : option BotMessage) (pc : gmap string nat)
    (cmd : Command) (m : Manager) :
  kept c cmd m ->
  kept c cmd
    (resolveCommand c' v (set_pendingCallbacks pc (clearCommandTimer c' m))).
Proof.
  intros (cmd0 & Hl & Hr & Ht).
  destruct (decide (c' = c)) as [->|Hne].
  - destruct (settle_result c v pc m cmd0 Hl) as [H1 _].
    eexists. split; [exact H1|]. by split.
  - exists cmd0. split; [|by split].
    unfold resolveCommand, clearCommandTimer.
    destruct (commands m !! c') as [cmd1|] eqn:Hc; simpl.
    + assert (Hlt : (c' < length (commands m))%nat)
        by (by eapply lookup_lt_Some).
      rewrite list_lookup_insert_eq by exact Hlt. simpl.
      by rewrite !list_lookup_insert_ne.
    + by rewrite Hc.
Qed.

Lemma step_kept (a : Action) (c : nat) (cmd : Command) (m : Manager) :
  kept c cmd m -> kept c cmd (step a m).
Proof.
  intros Hk.
  destruct a as [scriptExists newPid|writable line rt timeout|msg|call code
                |call e|call|c']; simpl.
  - unfold start. destruct (isRunning m); [exact Hk|].
    destruct (negb scriptExists); exact Hk.
  - unfold sendCommandWithResponse.
    set (new := {| responseType := rt;
                   timeoutMs := default DEFAULT_TIMEOUT_MS timeout;
                   timerArmed := true; answer := None |}).
    set (m2 := set_pendingCallbacks _ _).
    assert (H2 : kept c cmd m2).
    { destruct Hk as (cmd0 & Hl & Hr & Ht). exists cmd0.
      split; [|by split].
      change (commands m2) with (commands m ++ [new])%list.
      by apply lookup_app_l_Some. }
    unfold sendCommand. change (process m2) with (process m).
    destruct (process m); [destruct writable|]; cbn [snd];
      [exact H2|by apply settle_kept..].
  - unfold handleMessage.
    eapply kept_same_commands; [apply commands_handlers|].
    destruct (commands_mirror msg m) as [Hc _].
    assert (Hm : kept c cmd (mirror msg m))
      by (by eapply kept_same_commands).
    unfold dispatch. destruct (endsWith _ _); [|exact Hm].
    destruct (pendingCallbacks (mirror msg m) !! type msg); [|exact Hm].
    unfold commandCallback. rewrite clearCommandTimer_callbacks.
    by apply settle_kept.
  - eapply kept_same_commands; [apply commands_onClose|exact Hk].
  - eapply kept_same_commands; [|exact Hk]. unfold onError.
    match goal with
    | |- context [resolveOnce ?x ?v ?y] =>
        by destruct (resolveOnce_process x v y) as (_ & _ & _ & -> & _)
    end.
  - unfold onStartTimeout.
    destruct (starts m !! call) as [s|]; [|exact Hk].
    destruct (timeoutArmed s); [|exact Hk].
    eapply kept_same_commands; [|exact Hk].
    match goal with
    | |- context [resolveOnce ?x ?v ?y] =>
        destruct (resolveOnce_process x v y) as (_ & _ & _ & -> & _)
    end. by rewrite commands_killProcess.
  - unfold onCommandTimeout.
    destruct (commands m !! c') as [cmd1|]; [|exact Hk].
    destruct (timerArmed cmd1); [|exact Hk]. by apply settle_kept.
Qed.

Lemma run_kept (trace : list Action) (c : nat) (cmd : Command) (m : Manager) :
  kept c cmd m -> kept c cmd (run trace m).
Proof.
  revert m. induction trace as [|a trace IH]; intros m Hk; [exact Hk|].
  simpl. apply IH. by apply step_kept.
Qed.

(** The timer of a command fires. *)
Lemma onCommandTimeout_resolves (c : nat) (cmd : Command) (m : Manager) :
  commands m !! c = Some cmd -> timerArmed cmd = true ->
  commands (onCommandTimeout c m) !! c
  = Some {| responseType := responseType cmd; timeoutMs := timeoutMs cmd;
            timerArmed := false;
            answer := Some (default None (answer cmd)) |}
  /\ pendingCallbacks (onCommandTimeout c m) !! responseType cmd = None.
Proof.
  intros Hl Ht. unfold onCommandTimeout. rewrite Hl, Ht.
  destruct (settle_result c None
              (delete (responseType cmd) (pendingCallbacks m)) m cmd Hl)
    as [H1 H2].
  split; [exact H1|]. rewrite H2. apply lookup_delete_eq.
Qed.

Lemma wrapper_registers (writable : bool) (line : Line) (rt : string)
    (timeout : option Z) (m : Manager) :
  registered (snd (sendCommandWithResponse writable line rt timeout m))
    (length (commands m)) rt (default DEFAULT_TIMEOUT_MS timeout).
Proof.
  destruct (sendCommandWithResponse_registers writable line rt timeout m)
    as (_ & cmd & Hl & Hr & Ht & _).
  exists cmd. by repeat split.
Qed.

(** C9.  A command issued through [sendCommandWithResponse] at any point of
    the manager's life is registered with its response type and a timer of
    [timeoutMs] milliseconds (30000 unless given).  Whatever happens
    afterwards (other commands, messages, worker exit, timers), as long as
    the command has not been resolved its timer is armed; and when that
    timer fires the command resolves to [null] and the pending callback for
    its response type is gone.  [initialize], [joinChannel], [leaveChannel],
    [playAudio] and [stopPlayback] use the default 30000 ms; [shutdown]
    sends [quit] with 5000 ms. *)
Theorem command_times_out (before later : list Action) (writable : bool)
    (line : Line) (rt : string) (timeout : option Z) :
  let m := run before fresh in
  let c := length (commands m) in
  let m2 := run later (snd (sendCommandWithResponse writable line rt timeout m)) in
  (exists cmd,
     commands m2 !! c = Some cmd
     /\ responseType cmd = rt
     /\ timeoutMs cmd = default DEFAULT_TIMEOUT_MS timeout
     /\ (answer cmd = None ->
         timerArmed cmd = true
         /\ exists cmd',
              commands (onCommandTimeout c m2) !! c = Some cmd'
              /\ answer cmd' = Some None
              /\ timerArmed cmd' = false
              /\ pendingCallbacks (onCommandTimeout c m2) !! rt = None))
  /\ DEFAULT_TIMEOUT_MS = 30000
  /\ (forall w appId m0,
        registered (snd (initialize w appId m0)) (length (commands m0))
          "init_response" 30000)
  /\ (forall w ch u tok m0,
        registered (snd (joinChannel w ch u tok m0)) (length (commands m0))
          "join_response" 30000)
  /\ (forall w m0,
        registered (snd (leaveChannel w m0)) (length (commands m0))
          "leave_response" 30000)
  /\ (forall w file m0,
        registered (snd (playAudio w file m0)) (length (commands m0))
          "play_response" 30000)
  /\ (forall w m0,
        registered (snd (stopPlayback w m0)) (length (commands m0))
          "stop_response" 30000)
  /\ (forall w m0 p, process m0 = Some p ->
        fst (shutdown w m0) = Some (length (commands m0))
        /\ registered (snd (shutdown w m0)) (length (commands m0))
             "quit_response" 5000).
Proof.
  intros m c m2. split.
  - destruct (sendCommandWithResponse_registers writable line rt timeout m)
      as (_ & cmd0 & Hl0 & Hr0 & Ht0 & _).
    destruct (run_kept later c cmd0 _ (ex_intro _ cmd0 (conj Hl0 (conj eq_refl eq_refl))))
      as (cmd & Hl & Hr & Ht).
    fold m2 in Hl. exists cmd. split; [exact Hl|].
    split; [congruence|]. split; [congruence|]. intros Hn.
    assert (Harmed : armed m2).
    { apply run_armed, sendCommandWithResponse_armed, run_armed, armed_fresh. }
    pose proof (Harmed c cmd Hl Hn) as Hta. split; [exact Hta|].
    destruct (onCommandTimeout_resolves c cmd m2 Hl Hta) as [H1 H2].
    eexists. split; [exact H1|]. simpl. rewrite Hn.
    repeat split. by rewrite <- Hr0, <- Hr.
  - split; [reflexivity|].
    split; [intros; apply wrapper_registers|].
    split; [intros; apply wrapper_registers|].
    split; [intros; apply wrapper_registers|].
    split; [intros; apply wrapper_registers|].
    split; [intros; apply wrapper_registers|].
    intros w m0 p Hp. unfold shutdown. rewrite Hp.
    destruct (sendCommandWithResponse_registers w
                {| command := "quit"; args := [] |} "quit_response"
                (Some 5000) m0) as (Hc & _).
    pose proof (wrapper_registers w {| command := "quit"; args := [] |}
                  "quit_response" (Some 5000) m0) as Hreg.
    destruct (sendCommandWithResponse _ _ _ _ m0) as [c0 m']. simpl in *.
    split; [by rewrite Hc|exact Hreg].
Qed.

(** [initialize] on a spawned worker that never answers. *)
Lemma command_times_out_witness :
  exists cmd',
    commands (onCommandTimeout 0 (snd (initialize true "app" spawned))) !! 0%nat
    = Some cmd'
    /\ answer cmd' = Some None
    /\ pendingCallbacks (onCommandTimeout 0 (snd (initialize true "app" spawned)))
         !! "init_response" = None.
Proof.
  destruct (command_times_out [do_start true 4242] [] true
              {| command := "init"; args := [("appId", JStr "app")] |}
              "init_response" None)
    as ((cmd & Hl & _ & _ & H) & _).
  assert (Hn : answer cmd = None).
  { vm_compute in Hl. by injection Hl as <-. }
  destruct (H Hn) as (_ & cmd' & H1 & H2 & _ & H3).
  exists cmd'. split; [exact H1|]. split; [exact H2|exact H3].
Defined.

End BotFacts.

(* ===================================================================== *)
(** * More on the session routes                                         *)
(* ===================================================================== *)

Module ServerMore.
Import Server ServerFacts.

(** ** Refusals *)

(** X1.  A request to [POST /api/sessions] that is not answered 201 leaves
    the sessions, the usage counters and the timers exactly as they were:
    a 400, 401 or 429 never creates a session, arms a timer or counts
    against the quota.  A malformed body is answered 400 before the quota is
    looked at. *)
Theorem refusal_changes_nothing (L : Limits) (clk : Clock) (uuid : string)
    (req : Request) (st : State) :
  (is_created (fst (postSessions L clk uuid req st)) = false ->
   sessions (snd (postSessions L clk uuid req st)) = sessions st
   /\ dailyUsage (snd (postSessions L clk uuid req st)) = dailyUsage st
   /\ timers (snd (postSessions L clk uuid req st)) = timers st
   /\ nextTimer (snd (postSessions L clk uuid req st)) = nextTimer st)
  /\ (fst (requireAuth (c_auth clk) req st) = inr tt ->
      joinSessionSchema_parse (body req) = None ->
      postSessions L clk uuid req st = (BadRequest "Validation failed", st)).
Proof.
  split.
  - unfold postSessions, requireAuth.
    destruct (bearer req) as [tok|]; [|by intros _].
    destruct (Js.truthy tok); simpl; [|by intros _].
    destruct (authSessions st !! tok); [|by intros _].
    destruct (decide _); [by intros _|].
    unfold createSession.
    destruct (joinSessionSchema_parse (body req)); [|by intros _].
    destruct (decide _); [by intros _|]. simpl. discriminate.
  - intros Ha Hp. rewrite (postSessions_authorised _ _ _ _ _ Ha).
    unfold createSession. by rewrite Hp.
Qed.

(** A logged-in token sends no user id at all. *)
Lemma refusal_changes_nothing_witness :
  sessions (snd (postSessions documented (at_instant 1000) "s1"
                   {| authorization := Some "Bearer tok-1";
                      body := {| body_channelId := Some "ch1";
                                 body_userId := None |} |} logged_in))
  = sessions logged_in.
Proof.
  apply (refusal_changes_nothing documented (at_instant 1000) "s1"
           {| authorization := Some "Bearer tok-1";
              body := {| body_channelId := Some "ch1";
                         body_userId := None |} |} logged_in).
  reflexivity.
Defined.

(** ** The quota over a day *)

Lemma postSessions_authSessions (L : Limits) (clk : Clock) (uuid : string)
    (req : Request) (st : State) :
  fst (requireAuth (c_auth clk) req st) = inr tt ->
  authSessions (snd (postSessions L clk uuid req st)) = authSessions st.
Proof.
  intros Ha. rewrite (postSessions_authorised _ _ _ _ _ Ha).
  apply createSession_authSessions.
Qed.

Lemma same_day_request_auth (st st' : State) (day : Z) (tok : string)
    (x : Clock * string * Request) :
  authSessions st' = authSessions st ->
  same_day_request st day tok x -> same_day_request st' day tok x.
Proof.
  intros E (Ha & H). split; [|exact H].
  by apply (requireAuth_same_auth _ _ st).
Qed.

(** One request of the day: the count goes up by one below the limit and
    stays where it is at the limit. *)
Lemma one_request_of_the_day (L : Limits) (clk : Clock) (uuid : string)
    (req : Request) (st : State) (day : Z) (tok : string) (t0 : Z) :
  same_day_request st day tok (clk, uuid, req) ->
  getTodayDateKey t0 = day ->
  let used := count (getDailyUsage t0 tok (dailyUsage st)) in
  let res := postSessions L clk uuid req st in
  (used < MAX_CONNECTIONS_PER_DAY L ->
   is_created (fst res) = true
   /\ count (getDailyUsage t0 tok (dailyUsage (snd res))) = used + 1)
  /\ (MAX_CONNECTIONS_PER_DAY L <= used ->
      is_refused (fst res) = true
      /\ count (getDailyUsage t0 tok (dailyUsage (snd res))) = used).
Proof.
  intros (Ha & Hp & Hk & Hu & Hi & Hg) Ht used res. simpl in *.
  assert (Hsame : getDailyUsage (c_usage clk) (usageKey req) (dailyUsage st)
                  = getDailyUsage t0 tok (dailyUsage st)).
  { rewrite Hk. apply getDailyUsage_same_key. congruence. }
  split.
  - intros Hlt.
    destruct (postSessions_below L clk uuid req st day Ha Hp Hu Hi Hg)
      as ((ch & u & j & lim & Hr & _) & _ & Hst & _).
    { rewrite Hsame. exact Hlt. }
    fold res in Hr, Hst. rewrite Hr. split; [reflexivity|].
    rewrite Hsame, Hk in Hst.
    erewrite getDailyUsage_stored; [|exact Hst|simpl; congruence].
    reflexivity.
  - intros Hge. destruct Hp as [data Hp]. unfold res.
    rewrite (postSessions_authorised _ _ _ _ _ Ha).
    rewrite (createSession_at_limit L clk uuid req st data Hp)
      by (rewrite Hsame; exact Hge).
    split; reflexivity.
Qed.

(** X2.  Requests made with one token on one day, served one after the
    other: the count read for the token ends at the limit
    ([min (used + n) MAX], or where it was if it was already past it), the
    [k]-th request is answered 201 as long as [used + k] is below the limit
    and 429 from then on. *)
Theorem quota_saturates (L : Limits) (reqs : list (Clock * string * Request))
    (st : State) (day : Z) (tok : string) (t0 : Z) :
  Forall (same_day_request st day tok) reqs ->
  getTodayDateKey t0 = day ->
  let used := count (getDailyUsage t0 tok (dailyUsage st)) in
  count (getDailyUsage t0 tok (dailyUsage (snd (serve L reqs st))))
  = Z.max used (Z.min (used + Z.of_nat (length reqs))
                  (MAX_CONNECTIONS_PER_DAY L))
  /\ length (fst (serve L reqs st)) = length reqs
  /\ (forall (k : nat) (r : Response),
        fst (serve L reqs st) !! k = Some r ->
        if decide (used + Z.of_nat k < MAX_CONNECTIONS_PER_DAY L)
        then is_created r = true else is_refused r = true).
Proof.
  intros Hall Ht. revert st Hall.
  induction reqs as [|[[clk uuid] req] rest IH]; intros st Hall used.
  - simpl. split; [lia|]. split; [reflexivity|]. intros k r Hk.
    by destruct k.
  - inversion Hall as [|? ? Hx Hrest]; subst.
    destruct (one_request_of_the_day L clk uuid req st _ tok t0 Hx eq_refl)
      as [Hbelow Hat]. fold used in Hbelow, Hat.
    assert (Hauth : authSessions (snd (postSessions L clk uuid req st))
                    = authSessions st)
      by (apply postSessions_authSessions; apply Hx).
    simpl. destruct (postSessions L clk uuid req st) as [r st1] eqn:Hpost.
    simpl in *.
    assert (Hrest' : Forall (same_day_request st1 (getTodayDateKey t0) tok) rest).
    { eapply Forall_impl; [exact Hrest|].
      intros x. by apply same_day_request_auth. }
    destruct (IH st1 Hrest') as (IHc & IHl & IHr).
    destruct (serve L rest st1) as [rs st2]. simpl in *.
    destruct (decide (used < MAX_CONNECTIONS_PER_DAY L)) as [Hlt|Hge].
    + destruct (Hbelow Hlt) as [Hcr Hcount]. rewrite Hcount in IHc, IHr.
      split; [rewrite IHc; lia|]. split; [by rewrite IHl|].
      intros [|k] r' Hk; simpl in Hk.
      * injection Hk as <-. rewrite decide_True by lia. exact Hcr.
      * specialize (IHr k r' Hk).
        destruct (decide (used + 1 + Z.of_nat k < _)) as [H1|H1];
          [rewrite decide_True by lia|rewrite decide_False by lia]; exact IHr.
    + destruct (Hat ltac:(lia)) as [Hrf Hcount]. rewrite Hcount in IHc, IHr.
      split; [rewrite IHc; lia|]. split; [by rewrite IHl|].
      intros [|k] r' Hk; simpl in Hk.
      * injection Hk as <-. rewrite decide_False by lia. exact Hrf.
      * specialize (IHr k r' Hk).
        rewrite decide_False in IHr by lia.
        rewrite decide_False by lia. exact IHr.
Qed.

(** Five requests on the first day, with a limit of three. *)
Lemma quota_saturates_witness :
  let five := [ (at_instant 1000, "s1", request "u1");
                (at_instant 2000, "s2", request "u1");
                (at_instant 3000, "s3", request "u2");
                (at_instant 4000, "s4", request "u1");
                (at_instant 5000, "s5", request "u3") ] in
  count (getDailyUsage 0 "tok-1"
           (dailyUsage (snd (serve documented five logged_in)))) = 3
  /\ length (fst (serve documented five logged_in)) = 5%nat.
Proof.
  intros five.
  assert (Hall : Forall (same_day_request logged_in 0 "tok-1") five).
  { repeat constructor; try (eexists; reflexivity). }
  destruct (quota_saturates documented five logged_in 0 "tok-1" 0 Hall eq_refl)
    as (Hc & Hl & _).
  split; [exact Hc | exact Hl].
Defined.

(** X3.  [GET /api/sessions/limits] and [POST /api/sessions] agree: for a
    request that passes [requireAuth] with a well-formed body, read on the
    same day, the limits route reports no remaining connection exactly when
    the post is answered 429, and a positive number exactly when it is
    answered 201. *)
Theorem limits_agree_with_post (L : Limits) (clk : Clock) (uuid : string)
    (req : Request) (st : State) (t tReset : Z) :
  fst (requireAuth (c_auth clk) req st) = inr tt ->
  is_Some (joinSessionSchema_parse (body req)) ->
  getTodayDateKey t = getTodayDateKey (c_usage clk) ->
  (remainingConnections (getLimits L t tReset req st) = 0
   <-> is_refused (fst (postSessions L clk uuid req st)) = true)
  /\ (0 < remainingConnections (getLimits L t tReset req st)
      <-> is_created (fst (postSessions L clk uuid req st)) = true).
Proof.
  intros Ha [data Hp] Ht.
  rewrite (postSessions_authorised _ _ _ _ _ Ha).
  unfold getLimits. cbn [remainingConnections].
  rewrite (getDailyUsage_same_key t (c_usage clk)) by exact Ht.
  set (used := count (getDailyUsage (c_usage clk) (usageKey req) (dailyUsage st))).
  destruct (decide (used < MAX_CONNECTIONS_PER_DAY L)) as [Hlt|Hge].
  - rewrite (createSession_below L clk uuid req st data Hp Hlt).
    cbn [fst is_refused is_created]. split; split; try done; lia.
  - rewrite (createSession_at_limit L clk uuid req st data Hp) by (fold used; lia).
    cbn [fst is_refused is_created]. split; split; try done; lia.
Qed.

Lemma limits_agree_with_post_witness :
  0 < remainingConnections (getLimits documented 1000 1000 (request "u1") logged_in)
  <-> is_created (fst (postSessions documented (at_instant 1000) "s1"
                         (request "u1") logged_in)) = true.
Proof.
  apply (limits_agree_with_post documented (at_instant 1000) "s1" (request "u1")
           logged_in 1000 1000 eq_refl (ex_intro _ _ eq_refl) eq_refl).
Defined.

(** ** Ending a session *)



(** X5.  Creating a session and ending it again: the sessions and the
    timers are back where they were, and the connection stays counted. The
    session id and the timer handle are fresh, as [crypto.randomUUID()] and
    [setTimeout] make them. *)
Theorem create_then_end (L : Limits) (clk : Clock) (uuid : string)
    (req : Request) (st : State) :
  fst (requireAuth (c_auth clk) req st) = inr tt ->
  is_Some (joinSessionSchema_parse (body req)) ->
  count (getDailyUsage (c_usage clk) (usageKey req) (dailyUsage st))
    < MAX_CONNECTIONS_PER_DAY L ->
  sessions st !! uuid = None ->
  timers st !! nextTimer st = None ->
  let st1 := snd (postSessions L clk uuid req st) in
  let res := endSession uuid st1 in
  fst res = Ended uuid
  /\ sessions (snd res) = sessions st
  /\ timers (snd res) = timers st
  /\ authSessions (snd res) = authSessions st
  /\ dailyUsage (snd res) = dailyUsage st1
  /\ dailyUsage st1 !! usageKey req
     = Some {| dateKey := getTodayDateKey (c_incKey clk);
               count := count (getDailyUsage (c_incGet clk) (usageKey req)
                                 (dailyUsage st)) + 1 |}.
Proof.
  intros Ha [data Hp] Hlt Hfresh Htimer st1 res. unfold res, st1.
  rewrite (postSessions_authorised _ _ _ _ _ Ha).
  rewrite (createSession_below L clk uuid req st data Hp Hlt).
  cbn [snd]. unfold endSession, created. cbn [sessions].
  rewrite lookup_insert_eq. cbn.
  rewrite !delete_insert_id by assumption.
  rewrite lookup_insert_eq. done.
Qed.

Lemma create_then_end_witness :
  sessions (snd (endSession "s1"
                   (snd (postSessions documented (at_instant 1000) "s1"
                           (request "u1") logged_in))))
  = sessions logged_in.
Proof.
  apply (create_then_end documented (at_instant 1000) "s1" (request "u1")
           logged_in eq_refl (ex_intro _ _ eq_refl) ltac:(vm_compute; reflexivity)
           eq_refl eq_refl).
Defined.

(** ** Expiry *)

Lemma heartbeats_frame (ts : list Z) (sid : string) (st : State) :
  timers (heartbeats ts sid st) = timers st
  /\ nextTimer (heartbeats ts sid st) = nextTimer st
  /\ dailyUsage (heartbeats ts sid st) = dailyUsage st
  /\ (forall s, sessions st !! sid = Some s ->
        exists s', sessions (heartbeats ts sid st) !! sid = Some s'
                   /\ expiresAt s' = expiresAt s
                   /\ expiryTimeout s' = expiryTimeout s
                   /\ lastActivity s' = default (lastActivity s) (last ts)).
Proof.
  revert st. induction ts as [|t ts IH]; intros st.
  - cbn. repeat split. intros s Hs. exists s. repeat split; exact Hs.
  - change (heartbeats (t :: ts) sid st)
      with (heartbeats ts sid (snd (heartbeat t sid st))).
    destruct (IH (snd (heartbeat t sid st))) as (Ht & Hn & Hd & Hs).
    unfold heartbeat in *.
    destruct (sessions st !! sid) as [s0|] eqn:E; cbn [snd] in *.
    + rewrite Ht, Hn, Hd. cbn. repeat split.
      intros s [= <-].
      destruct (Hs _ (lookup_insert_eq _ _ _)) as (s' & H1 & H2 & H3 & H4).
      exists s'. cbn in *. repeat split; try assumption.
      rewrite H4. clear. destruct ts as [|t' ts]; [reflexivity|].
      change (last (t :: t' :: ts)) with (last (t' :: ts)).
      by destruct (proj2 (last_is_Some (t' :: ts)) ltac:(discriminate)) as [x ->].
    + repeat split; try assumption. intros s [=].
Qed.

(** X6.  Heartbeats do not postpone the expiry: after any number of
    heartbeats the session created by [POST /api/sessions] still carries the
    [expiresAt] it was given and the timer armed for it, and when that timer
    fires the session is removed, so the next heartbeat is answered 404. *)
Theorem expiry_not_postponed (L : Limits) (clk : Clock) (uuid : string)
    (req : Request) (st : State) (ts : list Z) :
  fst (requireAuth (c_auth clk) req st) = inr tt ->
  is_Some (joinSessionSchema_parse (body req)) ->
  count (getDailyUsage (c_usage clk) (usageKey req) (dailyUsage st))
    < MAX_CONNECTIONS_PER_DAY L ->
  let st1 := snd (postSessions L clk uuid req st) in
  let st2 := heartbeats ts uuid st1 in
  let st3 := expiryFire (nextTimer st) st2 in
  (exists s, sessions st2 !! uuid = Some s
             /\ expiresAt s = c_now clk + MAX_SESSION_DURATION_MS L
             /\ expiryTimeout s = Some (nextTimer st))
  /\ timers st2 !! nextTimer st
     = Some {| delay := MAX_SESSION_DURATION_MS L; target := uuid |}
  /\ sessions st3 !! uuid = None
  /\ (forall t, heartbeat t uuid st3 = (NotFound "Session not found", st3)).
Proof.
  intros Ha [data Hp] Hlt st1 st2 st3.
  assert (E1 : st1 = created L clk uuid data (usageKey req) st).
  { unfold st1. rewrite (postSessions_authorised _ _ _ _ _ Ha).
    by rewrite (createSession_below L clk uuid req st data Hp Hlt). }
  destruct (heartbeats_frame ts uuid st1) as (Ht & _ & _ & Hs).
  fold st2 in Ht, Hs.
  assert (Htm : timers st2 !! nextTimer st
                = Some {| delay := MAX_SESSION_DURATION_MS L; target := uuid |}).
  { rewrite Ht, E1. unfold created. cbn [timers]. apply lookup_insert_eq. }
  assert (Hgone : sessions st3 !! uuid = None).
  { unfold st3, expiryFire. rewrite Htm. cbn. apply lookup_delete_eq. }
  split; [|split; [exact Htm|split; [exact Hgone|]]].
  - destruct (Hs (Build_VoiceSession uuid (data_channelId data)
                    (data_userId data) (c_joined clk) (c_last clk)
                    (c_now clk + MAX_SESSION_DURATION_MS L)
                    (Some (nextTimer st))))
      as (s' & H1 & H2 & H3 & _).
    { rewrite E1. unfold created. cbn [sessions]. apply lookup_insert_eq. }
    exists s'. repeat split; assumption.
  - intros t. unfold heartbeat. by rewrite Hgone.
Qed.

Lemma expiry_not_postponed_witness :
  sessions
    (expiryFire 0
       (heartbeats [2000; 3000] "s1"
          (snd (postSessions documented (at_instant 1000) "s1" (request "u1")
                  logged_in)))) !! "s1" = None.
Proof.
  apply (expiry_not_postponed documented (at_instant 1000) "s1" (request "u1")
           logged_in [2000; 3000] eq_refl (ex_intro _ _ eq_refl)
           ltac:(vm_compute; reflexivity)).
Defined.

(** ** The stale-session sweep *)

Local Abbreviation sweep now l st :=
  (fold_left
     (fun st (entry : string * VoiceSession) =>
        if decide (lastActivity (snd entry) < now - STALE_MS)
        then set_sessions (delete (fst entry))
               (clearTimeout (expiryTimeout (snd entry)) st)
        else st) l st).

Lemma sweep_frame (now : Z) (l : list (string * VoiceSession)) (st : State) :
  dailyUsage (sweep now l st) = dailyUsage st
  /\ authSessions (sweep now l st) = authSessions st
  /\ nextTimer (sweep now l st) = nextTimer st.
Proof.
  revert st. induction l as [|[k s] l IH]; intros st; [done|].
  cbn [fold_left fst snd]. destruct (decide _); [|apply IH].
  destruct (IH (set_sessions (delete k) (clearTimeout (expiryTimeout s) st)))
    as (-> & -> & ->).
  by destruct (expiryTimeout s).
Qed.

Lemma sweep_sessions_gone (now : Z) (l : list (string * VoiceSession))
    (st : State) (k : string) :
  sessions st !! k = None -> sessions (sweep now l st) !! k = None.
Proof.
  revert st. induction l as [|[k' s] l IH]; intros st Hk; [done|].
  cbn [fold_left fst snd]. destruct (decide _); [|by apply IH].
  apply IH. destruct (expiryTimeout s); cbn;
    apply lookup_delete_None; by right.
Qed.

Lemma sweep_sessions_kept (now : Z) (l : list (string * VoiceSession))
    (st : State) (k : string) :
  (forall s, (k, s) ∈ l -> ~ stale now s) ->
  sessions (sweep now l st) !! k = sessions st !! k.
Proof.
  revert st. induction l as [|[k' s] l IH]; intros st Hl; [done|].
  cbn [fold_left fst snd].
  assert (Hl' : forall s0, (k, s0) ∈ l -> ~ stale now s0)
    by (intros s0 H0; apply Hl; by apply list_elem_of_further).
  destruct (decide _) as [Hst|_]; [|by apply IH].
  rewrite IH by exact Hl'.
  assert (k' <> k).
  { intros ->. apply (Hl s); [apply list_elem_of_here|exact Hst]. }
  destruct (expiryTimeout s); cbn; by rewrite lookup_delete_ne.
Qed.

Lemma sweep_sessions_removed (now : Z) (l : list (string * VoiceSession))
    (st : State) (k : string) (s : VoiceSession) :
  (k, s) ∈ l -> stale now s -> sessions (sweep now l st) !! k = None.
Proof.
  revert st. induction l as [|[k' s'] l IH]; intros st Hin Hst.
  - by apply elem_of_nil in Hin.
  - cbn [fold_left fst snd]. apply elem_of_cons in Hin as [[= <- <-]|Hin].
    + rewrite decide_True by exact Hst. apply sweep_sessions_gone.
      destruct (expiryTimeout s); cbn; apply lookup_delete_eq.
    + by apply IH.
Qed.

Lemma sweep_timers_gone (now : Z) (l : list (string * VoiceSession))
    (st : State) (h : nat) :
  timers st !! h = None -> timers (sweep now l st) !! h = None.
Proof.
  revert st. induction l as [|[k' s] l IH]; intros st Hk; [done|].
  cbn [fold_left fst snd]. destruct (decide _); [|by apply IH].
  apply IH. destruct (expiryTimeout s); cbn; [|exact Hk].
  apply lookup_delete_None; by right.
Qed.

Lemma sweep_timers_cleared (now : Z) (l : list (string * VoiceSession))
    (st : State) (k : string) (s : VoiceSession) (h : nat) :
  (k, s) ∈ l -> stale now s -> expiryTimeout s = Some h ->
  timers (sweep now l st) !! h = None.
Proof.
  revert st. induction l as [|[k' s'] l IH]; intros st Hin Hst Hh.
  - by apply elem_of_nil in Hin.
  - cbn [fold_left fst snd]. apply elem_of_cons in Hin as [[= <- <-]|Hin].
    + rewrite decide_True by exact Hst. apply sweep_timers_gone.
      rewrite Hh. cbn. apply lookup_delete_eq.
    + by apply IH.
Qed.

Lemma sweep_timers_kept (now : Z) (l : list (string * VoiceSession))
    (st : State) (h : nat) :
  (forall k s, (k, s) ∈ l -> stale now s -> expiryTimeout s <> Some h) ->
  timers (sweep now l st) !! h = timers st !! h.
Proof.
  revert st. induction l as [|[k' s] l IH]; intros st Hl; [done|].
  cbn [fold_left fst snd].
  assert (Hl' : forall k s0, (k, s0) ∈ l -> stale now s0 ->
                             expiryTimeout s0 <> Some h)
    by (intros k0 s0 H0; apply (Hl k0); by apply list_elem_of_further).
  destruct (decide _) as [Hst|_]; [|by apply IH].
  rewrite IH by exact Hl'.
  pose proof (Hl k' s (list_elem_of_here _ _) Hst) as Hne.
  destruct (expiryTimeout s) as [h'|]; cbn; [|reflexivity].
  rewrite lookup_delete_ne; [reflexivity|congruence].
Qed.

(** X7.  The sweep of stale sessions removes exactly the sessions whose
    [lastActivity] is older than five minutes before its clock reading,
    whatever their [expiresAt], and clears the expiry timers of those it
    removes; the other sessions, the timers no removed session holds, the
    usage counters and the auth sessions are as before. *)
Theorem stale_sweep_spec (now : Z) (st : State) :
  let st' := staleSweep now st in
  (forall k s, sessions st !! k = Some s -> stale now s ->
               sessions st' !! k = None)
  /\ (forall k s, sessions st !! k = Some s -> ~ stale now s ->
                  sessions st' !! k = Some s)
  /\ (forall k, sessions st !! k = None -> sessions st' !! k = None)
  /\ (forall k s h, sessions st !! k = Some s -> stale now s ->
                    expiryTimeout s = Some h -> timers st' !! h = None)
  /\ (forall h,
        (forall k s, sessions st !! k = Some s -> stale now s ->
                     expiryTimeout s <> Some h) ->
        timers st' !! h = timers st !! h)
  /\ dailyUsage st' = dailyUsage st
  /\ authSessions st' = authSessions st.
Proof.
  intros st'. unfold st', staleSweep.
  split; [|split; [|split; [|split; [|split]]]].
  - intros k s Hk Hst.
    eapply sweep_sessions_removed; [|exact Hst].
    by apply elem_of_map_to_list.
  - intros k s Hk Hst. rewrite sweep_sessions_kept; [exact Hk|].
    intros s0 H0. apply elem_of_map_to_list in H0. congruence.
  - intros k Hk. by apply sweep_sessions_gone.
  - intros k s h Hk Hst Hh.
    eapply sweep_timers_cleared; [|exact Hst|exact Hh].
    by apply elem_of_map_to_list.
  - intros h Hh. apply sweep_timers_kept.
    intros k s H0. apply (Hh k). by apply elem_of_map_to_list.
  - destruct (sweep_frame now (map_to_list (sessions st)) st) as (H1 & H2 & _).
    split; assumption.
Qed.

(** X8.  A heartbeat protects a session from the sweep for five minutes: a
    stored session that received a heartbeat at [t] survives every sweep
    whose clock reading is at most [t + 5 min], with the [lastActivity] of
    the heartbeat and the timer it had. *)
Theorem heartbeat_protects_from_sweep (sid : string) (st : State)
    (s : VoiceSession) (t now : Z) :
  sessions st !! sid = Some s ->
  now <= t + STALE_MS ->
  exists s',
    sessions (staleSweep now (snd (heartbeat t sid st))) !! sid = Some s'
    /\ lastActivity s' = t
    /\ expiresAt s' = expiresAt s
    /\ expiryTimeout s' = expiryTimeout s.
Proof.
  intros Hs Hle. unfold heartbeat. rewrite Hs. cbn [snd].
  eexists. split.
  - unfold staleSweep. rewrite sweep_sessions_kept.
    + cbn [sessions set_sessions]. apply lookup_insert_eq.
    + intros s0 H0. apply elem_of_map_to_list in H0.
      cbn [sessions set_sessions] in H0. rewrite lookup_insert_eq in H0.
      injection H0 as <-. unfold stale. cbn. lia.
  - cbn. done.
Qed.

Lemma heartbeat_protects_from_sweep_witness :
  is_Some
    (sessions
       (staleSweep 400000
          (snd (heartbeat 200000 "s1"
                  (snd (postSessions documented (at_instant 1000) "s1"
                          (request "u1") logged_in))))) !! "s1").
Proof.
  destruct (heartbeat_protects_from_sweep "s1"
              (snd (postSessions documented (at_instant 1000) "s1"
                      (request "u1") logged_in))
              {| id := "s1"; channelId := "ch1"; userId := "u1";
                 joinedAt := 1000; lastActivity := 1000;
                 expiresAt := 301000; expiryTimeout := Some 0%nat |}
              200000 400000 eq_refl ltac:(vm_compute; discriminate))
    as (s' & H & _).
  exists s'. exact H.
Defined.

(** ** Authentication *)

Lemma bearer_bearing (tok : string) (b : Body) :
  bearer (bearing tok b) = Some tok.
Proof. reflexivity. Qed.

(** X9.  The life of a login: with the configured credentials
    [POST /api/auth/login] answers with the fresh token and stores it; a
    request bearing that token passes [requireAuth] as long as no more than
    24 hours have passed, is answered "Session expired" and forgotten
    afterwards, and is answered "Invalid or expired session" once
    [POST /api/auth/logout] has been called with it. *)
Theorem login_lifecycle (env : LoginEnv) (now : Z) (uuid : string)
    (email password : option string) (st : State) (b : Body) (t : Z) :
  configured (LOGIN_EMAIL env) = true ->
  configured (LOGIN_PASSWORD env) = true ->
  email = LOGIN_EMAIL env ->
  password = LOGIN_PASSWORD env ->
  uuid <> "" ->
  let res := login env now uuid email password st in
  let req := bearing uuid b in
  fst res = LoggedIn uuid
  /\ (t - now <= AUTH_SESSION_TTL ->
      requireAuth t req (snd res) = (inr tt, snd res))
  /\ (t - now > AUTH_SESSION_TTL ->
      fst (requireAuth t req (snd res))
      = inl (Unauthorized "Session expired")
      /\ authSessions (snd (requireAuth t req (snd res))) !! uuid = None)
  /\ fst (requireAuth t req (snd (logout req (snd res))))
     = inl (Unauthorized "Invalid or expired session").
Proof.
  intros He Hp -> -> Hne res req.
  assert (Htr : Js.truthy uuid = true) by (by destruct uuid).
  assert (Hres : res = (LoggedIn uuid,
                        set_authSessions
                          (<[uuid := {| token := uuid; createdAt := now |}]>
                             (authSessions st)) st)).
  { unfold res, login. rewrite He, Hp. cbn [negb orb].
    by rewrite !bool_decide_eq_true_2. }
  rewrite Hres. cbn [fst snd].
  split; [reflexivity|].
  unfold requireAuth, logout, req. rewrite (bearer_bearing uuid b), Htr.
  cbn [negb authSessions set_authSessions]. rewrite lookup_insert_eq.
  cbn [createdAt]. split; [|split].
  - intros Hle. by rewrite decide_False by lia.
  - intros Hgt. rewrite decide_True by lia. cbn. split; [reflexivity|].
    apply lookup_delete_eq.
  - cbn. by rewrite lookup_delete_eq.
Qed.

Lemma login_lifecycle_witness :
  let env := {| LOGIN_EMAIL := Some "a@b.c"; LOGIN_PASSWORD := Some "pw" |} in
  let res := login env 1000 "tok-2" (Some "a@b.c") (Some "pw") logged_in in
  fst res = LoggedIn "tok-2"
  /\ fst (requireAuth 2000
            (bearing "tok-2" {| body_channelId := None; body_userId := None |})
            (snd (logout
                    (bearing "tok-2"
                       {| body_channelId := None; body_userId := None |})
                    (snd res))))
     = inl (Unauthorized "Invalid or expired session").
Proof.
  intros env res.
  destruct (login_lifecycle env 1000 "tok-2" (Some "a@b.c") (Some "pw")
              logged_in {| body_channelId := None; body_userId := None |} 2000
              eq_refl eq_refl eq_refl eq_refl ltac:(discriminate))
    as (H1 & _ & _ & H2).
  split; [exact H1 | exact H2].
Defined.

(** X10.  [GET /api/auth/verify] and [requireAuth] agree: at the same clock
    reading a request is reported authenticated exactly when it would pass
    the middleware, and both leave the same auth sessions behind (an
    expired one is deleted by either). *)
Theorem verify_agrees_with_requireAuth (now : Z) (req : Request) (st : State) :
  (fst (verify now req st) = Authenticated
   <-> fst (requireAuth now req st) = inr tt)
  /\ snd (verify now req st) = snd (requireAuth now req st).
Proof.
  unfold verify, requireAuth.
  destruct (bearer req) as [tok|]; [|by split].
  destruct (Js.truthy tok); cbn [negb]; [|by split].
  destruct (authSessions st !! tok) as [a|]; [|by split].
  destruct (decide (now - createdAt a <= AUTH_SESSION_TTL)) as [Hle|Hgt].
  - rewrite decide_False by lia. by split.
  - rewrite decide_True by lia. by split.
Qed.

Local Abbreviation cleanup now l st :=
  (fold_left
     (fun st (entry : string * AuthSession) =>
        if decide (now - createdAt (snd entry) > AUTH_SESSION_TTL)
        then set_authSessions (delete (fst entry) (authSessions st)) st
        else st) l st).

Lemma cleanup_frame (now : Z) (l : list (string * AuthSession)) (st : State) :
  sessions (cleanup now l st) = sessions st
  /\ dailyUsage (cleanup now l st) = dailyUsage st
  /\ timers (cleanup now l st) = timers st.
Proof.
  revert st. induction l as [|[k s] l IH]; intros st; [done|].
  cbn [fold_left fst snd]. destruct (decide _); [|apply IH].
  by destruct (IH (set_authSessions (delete k (authSessions st)) st))
    as (-> & -> & ->).
Qed.

Lemma cleanup_gone (now : Z) (l : list (string * AuthSession))
    (st : State) (k : string) :
  authSessions st !! k = None -> authSessions (cleanup now l st) !! k = None.
Proof.
  revert st. induction l as [|[k' s] l IH]; intros st Hk; [done|].
  cbn [fold_left fst snd]. destruct (decide _); [|by apply IH].
  apply IH. cbn. apply lookup_delete_None; by right.
Qed.

Lemma cleanup_kept (now : Z) (l : list (string * AuthSession))
    (st : State) (k : string) :
  (forall a, (k, a) ∈ l -> now - createdAt a <= AUTH_SESSION_TTL) ->
  authSessions (cleanup now l st) !! k = authSessions st !! k.
Proof.
  revert st. induction l as [|[k' s] l IH]; intros st Hl; [done|].
  cbn [fold_left fst snd].
  assert (Hl' : forall a, (k, a) ∈ l -> now - createdAt a <= AUTH_SESSION_TTL)
    by (intros a H0; apply Hl; by apply list_elem_of_further).
  destruct (decide _) as [Hst|_]; [|by apply IH].
  rewrite IH by exact Hl'.
  assert (k' <> k).
  { intros ->. pose proof (Hl s (list_elem_of_here _ _)). lia. }
  cbn. by rewrite lookup_delete_ne.
Qed.

Lemma cleanup_removed (now : Z) (l : list (string * AuthSession))
    (st : State) (k : string) (a : AuthSession) :
  (k, a) ∈ l -> now - createdAt a > AUTH_SESSION_TTL ->
  authSessions (cleanup now l st) !! k = None.
Proof.
  revert st. induction l as [|[k' s'] l IH]; intros st Hin Hst.
  - by apply elem_of_nil in Hin.
  - cbn [fold_left fst snd]. apply elem_of_cons in Hin as [[= <- <-]|Hin].
    + rewrite decide_True by exact Hst. apply cleanup_gone.
      cbn. apply lookup_delete_eq.
    + by apply IH.
Qed.

Lemma authCleanup_lookup (now : Z) (st : State) (k : string) :
  authSessions (authCleanup now st) !! k
  = match authSessions st !! k with
    | Some a =>
        if decide (now - createdAt a > AUTH_SESSION_TTL) then None else Some a
    | None => None
    end.
Proof.
  unfold authCleanup. destruct (authSessions st !! k) as [a|] eqn:E.
  - destruct (decide _) as [Hgt|Hle].
    + eapply cleanup_removed; [|exact Hgt]. by apply elem_of_map_to_list.
    + rewrite cleanup_kept; [exact E|].
      intros a0 H0. apply elem_of_map_to_list in H0.
      assert (a0 = a) by congruence. subst. lia.
  - by apply cleanup_gone.
Qed.

(** X11.  The hourly cleanup of the auth sessions deletes exactly the
    tokens older than 24 hours at its clock reading.  No request is treated
    differently for it: a request passes [requireAuth] after the cleanup
    exactly when it passed before, at that reading or any later one. *)
Theorem auth_cleanup_is_transparent (now : Z) (st : State) :
  (forall k, authSessions (authCleanup now st) !! k
             = match authSessions st !! k with
               | Some a =>
                   if decide (now - createdAt a > AUTH_SESSION_TTL)
                   then None else Some a
               | None => None
               end)
  /\ (forall t req, now <= t ->
        (fst (requireAuth t req (authCleanup now st)) = inr tt
         <-> fst (requireAuth t req st) = inr tt))
  /\ sessions (authCleanup now st) = sessions st
  /\ dailyUsage (authCleanup now st) = dailyUsage st.
Proof.
  split; [apply authCleanup_lookup|]. split.
  - intros t req Hle. unfold requireAuth.
    destruct (bearer req) as [tok|]; [|done].
    destruct (Js.truthy tok); cbn [negb]; [|done].
    rewrite authCleanup_lookup.
    destruct (authSessions st !! tok) as [a|]; [|done].
    destruct (decide (now - createdAt a > AUTH_SESSION_TTL)) as [Hgt|Hok].
    + rewrite decide_True by lia. done.
    + destruct (decide _); done.
  - destruct (cleanup_frame now (map_to_list (authSessions st)) st)
      as (H1 & H2 & _).
    split; assumption.
Qed.

(** ** Listings *)

Lemma channelSessions_insert (ch uuid : string) (s : VoiceSession)
    (st : State) :
  sessions st !! uuid = None ->
  snd (channelSessions ch (set_sessions (insert uuid s) st))
  = if decide (channelId s = ch)
    then S (snd (channelSessions ch st))
    else snd (channelSessions ch st).
Proof.
  intros Hfresh. unfold channelSessions. cbn [snd sessions set_sessions].
  rewrite !length_fmap.
  rewrite (map_to_list_insert (sessions st) uuid s Hfresh).
  rewrite fmap_cons. cbn [snd]. rewrite filter_cons.
  destruct (decide (channelId s = ch)); reflexivity.
Qed.

(** X12.  A session created by [POST /api/sessions] under a fresh id shows
    up in the listings: the count of its channel goes up by one and the
    counts of the other channels stay, the number of active sessions
    reported by [GET /api/health] goes up by one, and
    [GET /api/sessions/:sessionId] returns the session with the duration
    measured from [joinedAt]. *)
Theorem created_session_is_listed (L : Limits) (clk : Clock) (uuid : string)
    (req : Request) (st : State) (data : JoinData) (ch : string) (now : Z) :
  fst (requireAuth (c_auth clk) req st) = inr tt ->
  joinSessionSchema_parse (body req) = Some data ->
  count (getDailyUsage (c_usage clk) (usageKey req) (dailyUsage st))
    < MAX_CONNECTIONS_PER_DAY L ->
  sessions st !! uuid = None ->
  let st1 := snd (postSessions L clk uuid req st) in
  snd (channelSessions ch st1)
  = (if decide (data_channelId data = ch)
     then S (snd (channelSessions ch st))
     else snd (channelSessions ch st))
  /\ activeSessions st1 = S (activeSessions st)
  /\ sessionDetails now uuid st1
     = Some ({| sum_sessionId := uuid; sum_userId := data_userId data;
                sum_joinedAt := c_joined clk;
                sum_lastActivity := c_last clk |},
             data_channelId data, now - c_joined clk).
Proof.
  intros Ha Hp Hlt Hfresh st1. unfold st1.
  rewrite (postSessions_authorised _ _ _ _ _ Ha).
  rewrite (createSession_below L clk uuid req st data Hp Hlt).
  cbn [snd]. split; [|split].
  - set (s := Build_VoiceSession uuid (data_channelId data) (data_userId data)
                (c_joined clk) (c_last clk)
                (c_now clk + MAX_SESSION_DURATION_MS L) (Some (nextTimer st))).
    change (data_channelId data) with (channelId s).
    rewrite <- (channelSessions_insert ch uuid s st Hfresh).
    reflexivity.
  - unfold activeSessions, created. cbn [sessions].
    by rewrite map_size_insert_None.
  - unfold sessionDetails, created. cbn [sessions].
    by rewrite lookup_insert_eq.
Qed.

Lemma created_session_is_listed_witness :
  snd (channelSessions "ch1"
         (snd (postSessions documented (at_instant 1000) "s1" (request "u1")
                 logged_in))) = 1%nat.
Proof.
  apply (created_session_is_listed documented (at_instant 1000) "s1"
           (request "u1") logged_in
           {| data_channelId := "ch1"; data_userId := "u1" |} "ch1" 1000
           eq_refl eq_refl ltac:(vm_compute; reflexivity) eq_refl).
Defined.

(** ** The day boundary *)

(** X13.  The quota starts again with the UTC day: whatever count is stored
    for the token, a request whose date-key readings all fall on another
    day than the stored one is answered 201 as the first connection of its
    day (as long as the limit allows one connection at all), and the stored
    usage is replaced by a count of one under the new day. *)
Theorem quota_resets_next_day (L : Limits) (clk : Clock) (uuid : string)
    (req : Request) (st : State) (old : DailyUsage) (day : Z) :
  fst (requireAuth (c_auth clk) req st) = inr tt ->
  is_Some (joinSessionSchema_parse (body req)) ->
  dailyUsage st !! usageKey req = Some old ->
  getTodayDateKey (c_usage clk) = day ->
  getTodayDateKey (c_incKey clk) = day ->
  getTodayDateKey (c_incGet clk) = day ->
  dateKey old <> day ->
  0 < MAX_CONNECTIONS_PER_DAY L ->
  let res := postSessions L clk uuid req st in
  (exists ch u j lim, fst res = Created uuid ch u j lim /\ usedToday lim = 1)
  /\ dailyUsage (snd res) !! usageKey req
     = Some {| dateKey := day; count := 1 |}.
Proof.
  intros Ha Hp Hold Hu Hi Hg Hne Hpos res.
  assert (Hzero : forall t, getTodayDateKey t = day ->
            count (getDailyUsage t (usageKey req) (dailyUsage st)) = 0).
  { intros t Ht. erewrite getDailyUsage_rollover; [reflexivity|exact Hold|].
    congruence. }
  destruct (postSessions_below L clk uuid req st day Ha Hp Hu Hi Hg)
    as ((ch & u & j & lim & Hr & Hused & _) & _ & Hst & _).
  { rewrite (Hzero _ Hu). exact Hpos. }
  rewrite (Hzero _ Hu) in Hused, Hst. fold res in Hr, Hst.
  split; [|exact Hst]. exists ch, u, j, lim. split; [exact Hr|exact Hused].
Qed.

Lemma quota_resets_next_day_witness :
  let st3 := snd (serve documented
                    [ (at_instant 1000, "s1", request "u1");
                      (at_instant 2000, "s2", request "u1");
                      (at_instant 3000, "s3", request "u1") ] logged_in) in
  dailyUsage (snd (postSessions documented (at_instant MS_PER_DAY) "s4"
                     (request "u1") st3)) !! "tok-1"
  = Some {| dateKey := 1; count := 1 |}.
Proof.
  intros st3.
  apply (quota_resets_next_day documented (at_instant MS_PER_DAY) "s4"
           (request "u1") st3 {| dateKey := 0; count := 3 |} 1
           eq_refl (ex_intro _ _ eq_refl) eq_refl eq_refl eq_refl eq_refl
           ltac:(discriminate) ltac:(vm_compute; reflexivity)).
Defined.

End ServerMore.

(* ===================================================================== *)
(** * More on the audio bot manager                                      *)
(* ===================================================================== *)

Module BotMore.
Import Bot BotFacts.

(** ** Reading the worker's output *)

Lemma split_newline_nonempty (s : string) : Js.split_newline s <> [].
Proof.
  induction s as [|c s IH]; [discriminate|]. cbn.
  destruct (Ascii.eqb c "010"); [discriminate|].
  by destruct (Js.split_newline s).
Qed.

Lemma removelast_cons2 {A : Type} (x y : A) (l : list A) :
  removelast (x :: y :: l) = x :: removelast (y :: l).
Proof. reflexivity. Qed.

(** Splitting a text that arrives in two parts: the finished lines of the
    first part, then the split of its unfinished line followed by the second
    part. *)
Lemma split_newline_app (a b : string) :
  Js.split_newline (a ++ b)
  = (removelast (Js.split_newline a)
     ++ Js.split_newline (default "" (last (Js.split_newline a)) ++ b))%list.
Proof.
  induction a as [|c a IH]; [reflexivity|].
  pose proof (split_newline_nonempty a) as Hne.
  change (String c a ++ b) with (String c (a ++ b)).
  cbn [Js.split_newline].
  destruct (Ascii.eqb c "010") eqn:Ec.
  - rewrite IH. destruct (Js.split_newline a) as [|x xs]; [done|].
    rewrite removelast_cons2. reflexivity.
  - rewrite IH. destruct (Js.split_newline a) as [|x [|y ys]]; [done| |].
    + cbn [removelast last default app]. unfold id.
      change (String c x ++ b) with (String c (x ++ b)).
      cbn [Js.split_newline]. rewrite Ec. reflexivity.
    + rewrite !removelast_cons2. reflexivity.
Qed.

Lemma removelast_app_nonempty {A : Type} (l1 l2 : list A) :
  l2 <> [] -> removelast (l1 ++ l2) = (l1 ++ removelast l2)%list.
Proof.
  intros Hne. induction l1 as [|x l1 IH]; [reflexivity|].
  cbn [app]. destruct (l1 ++ l2)%list as [|y l] eqn:E.
  - by destruct l1, l2.
  - rewrite removelast_cons2, IH. reflexivity.
Qed.

Lemma last_app_nonempty {A : Type} (l1 l2 : list A) :
  l2 <> [] -> last (l1 ++ l2) = last l2.
Proof.
  intros Hne. destruct l2 as [|x l2] using rev_ind; [done|].
  by rewrite app_assoc, !last_snoc.
Qed.

Section Output.
Context (parse : string -> option BotMessage) (blank : string -> bool).

(** X14.  The manager does not depend on how the worker's output is cut
    into chunks: handling [a] and then [b] leaves the same buffer and the
    same manager as handling [a ++ b] at once. *)
Theorem handle_output_chunking (a b : string) (r : Reader) :
  handleOutput parse blank b (handleOutput parse blank a r)
  = handleOutput parse blank (a ++ b) r.
Proof.
  unfold handleOutput. cbn [messageBuffer manager].
  pose proof (split_newline_nonempty
                (default "" (last (Js.split_newline (messageBuffer r ++ a))) ++ b))
    as Hne.
  assert (E : messageBuffer r ++ (a ++ b) = (messageBuffer r ++ a) ++ b).
  { generalize (messageBuffer r). intros s.
    induction s as [|c s IH]; [reflexivity|].
    change (String c (s ++ (a ++ b)) = String c ((s ++ a) ++ b)).
    by rewrite IH. }
  rewrite E, (split_newline_app (messageBuffer r ++ a) b).
  rewrite (removelast_app_nonempty _ _ Hne), (last_app_nonempty _ _ Hne).
  by rewrite fold_left_app.
Qed.

End Output.

(** A text without a newline is its own only piece. *)
Lemma split_newline_single_inv (c : ascii) (s : string) :
  Js.split_newline (String c s) = [String c s] ->
  Ascii.eqb c "010" = false /\ Js.split_newline s = [s].
Proof.
  pose proof (split_newline_nonempty s) as Hne.
  cbn [Js.split_newline]. destruct (Ascii.eqb c "010"); [discriminate|].
  destruct (Js.split_newline s) as [|x xs]; [done|].
  by intros [= -> ->].
Qed.

Lemma split_newline_single_app (a b : string) :
  Js.split_newline a = [a] -> Js.split_newline b = [b] ->
  Js.split_newline (a ++ b) = [a ++ b].
Proof.
  intros Ha Hb. induction a as [|c a IH]; [exact Hb|].
  apply split_newline_single_inv in Ha as [Ec Ha].
  change (String c a ++ b) with (String c (a ++ b)).
  cbn [Js.split_newline]. by rewrite Ec, (IH Ha).
Qed.

Lemma split_newline_line (s : string) :
  Js.split_newline s = [s] ->
  Js.split_newline (s ++ String "010" "") = [s; ""].
Proof.
  intros Hs. induction s as [|c s IH]; [reflexivity|].
  apply split_newline_single_inv in Hs as [Ec Hs].
  change (String c s ++ String "010" "") with (String c (s ++ String "010" "")).
  cbn [Js.split_newline]. by rewrite Ec, (IH Hs).
Qed.

Lemma split_newline_last (s : string) :
  Js.split_newline (default "" (last (Js.split_newline s)))
  = [default "" (last (Js.split_newline s))].
Proof.
  induction s as [|c s IH]; [reflexivity|].
  pose proof (split_newline_nonempty s) as Hne.
  cbn [Js.split_newline]. destruct (Ascii.eqb c "010") eqn:Ec.
  - destruct (Js.split_newline s) as [|x xs]; [done|]. exact IH.
  - destruct (Js.split_newline s) as [|x [|y ys]]; [done| |exact IH].
    cbn [last default] in *. unfold id in *.
    cbn [Js.split_newline]. by rewrite Ec, IH.
Qed.

Section Lines.
Context (parse : string -> option BotMessage) (blank : string -> bool).

(** X15.  A line is handled when its newline has arrived, not before: the
    buffer kept by [handleOutput] never holds a newline; output without a
    newline is appended to the buffer and handles nothing; and the newline
    that ends a line hands the whole line, buffered part included, to the
    loop body and empties the buffer. *)
Theorem partial_line_is_buffered (data : string) (r : Reader) :
  Js.split_newline (messageBuffer (handleOutput parse blank data r))
  = [messageBuffer (handleOutput parse blank data r)]
  /\ (Js.split_newline (messageBuffer r) = [messageBuffer r] ->
      Js.split_newline data = [data] ->
      handleOutput parse blank data r
      = {| messageBuffer := messageBuffer r ++ data; manager := manager r |}
      /\ handleOutput parse blank (data ++ String "010" "") r
         = {| messageBuffer := "";
              manager := handleLine parse blank (messageBuffer r ++ data)
                           (manager r) |}).
Proof.
  split; [apply split_newline_last|].
  intros Hb Hd. pose proof (split_newline_single_app _ _ Hb Hd) as Hs.
  split.
  - unfold handleOutput. by rewrite Hs.
  - unfold handleOutput.
    assert (E : messageBuffer r ++ (data ++ String "010" "")
                = (messageBuffer r ++ data) ++ String "010" "").
    { generalize (messageBuffer r). intros s.
      induction s as [|c s IH]; [reflexivity|].
      change (String c (s ++ (data ++ String "010" ""))
              = String c ((s ++ data) ++ String "010" "")).
      by rewrite IH. }
    by rewrite E, (split_newline_line _ Hs).
Qed.

End Lines.

Lemma partial_line_is_buffered_witness :
  handleOutput (fun _ => None) (fun _ => false) "partial"
    {| messageBuffer := ""; manager := fresh |}
  = {| messageBuffer := "partial"; manager := fresh |}.
Proof.
  apply (partial_line_is_buffered (fun _ => None) (fun _ => false)
           "partial" {| messageBuffer := ""; manager := fresh |}).
  - reflexivity.
  - reflexivity.
Defined.

(** ** The log mirror *)

Lemma logs_resolveOnce (call : nat) (v : bool) (m : Manager) :
  logs (resolveOnce call v m) = logs m.
Proof.
  unfold resolveOnce. destruct (starts m !! call) as [s|]; [|reflexivity].
  by destruct (resolved s).
Qed.

Lemma logs_killProcess (m : Manager) : logs (killProcess m) = logs m.
Proof. unfold killProcess. by destruct (process m). Qed.

Lemma logs_readyHandler (h : nat) (msg : BotMessage) (m : Manager) :
  logs (readyHandler h msg m) = logs m.
Proof.
  unfold readyHandler. destruct (String.eqb _ _); [|reflexivity].
  destruct (negb _).
  - by rewrite logs_resolveOnce, logs_killProcess.
  - by rewrite logs_resolveOnce.
Qed.

Lemma logs_handlers (msg : BotMessage) (hs : list nat) (m : Manager) :
  logs (fold_left (fun m h => readyHandler h msg m) hs m) = logs m.
Proof.
  revert m. induction hs as [|h hs IH]; intros m; [reflexivity|].
  cbn [fold_left]. by rewrite IH, logs_readyHandler.
Qed.

Lemma logs_settle (c : nat) (v : option BotMessage) (pc : gmap string nat)
    (m : Manager) :
  logs (resolveCommand c v (set_pendingCallbacks pc (clearCommandTimer c m)))
  = logs m.
Proof.
  unfold resolveCommand, clearCommandTimer.
  destruct (commands m !! c) as [cmd|] eqn:E; cbn [commands set_pendingCallbacks
    set_commands].
  - match goal with
    | |- context [match ?x with Some _ => _ | None => _ end] =>
        by destruct x
    end.
  - by rewrite E.
Qed.

Lemma logs_dispatch (msg : BotMessage) (m : Manager) :
  logs (dispatch msg m) = logs m.
Proof.
  unfold dispatch. destruct (endsWith _ _); [|reflexivity].
  destruct (pendingCallbacks m !! type msg); [|reflexivity].
  unfold commandCallback. rewrite clearCommandTimer_callbacks.
  apply logs_settle.
Qed.

(** The line a [log] message adds. *)
Lemma mirror_logs (msg : BotMessage) (m : Manager) :
  logs (mirror msg m)
  = if String.eqb (type msg) "log" then
      let logs' :=
        (logs m ++ [{| log_timestamp := fields msg !! "timestamp";
                       log_level := fields msg !! "level";
                       log_message := fields msg !! "message" |}])%list in
      if bool_decide (200 < length logs')%nat
      then drop (length logs' - 100) logs' else logs'
    else logs m.
Proof.
  unfold mirror. destruct (String.eqb (type msg) "log") eqn:El.
  - apply String.eqb_eq in El. rewrite El. reflexivity.
  - destruct (String.eqb (type msg) "status");
      [destruct (bool_decide _); [reflexivity|by destruct (bool_decide _)]|].
    destruct (String.eqb (type msg) "playback_started"); [reflexivity|].
    destruct (String.eqb (type msg) "progress"); [reflexivity|].
    destruct (_ || _); [reflexivity|].
    by destruct (String.eqb (type msg) "status_response").
Qed.

Lemma logs_handleMessage (msg : BotMessage) (m : Manager) :
  logs (handleMessage msg m) = logs (mirror msg m).
Proof.
  unfold handleMessage. by rewrite logs_handlers, logs_dispatch.
Qed.

Lemma logs_step_other (a : Action) (m : Manager) :
  (forall msg, a <> message msg) -> logs (step a m) = logs m.
Proof.
  intros Hne.
  destruct a as [scriptExists newPid|writable line rt timeout|msg|call code
                |call e|call|c']; cbn [step].
  - unfold start. destruct (isRunning m); [reflexivity|].
    by destruct (negb scriptExists).
  - unfold sendCommandWithResponse.
    set (m2 := set_pendingCallbacks _ _).
    unfold sendCommand. change (process m2) with (process m).
    destruct (process m); [destruct writable|]; cbn [snd];
      [reflexivity|by rewrite logs_settle..].
  - by destruct (Hne msg).
  - unfold onClose. destruct (is_resolved _ _); [reflexivity|].
    rewrite logs_resolveOnce.
    destruct (lastError _) as [e|]; [by destruct (Js.truthy e)|reflexivity].
  - unfold onError. by rewrite logs_resolveOnce.
  - unfold onStartTimeout. destruct (starts m !! call) as [s|]; [|reflexivity].
    destruct (timeoutArmed s); [|reflexivity].
    by rewrite logs_resolveOnce, logs_killProcess.
  - unfold onCommandTimeout. destruct (commands m !! c') as [cmd|]; [|reflexivity].
    destruct (timerArmed cmd); [|reflexivity]. apply logs_settle.
Qed.

Lemma step_logs_bounded (a : Action) (m : Manager) :
  (length (logs m) <= 200)%nat -> (length (logs (step a m)) <= 200)%nat.
Proof.
  intros Hb. destruct a as [| |msg| | | |];
    try (rewrite logs_step_other; [exact Hb|discriminate]).
  cbn [step]. rewrite logs_handleMessage, mirror_logs.
  destruct (String.eqb _ _); [|exact Hb]. cbn zeta.
  destruct (bool_decide _) eqn:E.
  - rewrite length_drop. lia.
  - apply bool_decide_eq_false in E. lia.
Qed.

(** X16.  The log mirror is a ring: whatever happens to the manager, it
    never holds more than 200 lines.  A [log] message puts its line last;
    the 201st line makes the manager keep the most recent 100 only. *)
Theorem log_ring (trace : list Action) (msg : BotMessage) (m : Manager) :
  (length (logs m) <= 200)%nat ->
  (length (logs (run trace m)) <= 200)%nat
  /\ (type msg = "log" ->
      let line := {| log_timestamp := fields msg !! "timestamp";
                     log_level := fields msg !! "level";
                     log_message := fields msg !! "message" |} in
      let m' := handleMessage msg m in
      last (logs m') = Some line
      /\ length (logs m')
         = (if decide (length (logs m) = 200%nat)
            then 100%nat else S (length (logs m)))
      /\ logs m' `suffix_of` (logs m ++ [line])%list).
Proof.
  intros Hb. split.
  - revert m Hb. induction trace as [|a trace IH]; intros m Hb; [exact Hb|].
    cbn [run fold_left]. apply IH. by apply step_logs_bounded.
  - intros Ht line m'. unfold m'.
    rewrite logs_handleMessage, mirror_logs, Ht, String.eqb_refl.
    cbn zeta. fold line.
    assert (Hlen : length (logs m ++ [line]) = S (length (logs m)))
      by (rewrite length_app; cbn; lia).
    destruct (bool_decide _) eqn:E.
    + apply bool_decide_eq_true in E.
      rewrite decide_True by lia. split; [|split].
      * rewrite drop_app_le by lia. apply last_snoc.
      * rewrite length_drop. lia.
      * apply suffix_drop.
    + apply bool_decide_eq_false in E.
      rewrite decide_False by lia. split; [|split].
      * apply last_snoc.
      * exact Hlen.
      * done.
Qed.

Lemma log_ring_witness :
  (length (logs (run [message {| type := "log"; fields := ∅ |};
                      message {| type := "log"; fields := ∅ |}] fresh))
   <= 200)%nat.
Proof.
  apply (log_ring [message {| type := "log"; fields := ∅ |};
                   message {| type := "log"; fields := ∅ |}]
           {| type := "log"; fields := ∅ |} fresh).
  cbn. lia.
Defined.

Lemma getLogs_suffix (limit : Z) (m : Manager) :
  getLogs limit m `suffix_of` logs m.
Proof. unfold getLogs, Js.slice_from. apply suffix_drop. Qed.

Lemma getLogs_length (limit : Z) (m : Manager) :
  length (getLogs limit m)
  = if decide (0 < limit) then Nat.min (Z.to_nat limit) (length (logs m))
    else (length (logs m) - Z.to_nat (- limit))%nat.
Proof.
  unfold getLogs, Js.slice_from. rewrite length_drop.
  destruct (Z.ltb_spec (- limit) 0); destruct (decide (0 < limit)); lia.
Qed.

(** X17.  [GET /api/bot/logs] returns the most recent lines, in order: the
    last [limit] of them for a positive [limit], the last 50 when the
    parameter is missing, not a number or zero.  A negative [limit] is not
    a window: it drops the oldest [-limit] lines and returns all the
    others. *)
Theorem logs_route_window (limit : option Z) (m : Manager) :
  logsRoute limit m `suffix_of` logs m
  /\ (forall n, limit = Some n -> 0 < n ->
        length (logsRoute limit m) = Nat.min (Z.to_nat n) (length (logs m)))
  /\ (limit = None \/ limit = Some 0 ->
        length (logsRoute limit m) = Nat.min 50 (length (logs m)))
  /\ (forall n, limit = Some n -> n < 0 ->
        length (logsRoute limit m)
        = (length (logs m) - Z.to_nat (- n))%nat).
Proof.
  split; [apply getLogs_suffix|]. unfold logsRoute.
  split; [|split].
  - intros n -> Hn. destruct (Z.eqb_spec n 0); [lia|].
    rewrite getLogs_length. by rewrite decide_True.
  - intros [->| ->]; cbn [Z.eqb]; rewrite getLogs_length;
      rewrite decide_True by lia; reflexivity.
  - intros n -> Hn. destruct (Z.eqb_spec n 0); [lia|].
    rewrite getLogs_length. by rewrite decide_False by lia.
Qed.

(** ** The promise of [start()] *)

Lemma starts_killProcess (m : Manager) : starts (killProcess m) = starts m.
Proof. unfold killProcess. by destruct (process m). Qed.

Lemma starts_settle (c : nat) (v : option BotMessage) (pc : gmap string nat)
    (m : Manager) :
  starts (resolveCommand c v (set_pendingCallbacks pc (clearCommandTimer c m)))
  = starts m.
Proof.
  unfold resolveCommand, clearCommandTimer.
  destruct (commands m !! c) as [cmd|] eqn:E;
    cbn [commands set_pendingCallbacks set_commands].
  - match goal with
    | |- context [match ?x with Some _ => _ | None => _ end] =>
        by destruct x
    end.
  - by rewrite E.
Qed.

Lemma starts_mirror (msg : BotMessage) (m : Manager) :
  starts (mirror msg m) = starts m.
Proof. unfold mirror. repeat case_match; reflexivity. Qed.

Lemma starts_dispatch (msg : BotMessage) (m : Manager) :
  starts (dispatch msg m) = starts m.
Proof.
  unfold dispatch. destruct (endsWith _ _); [|reflexivity].
  destruct (pendingCallbacks m !! type msg); [|reflexivity].
  unfold commandCallback. rewrite clearCommandTimer_callbacks.
  apply starts_settle.
Qed.

(** What the calls of one turn do to the [start()] closures: a property of
    the list that [resolveOnce] and a new waiting closure keep is kept by
    every step. *)
Section StartsInvariant.
Variable P : list StartCall -> Prop.
Hypothesis P_resolveOnce :
  forall call v m, P (starts m) -> P (starts (resolveOnce call v m)).
Hypothesis P_spawn :
  forall l, P l ->
    P (l ++ [{| resolved := false; timeoutArmed := true; outcome := None |}]).

Lemma readyHandler_invariant (h : nat) (msg : BotMessage) (m : Manager) :
  P (starts m) -> P (starts (readyHandler h msg m)).
Proof.
  intros Hm. unfold readyHandler. destruct (String.eqb _ _); [|exact Hm].
  destruct (negb _); apply P_resolveOnce;
    [rewrite starts_killProcess|]; exact Hm.
Qed.

Lemma handlers_invariant (msg : BotMessage) (hs : list nat) (m : Manager) :
  P (starts m) ->
  P (starts (fold_left (fun m h => readyHandler h msg m) hs m)).
Proof.
  revert m. induction hs as [|h hs IH]; intros m Hm; [exact Hm|].
  cbn [fold_left]. by apply IH, readyHandler_invariant.
Qed.

Lemma step_invariant (a : Action) (m : Manager) :
  P (starts m) -> P (starts (step a m)).
Proof.
  intros Hm.
  destruct a as [scriptExists newPid|writable line rt timeout|msg|call code
                |call e|call|c']; cbn [step].
  - unfold start. destruct (isRunning m); [exact Hm|].
    destruct (negb scriptExists); [exact Hm|]. cbn. by apply P_spawn.
  - unfold sendCommandWithResponse.
    set (m2 := set_pendingCallbacks _ _).
    unfold sendCommand. change (process m2) with (process m).
    destruct (process m); [destruct writable|]; cbn [snd];
      [exact Hm|by rewrite starts_settle..].
  - unfold handleMessage. apply handlers_invariant.
    by rewrite starts_dispatch, starts_mirror.
  - unfold onClose. destruct (is_resolved _ _); [exact Hm|].
    apply P_resolveOnce.
    destruct (lastError _) as [e|]; [destruct (Js.truthy e)|]; exact Hm.
  - unfold onError. by apply P_resolveOnce.
  - unfold onStartTimeout. destruct (starts m !! call) as [s|]; [|exact Hm].
    destruct (timeoutArmed s); [|exact Hm].
    apply P_resolveOnce. by rewrite starts_killProcess.
  - unfold onCommandTimeout. destruct (commands m !! c') as [cmd|]; [|exact Hm].
    destruct (timerArmed cmd); [|exact Hm]. by rewrite starts_settle.
Qed.

Lemma run_invariant (trace : list Action) (m : Manager) :
  P (starts m) -> P (starts (run trace m)).
Proof.
  revert m. induction trace as [|a trace IH]; intros m Hm; [exact Hm|].
  cbn [run fold_left]. by apply IH, step_invariant.
Qed.

End StartsInvariant.

Lemma run_well_shaped (trace : list Action) (m : Manager) :
  Forall well_shaped (starts m) -> Forall well_shaped (starts (run trace m)).
Proof.
  apply (run_invariant (Forall well_shaped)).
  - intros call v m0 Hm. unfold resolveOnce.
    destruct (starts m0 !! call) as [s|]; [|exact Hm].
    destruct (resolved s); [exact Hm|]. cbn [starts set_eventHandlers set_starts].
    apply Forall_insert; [exact Hm|]. split; [reflexivity|by eexists].
  - intros l Hl. apply Forall_app. split; [exact Hl|].
    apply Forall_singleton. by split.
Qed.

Lemma run_keeps_settled (trace : list Action) (m : Manager) (call : nat)
    (s : StartCall) :
  starts m !! call = Some s -> resolved s = true ->
  starts (run trace m) !! call = Some s.
Proof.
  intros Hs Hr.
  apply (run_invariant (fun l => l !! call = Some s)); [| |exact Hs].
  - intros call' v m0 Hm. by apply resolveOnce_settled.
  - intros l Hl. by apply lookup_app_l_Some.
Qed.

(** X18.  The promise of [start()] settles once.  In a manager reached from
    the fresh one, a call that has resolved carries its outcome and has
    its startup timer cleared; whatever happens afterwards (messages, the
    worker exiting, further starts and commands) the outcome stays the
    same, and the 10 s timer firing late changes nothing: it cannot kill
    the worker of a handshake that completed. *)
Theorem start_settles_once (before later : list Action) (call : nat)
    (s : StartCall) :
  starts (run before fresh) !! call = Some s ->
  resolved s = true ->
  is_Some (outcome s)
  /\ timeoutArmed s = false
  /\ starts (run later (run before fresh)) !! call = Some s
  /\ onStartTimeout call (run later (run before fresh))
     = run later (run before fresh).
Proof.
  intros Hs Hr.
  assert (Hshape : well_shaped s).
  { eapply (proj1 (Forall_lookup _ _)); [|exact Hs].
    apply run_well_shaped. constructor. }
  unfold well_shaped in Hshape. rewrite Hr in Hshape.
  destruct Hshape as [Ht Ho].
  pose proof (run_keeps_settled later _ call s Hs Hr) as Hkeep.
  split; [exact Ho|]. split; [exact Ht|]. split; [exact Hkeep|].
  unfold onStartTimeout. by rewrite Hkeep, Ht.
Qed.

Lemma start_settles_once_witness :
  starts (run [message ready_no_sdk; do_start true 7; start_timeout 0]
            (run [do_start true 4242; message ready_no_sdk] fresh)) !! 0%nat
  = Some {| resolved := true; timeoutArmed := false; outcome := Some false |}.
Proof.
  apply (start_settles_once [do_start true 4242; message ready_no_sdk]
           [message ready_no_sdk; do_start true 7; start_timeout 0] 0
           {| resolved := true; timeoutArmed := false; outcome := Some false |}
           ltac:(vm_compute; reflexivity) eq_refl).
Defined.

(** ** A handshake that succeeds *)

Section HandshakeOk.
Context (msg : BotMessage) (call : nat).
Hypothesis Hready : type msg = "ready".
Hypothesis Hsdk : fields msg !! "sdk_available" = Some (JBool true).

Lemma readyHandler_with_sdk (h : nat) (m : Manager) :
  readyHandler h msg m
  = resolveOnce h true
      (set_lastError None
         (set_capabilities true
            (bool_decide (fields msg !! "agora_available" = Some (JBool true)))
            (bool_decide (fields msg !! "pydub_available" = Some (JBool true)))
            m)).
Proof.
  unfold readyHandler. rewrite Hready, String.eqb_refl.
  cbn [sdkAvailable set_capabilities].
  by rewrite bool_decide_eq_true_2 by exact Hsdk.
Qed.

Lemma readyHandler_accepts (h : nat) (m0 m : Manager) :
  process m = process m0 -> killedPids m = killedPids m0 ->
  accepted m0 (readyHandler h msg m).
Proof.
  intros Hp Hk. rewrite readyHandler_with_sdk.
  match goal with
  | |- accepted _ (resolveOnce ?c ?v ?x) =>
      destruct (resolveOnce_process c v x) as (H1 & H2 & H3 & _);
      assert (H4 : sdkAvailable (resolveOnce c v x) = sdkAvailable x)
  end.
  { unfold resolveOnce. cbn [starts set_lastError set_capabilities].
    destruct (starts m !! h) as [s|]; [|reflexivity].
    by destruct (resolved s). }
  split; [by rewrite H1|by rewrite H3|by rewrite H2|by rewrite H4].
Qed.

Lemma handlers_accept (hs : list nat) (m0 m : Manager) :
  accepted m0 m ->
  accepted m0 (fold_left (fun m h => readyHandler h msg m) hs m).
Proof.
  revert m. induction hs as [|h hs IH]; intros m Hm; [exact Hm|].
  cbn [fold_left]. apply IH. destruct Hm as [Hp Hk _ _].
  by apply readyHandler_accepts.
Qed.

Lemma handlers_resolve_true (hs : list nat) (m : Manager) (s : StartCall) :
  call ∈ hs -> starts m !! call = Some s -> resolved s = false ->
  starts (fold_left (fun m h => readyHandler h msg m) hs m) !! call
  = Some {| resolved := true; timeoutArmed := false; outcome := Some true |}.
Proof.
  revert m. induction hs as [|h hs IH]; intros m Hin Hs Hr.
  - by apply elem_of_nil in Hin.
  - cbn [fold_left]. destruct (decide (h = call)) as [->|Hne].
    + apply (handlers_invariant
               (fun l => l !! call
                         = Some {| resolved := true; timeoutArmed := false;
                                   outcome := Some true |})).
      * intros c' v m1 Hm1. by apply resolveOnce_settled.
      * rewrite readyHandler_with_sdk. by eapply resolveOnce_pending.
    + apply elem_of_cons in Hin as [->|Hin]; [done|].
      apply IH; [exact Hin| |exact Hr].
      rewrite readyHandler_with_sdk. by rewrite resolveOnce_other.
Qed.

End HandshakeOk.

(** X19.  While a [start()] call is waiting for the handshake, a [ready]
    message whose [sdk_available] is [true] makes that call resolve to
    [true]: the worker is kept (no process is killed), the last error is
    cleared, the SDK is marked available, and the startup timer of the
    call is cleared, so that its firing later changes nothing. *)
Theorem ready_with_sdk (msg : BotMessage) (m : Manager) (call : nat) :
  type msg = "ready" ->
  fields msg !! "sdk_available" = Some (JBool true) ->
  call ∈ eventHandlers m ->
  is_resolved call m = false ->
  let m' := handleMessage msg m in
  starts m' !! call
  = Some {| resolved := true; timeoutArmed := false; outcome := Some true |}
  /\ process m' = process m
  /\ killedPids m' = killedPids m
  /\ lastError m' = None
  /\ sdkAvailable m' = true
  /\ onStartTimeout call m' = m'.
Proof.
  intros Ht Hsdk Hin Hres m'.
  unfold is_resolved in Hres.
  destruct (starts m !! call) as [s|] eqn:Hs; [|discriminate].
  assert (Hst : starts m' !! call
                = Some {| resolved := true; timeoutArmed := false;
                          outcome := Some true |}).
  { unfold m', handleMessage. rewrite (ready_passes_through msg m Ht).
    by eapply handlers_resolve_true. }
  assert (Hacc : accepted m m').
  { unfold m', handleMessage. rewrite (ready_passes_through msg m Ht).
    destruct (eventHandlers m) as [|h hs]; [by apply elem_of_nil in Hin|].
    cbn [fold_left]. apply handlers_accept; [exact Ht|exact Hsdk|].
    by apply readyHandler_accepts. }
  destruct Hacc as [Hp Hk He Hs'].
  repeat (split; [assumption|]).
  unfold onStartTimeout. by rewrite Hst.
Qed.

Lemma ready_with_sdk_witness :
  let ready := {| type := "ready";
                  fields := {[ "sdk_available" := JBool true ]} |} in
  process (handleMessage ready spawned) = Some {| pid := 4242 |}
  /\ lastError (handleMessage ready spawned) = None.
Proof.
  intros ready.
  destruct (ready_with_sdk ready spawned 0 eq_refl eq_refl
              ltac:(vm_compute; apply list_elem_of_here) eq_refl)
    as (_ & Hp & _ & He & _).
  split; [exact Hp | exact He].
Defined.

(** ** Responses *)

Lemma settle_other (c c' : nat) (v : option BotMessage) (pc : gmap string nat)
    (m : Manager) :
  c <> c' ->
  commands (resolveCommand c' v (set_pendingCallbacks pc (clearCommandTimer c' m)))
    !! c
  = commands m !! c.
Proof.
  intros Hne. unfold resolveCommand, clearCommandTimer.
  destruct (commands m !! c') as [cmd1|] eqn:Hc;
    cbn [commands set_pendingCallbacks set_commands].
  - assert (Hlt : (c' < length (commands m))%nat)
      by (by eapply lookup_lt_Some).
    rewrite list_lookup_insert_eq by exact Hlt.
    cbn [commands set_pendingCallbacks set_commands].
    by rewrite !list_lookup_insert_ne by congruence.
  - by rewrite Hc.
Qed.

Lemma handleMessage_commands (msg : BotMessage) (m : Manager) :
  commands (handleMessage msg m) = commands (dispatch msg (mirror msg m)).
Proof. unfold handleMessage. apply commands_handlers. Qed.

(** A response for which a callback is registered. *)
Lemma handleMessage_response (msg : BotMessage) (m : Manager) (c : nat)
    (cmd : Command) :
  endsWith (type msg) "_response" = true ->
  pendingCallbacks m !! type msg = Some c ->
  commands m !! c = Some cmd ->
  commands (handleMessage msg m) !! c
  = Some {| responseType := responseType cmd; timeoutMs := timeoutMs cmd;
            timerArmed := false;
            answer := Some (default (Some msg) (answer cmd)) |}
  /\ (forall c', c' <> c ->
        commands (handleMessage msg m) !! c' = commands m !! c').
Proof.
  intros He Hp Hc. rewrite handleMessage_commands.
  destruct (commands_mirror msg m) as [Hcm Hpm].
  unfold dispatch. rewrite He, Hpm, Hp.
  unfold commandCallback. rewrite clearCommandTimer_callbacks.
  split.
  - rewrite <- Hcm in Hc. by destruct (settle_result c (Some msg)
      (delete (type msg) (pendingCallbacks m)) (mirror msg m) cmd Hc) as [-> _].
  - intros c' Hne. by rewrite settle_other, Hcm.
Qed.

(** A response nobody waits for. *)
Lemma handleMessage_unclaimed (msg : BotMessage) (m : Manager) :
  endsWith (type msg) "_response" = true ->
  pendingCallbacks m !! type msg = None ->
  commands (handleMessage msg m) = commands m.
Proof.
  intros He Hp. rewrite handleMessage_commands.
  destruct (commands_mirror msg m) as [Hcm Hpm].
  unfold dispatch. by rewrite He, Hpm, Hp.
Qed.

(** A command that was written to the worker. *)
Lemma sendCommandWithResponse_delivered (line : Line) (rt : string)
    (timeout : option Z) (m : Manager) (p : Proc) :
  process m = Some p ->
  let m' := snd (sendCommandWithResponse true line rt timeout m) in
  commands m'
  = (commands m ++ [{| responseType := rt;
                       timeoutMs := default DEFAULT_TIMEOUT_MS timeout;
                       timerArmed := true; answer := None |}])%list
  /\ pendingCallbacks m' = <[rt := length (commands m)]> (pendingCallbacks m)
  /\ process m' = Some p
  /\ written m' = line :: written m.
Proof.
  intros Hp m'. unfold m', sendCommandWithResponse.
  set (m2 := set_pendingCallbacks _ _).
  unfold sendCommand. change (process m2) with (process m). rewrite Hp.
  cbn [snd]. by repeat split.
Qed.

(** X20.  A response reaches the command that waits for its type: when a
    callback is registered for the type of a [..._response] message, the
    command behind it resolves to that message (unless it had resolved
    before) and its timer is cleared, and every other command is left as it
    was; when none is registered, no command changes. *)
Theorem response_reaches_its_command (msg : BotMessage) (m : Manager) :
  endsWith (type msg) "_response" = true ->
  (forall c cmd,
     pendingCallbacks m !! type msg = Some c ->
     commands m !! c = Some cmd ->
     commands (handleMessage msg m) !! c
     = Some {| responseType := responseType cmd; timeoutMs := timeoutMs cmd;
               timerArmed := false;
               answer := Some (default (Some msg) (answer cmd)) |}
     /\ (forall c', c' <> c ->
           commands (handleMessage msg m) !! c' = commands m !! c'))
  /\ (pendingCallbacks m !! type msg = None ->
      commands (handleMessage msg m) = commands m).
Proof.
  intros He. split.
  - intros c cmd Hp Hc. by apply handleMessage_response.
  - by apply handleMessage_unclaimed.
Qed.

Lemma response_reaches_its_command_witness :
  let reply := {| type := "init_response";
                  fields := {[ "success" := JBool true ]} |} in
  commands (handleMessage reply (snd (initialize true "app" spawned))) !! 0%nat
  = Some {| responseType := "init_response"; timeoutMs := 30000;
            timerArmed := false; answer := Some (Some reply) |}.
Proof.
  intros reply.
  destruct (response_reaches_its_command reply
              (snd (initialize true "app" spawned)) eq_refl) as [H _].
  destruct (H 0%nat
              {| responseType := "init_response"; timeoutMs := 30000;
                 timerArmed := true; answer := None |} eq_refl eq_refl)
    as [H1 _].
  exact H1.
Defined.

(** X21.  Two commands that wait for the same response type get in each
    other's way.  The second registration replaces the first: a response
    resolves the second command and leaves the first waiting for its
    timeout.  And when the timer of the first fires it removes the callback
    of the second: a response that arrives afterwards is lost, and the
    second command is left waiting for its own timeout. *)
Theorem same_type_commands_overlap (l1 l2 : Line) (rt : string)
    (t1 t2 : option Z) (msg : BotMessage) (m : Manager) (p : Proc) :
  process m = Some p ->
  type msg = rt ->
  endsWith rt "_response" = true ->
  let c1 := length (commands m) in
  let c2 := S c1 in
  let m2 := snd (sendCommandWithResponse true l2 rt t2
                   (snd (sendCommandWithResponse true l1 rt t1 m))) in
  (exists cmd1 cmd2,
     commands (handleMessage msg m2) !! c1 = Some cmd1
     /\ answer cmd1 = None /\ timerArmed cmd1 = true
     /\ commands (handleMessage msg m2) !! c2 = Some cmd2
     /\ answer cmd2 = Some (Some msg))
  /\ (exists cmd1 cmd2,
        commands (handleMessage msg (onCommandTimeout c1 m2)) !! c1 = Some cmd1
        /\ answer cmd1 = Some None
        /\ commands (handleMessage msg (onCommandTimeout c1 m2)) !! c2
           = Some cmd2
        /\ answer cmd2 = None /\ timerArmed cmd2 = true).
Proof.
  intros Hp Ht He c1 c2 m2.
  set (new1 := {| responseType := rt;
                  timeoutMs := default DEFAULT_TIMEOUT_MS t1;
                  timerArmed := true; answer := None |}).
  set (new2 := {| responseType := rt;
                  timeoutMs := default DEFAULT_TIMEOUT_MS t2;
                  timerArmed := true; answer := None |}).
  destruct (sendCommandWithResponse_delivered l1 rt t1 m p Hp)
    as (Hc1 & Hp1 & Hproc1 & _).
  destruct (sendCommandWithResponse_delivered l2 rt t2 _ p Hproc1)
    as (Hc2 & Hp2 & _ & _).
  fold m2 in Hc2, Hp2. rewrite Hc1 in Hc2. rewrite Hp1 in Hp2.
  rewrite Hc1 in Hp2. rewrite length_app in Hp2. cbn [length] in Hp2.
  replace (length (commands m) + 1)%nat with c2 in Hp2 by (unfold c2, c1; lia).
  fold new1 new2 in Hc2.
  assert (H1 : commands m2 !! c1 = Some new1).
  { rewrite Hc2. rewrite lookup_app_l by (rewrite length_app; cbn; lia).
    rewrite lookup_app_r by (unfold c1; lia).
    unfold c1. by rewrite Nat.sub_diag. }
  assert (H2 : commands m2 !! c2 = Some new2).
  { rewrite Hc2. rewrite lookup_app_r by (rewrite length_app; cbn; lia).
    rewrite length_app. cbn [length].
    replace (c2 - (length (commands m) + 1))%nat with 0%nat
      by (unfold c2, c1; lia).
    reflexivity. }
  assert (Hcb : pendingCallbacks m2 !! type msg = Some c2)
    by (rewrite Ht, Hp2; apply lookup_insert_eq).
  rewrite <- Ht in He.
  split.
  - destruct (handleMessage_response msg m2 c2 new2 He Hcb H2) as [Ha Hb].
    exists new1. eexists. rewrite (Hb c1) by (unfold c2; lia).
    split; [exact H1|]. split; [reflexivity|]. split; [reflexivity|].
    split; [exact Ha|]. reflexivity.
  - destruct (onCommandTimeout_resolves c1 new1 m2 H1 eq_refl) as [Ha Hb].
    cbn [responseType new1] in Hb. rewrite <- Ht in Hb.
    rewrite (handleMessage_unclaimed msg _ He Hb).
    eexists. exists new2. split; [exact Ha|]. split; [reflexivity|].
    split; [|by split].
    unfold onCommandTimeout. rewrite H1. cbn [timerArmed new1].
    rewrite settle_other by (unfold c2; lia). exact H2.
Qed.

Lemma same_type_commands_overlap_witness :
  let reply := {| type := "play_response";
                  fields := {[ "success" := JBool true ]} |} in
  let m2 := snd (playAudio true "b.mp3" (snd (playAudio true "a.mp3" spawned))) in
  exists cmd1 cmd2,
    commands (handleMessage reply m2) !! 0%nat = Some cmd1
    /\ answer cmd1 = None
    /\ commands (handleMessage reply m2) !! 1%nat = Some cmd2
    /\ answer cmd2 = Some (Some reply).
Proof.
  intros reply m2.
  destruct (same_type_commands_overlap
              {| command := "play"; args := [("file", JStr "a.mp3")] |}
              {| command := "play"; args := [("file", JStr "b.mp3")] |}
              "play_response" None None reply spawned {| pid := 4242 |}
              eq_refl eq_refl eq_refl)
    as ((cmd1 & cmd2 & H1 & H2 & _ & H3 & H4) & _).
  exists cmd1, cmd2. repeat split; assumption.
Defined.

End BotMore.
